(** * rawstudio: visitor analytics server, Vercel variant and cleanup tool

    A shallow embedding of the JavaScript sources of the repository:
    - [Server]  : the Express server with the full detection pipeline
                  (src/unnamed/part_000),
    - [Vercel]  : the serverless variant of the same API
                  (src/unnamed/part_001),
    - [CleanDb] : the destructive cleanup utility (src/cleandb.js).

    JavaScript strings are modelled as [string] (one [ascii] per code unit,
    read as Latin-1), objects used as dictionaries as [gmap string _], the Tor
    exit list as a [gset string], exceptions as the [result] type and the
    module-level variables ([db], [cachedClient], [isConnected]) as an
    explicit state record threaded through the handlers.  External services
    (MongoDB, geoip-lite, axios) are fields of a [World] record. *)

From Stdlib Require Import ZArith QArith String Ascii List Bool Lia.
From Stdlib Require Import Sorting.Sorted Sorting.Permutation.
From stdpp Require Import gmap strings list fin_maps.

Close Scope Q_scope.
Open Scope string_scope.
Open Scope list_scope.

(** ** JavaScript primitives *)

Module JS.

(** Exceptions: the name of the error class and its message. *)
Record error := Err { err_name : string; err_message : string }.

Inductive result (A : Type) : Type :=
| Ok (a : A)
| Throw (e : error).
Arguments Ok {A} a.
Arguments Throw {A} e.

Definition bind {A B} (m : result A) (k : A -> result B) : result B :=
  match m with
  | Ok a => k a
  | Throw e => Throw e
  end.

(** [try { m } catch (e) { h e }] *)
Definition try_catch {A} (m : result A) (h : error -> A) : A :=
  match m with
  | Ok a => a
  | Throw e => h e
  end.

Definition TypeError (msg : string) : error := Err "TypeError" msg.

(** Truthiness of a possibly-undefined string value: [undefined], [null] and
    the empty string are falsy. *)
Definition truthy (v : option string) : option string :=
  match v with
  | Some s => if String.eqb s "" then None else Some s
  | None => None
  end.

(** [a || d] on a possibly-undefined string. *)
Definition or_default (v : option string) (d : string) : string :=
  match truthy v with
  | Some s => s
  | None => d
  end.

(** White space as removed by [String.prototype.trim] and skipped by
    [parseInt], restricted to Latin-1: TAB, LF, VT, FF, CR, SP and NBSP. *)
Definition is_ws (c : ascii) : bool :=
  let n := nat_of_ascii c in
  (n =? 9)%nat || (n =? 10)%nat || (n =? 11)%nat || (n =? 12)%nat
  || (n =? 13)%nat || (n =? 32)%nat || (n =? 160)%nat.

Fixpoint trimStart (s : string) : string :=
  match s with
  | EmptyString => EmptyString
  | String c s' => if is_ws c then trimStart s' else s
  end.

Fixpoint trimEnd (s : string) : string :=
  match s with
  | EmptyString => EmptyString
  | String c s' =>
      let t := trimEnd s' in
      if is_ws c && String.eqb t "" then EmptyString else String c t
  end.

Definition trim (s : string) : string := trimEnd (trimStart s).

(** [s.split(sep)] for a one-character separator: never an empty array. *)
Fixpoint split (sep : ascii) (s : string) : list string :=
  match s with
  | EmptyString => [EmptyString]
  | String c s' =>
      if Ascii.eqb c sep then EmptyString :: split sep s'
      else match split sep s' with
           | [] => [String c EmptyString]
           | h :: t => String c h :: t
           end
  end.

(** [s.startsWith(p)] *)
Definition startsWith (p s : string) : bool := String.prefix p s.

(** [s.includes(needle)] *)
Fixpoint includes (needle s : string) : bool :=
  String.prefix needle s ||
  match s with
  | EmptyString => false
  | String _ s' => includes needle s'
  end.

Definition lower_char (c : ascii) : ascii :=
  let n := nat_of_ascii c in
  if ((65 <=? n)%nat && (n <=? 90)%nat)
     || ((192 <=? n)%nat && (n <=? 222)%nat && negb (n =? 215)%nat)
  then ascii_of_nat (n + 32) else c.

(** [s.toLowerCase()] *)
Fixpoint toLowerCase (s : string) : string :=
  match s with
  | EmptyString => EmptyString
  | String c s' => String (lower_char c) (toLowerCase s')
  end.

Fixpoint drop_chars (n : nat) (s : string) : string :=
  match n, s with
  | O, _ => s
  | S n', String _ s' => drop_chars n' s'
  | S _, EmptyString => EmptyString
  end.

(** [s.replace(/^p/, '')] for a literal prefix [p]. *)
Definition strip_prefix (p s : string) : string :=
  if String.prefix p s then drop_chars (String.length p) s else s.

(** [arr.includes(x)] on an array of strings. *)
Definition array_includes (x : string) (arr : list string) : bool :=
  existsb (String.eqb x) arr.

(** [arr.find(p)] *)
Definition array_find {A} (p : A -> bool) (arr : list A) : option A :=
  List.find p arr.

(** Calling [.trim()] on an array: [Array.prototype] has no [trim], so the
    call raises a [TypeError] whatever the array holds. *)
Definition array_trim (arr : list string) : result string :=
  Throw (TypeError "value.split(...).trim is not a function").

(** *** parseInt *)

Definition digit_val (c : ascii) : option Z :=
  let n := Z.of_nat (nat_of_ascii c) in
  if (48 <=? n)%Z && (n <=? 57)%Z then Some (n - 48)%Z
  else if (97 <=? n)%Z && (n <=? 122)%Z then Some (n - 87)%Z
  else if (65 <=? n)%Z && (n <=? 90)%Z then Some (n - 55)%Z
  else None.

(** The longest prefix of digits in the radix, folded into its value; [None]
    when there is no digit at all. *)
Fixpoint parse_digits (radix : Z) (s : string) (acc : option Z) : option Z :=
  match s with
  | EmptyString => acc
  | String c s' =>
      match digit_val c with
      | Some d =>
          if (d <? radix)%Z
          then parse_digits radix s'
                 (Some (match acc with Some a => a * radix + d | None => d end)%Z)
          else acc
      | None => acc
      end
  end.

(** [parseInt(s)] without a radix; [None] is [NaN].  The result is the
    mathematical integer the digits denote.  It is the number JavaScript
    returns as long as its absolute value is at most 2^53; beyond that
    JavaScript returns the nearest double (or an infinity), which is zero
    exactly when the integer is.  Properties that use the value itself are
    stated for integers below 2^31. *)
Definition parseInt (s : string) : option Z :=
  let s1 := trimStart s in
  let '(neg, s2) :=
    match s1 with
    | String "-" r => (true, r)
    | String "+" r => (false, r)
    | _ => (false, s1)
    end in
  let '(radix, s3) :=
    match s2 with
    | String "0" (String "x" r) => (16%Z, r)
    | String "0" (String "X" r) => (16%Z, r)
    | _ => (10%Z, s2)
    end in
  match parse_digits radix s3 None with
  | Some v => Some (if neg then (- v)%Z else v)
  | None => None
  end.

(** [parseInt(v)] on a value that may be [undefined]: the argument is first
    converted to the string "undefined". *)
Definition parseInt_value (v : option string) : option Z :=
  match v with
  | Some s => parseInt s
  | None => parseInt "undefined"
  end.

(** [n || d] on a number: [NaN] and zero are falsy. *)
Definition num_or_default (n : option Z) (d : Z) : Z :=
  match n with
  | Some v => if (v =? 0)%Z then d else v
  | None => d
  end.

Definition digit_char (n : Z) : ascii := ascii_of_nat (48 + Z.to_nat n).

Fixpoint dec_fuel (fuel : nat) (n : Z) (acc : string) : string :=
  match fuel with
  | O => acc
  | S f =>
      let acc' := String (digit_char (n mod 10)) acc in
      if (n <? 10)%Z then acc' else dec_fuel f (n / 10) acc'
  end.

(** [String(n)] / [n.toString()] for a non-negative integer; a number has
    no more decimal digits than binary ones. *)
Definition decZ (n : Z) : string :=
  dec_fuel (S (Z.to_nat (Z.log2 n))) n EmptyString.

Definition dec (n : nat) : string := decZ (Z.of_nat n).

(** The value [parse_digits] reaches on the digits [dec_fuel] writes. *)
Fixpoint digits_value (fuel : nat) (o : option Z) (n : Z) : Z :=
  match fuel with
  | O => match o with Some a => a | None => 0%Z end
  | S f =>
      if (n <? 10)%Z
      then match o with Some a => (a * 10 + n)%Z | None => n end
      else (digits_value f o (n / 10) * 10 + n mod 10)%Z
  end.

Definition is_decimal (c : ascii) : bool :=
  let n := nat_of_ascii c in (48 <=? n)%nat && (n <=? 57)%nat.

Definition all_decimal (s : string) : bool :=
  forallb is_decimal (list_ascii_of_string s).

End JS.

(** ** Regular expressions

    The patterns of the sources are kept as syntax trees and run by a
    derivative matcher. *)

Module Regex.

Inductive regex : Type :=
| Void
| Eps
| Chr (p : ascii -> bool)
| Cat (r1 r2 : regex)
| Alt (r1 r2 : regex)
| Star (r : regex)
| Any.                      (* whatever follows an unanchored pattern *)

Fixpoint nullable (r : regex) : bool :=
  match r with
  | Void => false
  | Eps => true
  | Chr _ => false
  | Cat r1 r2 => nullable r1 && nullable r2
  | Alt r1 r2 => nullable r1 || nullable r2
  | Star _ => true
  | Any => true
  end.

Fixpoint deriv (c : ascii) (r : regex) : regex :=
  match r with
  | Void => Void
  | Eps => Void
  | Chr p => if p c then Eps else Void
  | Cat r1 r2 =>
      if nullable r1 then Alt (Cat (deriv c r1) r2) (deriv c r2)
      else Cat (deriv c r1) r2
  | Alt r1 r2 => Alt (deriv c r1) (deriv c r2)
  | Star r1 => Cat (deriv c r1) (Star r1)
  | Any => Any
  end.

Fixpoint matchb (r : regex) (w : list ascii) : bool :=
  match w with
  | [] => nullable r
  | c :: w' => matchb (deriv c r) w'
  end.

(** Building blocks of the concrete syntax. *)
Definition chr (c : ascii) : regex := Chr (Ascii.eqb c).

Fixpoint lit (s : string) : regex :=
  match s with
  | EmptyString => Eps
  | String c s' => Cat (chr c) (lit s')
  end.

(** [\d] *)
Definition is_digit (c : ascii) : bool :=
  let n := nat_of_ascii c in (48 <=? n)%nat && (n <=? 57)%nat.

(** [[0-9a-fA-F]] *)
Definition is_hex (c : ascii) : bool :=
  let n := nat_of_ascii c in
  ((48 <=? n)%nat && (n <=? 57)%nat)
  || ((97 <=? n)%nat && (n <=? 102)%nat)
  || ((65 <=? n)%nat && (n <=? 70)%nat).

(** [[lo-hi]] *)
Definition in_range (lo hi : ascii) (c : ascii) : bool :=
  let n := nat_of_ascii c in
  (nat_of_ascii lo <=? n)%nat && (n <=? nat_of_ascii hi)%nat.

(** [[ab]] *)
Definition one_of (cs : string) (c : ascii) : bool :=
  existsb (Ascii.eqb c) (list_ascii_of_string cs).

(** [r{n}] *)
Fixpoint rep (n : nat) (r : regex) : regex :=
  match n with
  | O => Eps
  | S n' => Cat r (rep n' r)
  end.

(** [r{0,n}] *)
Fixpoint upto (n : nat) (r : regex) : regex :=
  match n with
  | O => Eps
  | S n' => Alt Eps (Cat r (upto n' r))
  end.

(** [r{lo,hi}] *)
Definition rng (lo hi : nat) (r : regex) : regex :=
  Cat (rep lo r) (upto (hi - lo) r).

(** No character class of the expression admits a character outside [P]. *)
Fixpoint chars_in (P : ascii -> Prop) (r : regex) : Prop :=
  match r with
  | Void | Eps => True
  | Chr p => forall c, p c = true -> P c
  | Cat r1 r2 | Alt r1 r2 => chars_in P r1 /\ chars_in P r2
  | Star r1 => chars_in P r1
  | Any => False
  end.

(** No two colons in a row. *)
Fixpoint no_double_colon (w : list ascii) : bool :=
  match w with
  | [] => true
  | c :: w' =>
      match w' with
      | c' :: _ => negb (Ascii.eqb c ":" && Ascii.eqb c' ":") && no_double_colon w'
      | [] => true
      end
  end.

Definition not_colon (c : ascii) : Prop := c <> ":"%char.

(** The invariant of a suffix of an eight-group form: it does not start
    with a colon and holds no two colons in a row. *)
Definition group_tail (w : list ascii) : Prop :=
  no_double_colon w = true /\ (forall w', w <> ":"%char :: w').

(** A JavaScript pattern as the sources write them: always anchored at the
    start, anchored at the end or not. *)
Inductive pattern : Type :=
| Anchored (r : regex)      (* /^r$/ *)
| Prefixed (r : regex).     (* /^r/  *)

(** [pattern.test(s)] *)
Definition test (p : pattern) (s : string) : bool :=
  match p with
  | Anchored r => matchb r (list_ascii_of_string s)
  | Prefixed r => matchb (Cat r Any) (list_ascii_of_string s)
  end.

(** The language of a regular expression, as a relation. *)
Inductive matches : regex -> list ascii -> Prop :=
| MEps : matches Eps []
| MChr p c : p c = true -> matches (Chr p) [c]
| MCat r1 r2 w1 w2 :
    matches r1 w1 -> matches r2 w2 -> matches (Cat r1 r2) (w1 ++ w2)
| MAltL r1 r2 w : matches r1 w -> matches (Alt r1 r2) w
| MAltR r1 r2 w : matches r2 w -> matches (Alt r1 r2) w
| MStar0 r : matches (Star r) []
| MStarS r w1 w2 :
    matches r w1 -> matches (Star r) w2 -> matches (Star r) (w1 ++ w2)
| MAny w : matches Any w.

(** Sufficient syntactic tests: the expression matches nothing, or
    everything. *)
Fixpoint is_void (r : regex) : bool :=
  match r with
  | Void => true
  | Cat r1 r2 => is_void r1 || is_void r2
  | Alt r1 r2 => is_void r1 && is_void r2
  | _ => false
  end.

Fixpoint is_all (r : regex) : bool :=
  match r with
  | Any => true
  | Cat r1 r2 => nullable r1 && is_all r2
  | Alt r1 r2 => is_all r1 || is_all r2
  | _ => false
  end.

Definition derivs (w : list ascii) (r : regex) : regex :=
  fold_left (fun r c => deriv c r) w r.

(** The outcome of a pattern on every string that starts with [x], when the
    start alone settles it. *)
Definition settled (p : pattern) (x : string) : option bool :=
  let r := match p with
           | Anchored r => r
           | Prefixed r => Cat r Any
           end in
  let r' := derivs (list_ascii_of_string x) r in
  if is_all r' then Some true else if is_void r' then Some false else None.

End Regex.

(** ** Data shared by the two servers *)

Module Model.
Import JS.

(** Numbers that are only compared ([>], [Math.max], [Math.min]): every
    finite double is a rational, and these operations do not round. *)
Definition num_gt (a b : Q) : bool := negb (Qle_bool a b).
Definition Math_max (a b : Q) : Q := if Qle_bool a b then b else a.
Definition Math_min (a b : Q) : Q := if Qle_bool a b then a else b.
Definition num_truthy (a : Q) : bool := negb (Qeq_bool a 0).

(** What [geoip.lookup] returns when it finds the address. *)
Record Geo := {
  geo_country : option string;
  geo_region : option string;
  geo_city : option string;
  geo_timezone : option string;
  geo_org : option string;
  geo_as : option string;
  geo_ll : option (Q * Q)
}.

Record Location := {
  country : string;
  region : string;
  city : string;
  timezone : string;
  lat : Q;
  lng : Q;
  isp : string;
  asn : option string;          (* absent in the Vercel variant *)
  mapUrl : option string
}.

Inductive Details : Type :=
| DetailsInfo (torNode : bool) (organization : string) (asn : option string)
| DetailsError (message : string)
| DetailsNone.

Record Verdict := {
  isVPN : bool;
  vpnType : string;
  confidence : Q;
  detectionMethods : list string;
  details : Details
}.

Record BrowserInfo := {
  userAgent : option string;
  language : list string + string;   (* an array of tags, or one string *)
  referer : string;
  acceptEncoding : option string
}.

Record VisitorRecord := {
  ipv4 : string;
  ipv6 : option string;
  location : Location;
  vpnInfo : Verdict;
  browserInfo : BrowserInfo;
  timestamp : Z;                     (* milliseconds since the epoch *)
  sessionId : string;
  rawHeaders : option (gmap string string);
  tag : string                       (* detectionMethod / environment *)
}.

Record Request := {
  req_ip : option string;
  req_headers : gmap string string;
  connection_remoteAddress : option string;
  socket_remoteAddress : option string;
  connection_socket_remoteAddress : option string;
  body_sessionId : option string;
  body_password : option string;
  req_query : gmap string string
}.

(** One field of a JSON object as the code inspects it: absent or falsy, a
    non-empty string, or some other truthy value. *)
Inductive Field : Type :=
| FAbsent
| FStr (s : string)
| FOther.

(** [response.data] of an IP echo service. *)
Inductive RespData : Type :=
| DataObject (ip origin : Field)
| DataString (s : string)
| DataNull.

(** Everything outside the process. *)
Record World := {
  torExitNodes : gset string;
  geoip_lookup : string -> result (option Geo);
  (** [axios.get(service)] of an echo service *)
  http_get : string -> result RespData;
  (** the GetIPIntel check of an address: the numeric [data.result], if the
      call succeeded and returned one *)
  getipintel : string -> result (option Q);
  (** [MongoClient.connect] succeeds *)
  mongo_connect_ok : bool;
  (** [insertOne] succeeds *)
  mongo_insert_ok : bool;
  (** the read queries ([find], [countDocuments], [distinct], [aggregate])
      succeed *)
  mongo_read_ok : bool;
  (** [new Date()] / [Date.now()] *)
  now : Z;
  (** local midnight of the current day *)
  today : Z;
  (** number to string, as in a template literal *)
  num_to_string : Q -> string
}.

(** The world [w] in which [MongoClient.connect] has the outcome [ok] and
    everything else is as in [w]. *)
Definition with_connect (ok : bool) (w : World) : World :=
  {| torExitNodes := torExitNodes w;
     geoip_lookup := geoip_lookup w;
     http_get := http_get w;
     getipintel := getipintel w;
     mongo_connect_ok := ok;
     mongo_insert_ok := mongo_insert_ok w;
     mongo_read_ok := mongo_read_ok w;
     now := now w;
     today := today w;
     num_to_string := num_to_string w |}.

(** What a text field of a location has to read, given the field of the
    geo record it comes from: that field when it is there and not empty,
    "Unknown" when it is missing or empty. *)
Definition reads_or_unknown (field : option string) (value : string) : Prop :=
  (forall s, field = Some s -> s <> "" -> value = s) /\
  (field = None \/ field = Some "" -> value = "Unknown").

Record Response (A : Type) := { status : nat; body : A }.
Arguments status {A} _.
Arguments body {A} _.

(** [res.json(x)] and [res.status(n).json(x)] *)
Definition json {A} (x : A) : Response A := {| status := 200; body := x |}.
Definition status_json {A} (n : nat) (x : A) : Response A :=
  {| status := n; body := x |}.

Inductive TrackBody : Type :=
| TrackSuccess (message detectedIP location : string) (vpnDetected : bool)
| TrackFailure (error : string).

(** A body that is an array, or an object holding an error message. *)
Inductive ListBody (A : Type) : Type :=
| Items (l : list A)
| ErrorBody (error : string).
Arguments Items {A} l.
Arguments ErrorBody {A} error.

Inductive LoginBody : Type :=
| LoginSuccess (token : string)
| LoginFailure (message : string).

Record Analytics := {
  totalVisitors : nat;
  todayVisitors : nat;
  uniqueCountries : nat;
  vpnUsers : nat
}.

Inductive AnalyticsBody : Type :=
| AnalyticsData (a : Analytics) (error : option string)
| AnalyticsError (error : string).

(** One row of the location statistics. *)
Record CountryStat := {
  cs_id : string;
  cs_count : nat;
  cs_cities : list string
}.

Definition mongoError : JS.error := JS.Err "MongoError" "store unavailable".

End Model.

(** ** The MongoDB operations the servers use *)

Module Mongo.
Import Model.

Section Sorting.
Context {A : Type} (le : A -> A -> bool).

Fixpoint insert_sorted (x : A) (l : list A) : list A :=
  match l with
  | [] => [x]
  | y :: l' => if le x y then x :: l else y :: insert_sorted x l'
  end.

(** [$sort] / [.sort()]: a stable sort by the order [le]. *)
Definition sort_by (l : list A) : list A :=
  fold_right insert_sorted [] l.

End Sorting.

(** [.limit(n)]: zero is "no limit", a negative limit is its absolute value
    in a single batch. *)
Definition limit {A} (n : Z) (l : list A) : list A :=
  if (n =? 0)%Z then l else firstn (Z.to_nat (Z.abs n)) l.

(** [countDocuments(filter)] *)
Definition countDocuments {A} (p : A -> bool) (l : list A) : nat :=
  List.length (List.filter p l).

(** [distinct(field)]: the different values of a field. *)
Fixpoint distinct (l : list string) : list string :=
  match l with
  | [] => []
  | x :: l' => x :: List.filter (fun y => negb (String.eqb x y)) (distinct l')
  end.

(** *** Date operators (UTC, proleptic Gregorian calendar) *)

Definition ms_per_hour : Z := 3600000.
Definition ms_per_day : Z := 86400000.

Definition civil_from_days (z : Z) : Z * Z * Z :=
  let z := (z + 719468)%Z in
  let era := (z / 146097)%Z in
  let doe := (z - era * 146097)%Z in
  let yoe := ((doe - doe / 1460 + doe / 36524 - doe / 146096) / 365)%Z in
  let y := (yoe + era * 400)%Z in
  let doy := (doe - (365 * yoe + yoe / 4 - yoe / 100))%Z in
  let mp := ((5 * doy + 2) / 153)%Z in
  let d := (doy - (153 * mp + 2) / 5 + 1)%Z in
  let m := if (mp <? 10)%Z then (mp + 3)%Z else (mp - 9)%Z in
  ((if (m <=? 2)%Z then y + 1 else y)%Z, m, d).

Definition date_year (ts : Z) : Z := fst (fst (civil_from_days (ts / ms_per_day))).
Definition date_month (ts : Z) : Z := snd (fst (civil_from_days (ts / ms_per_day))).
Definition date_dayOfMonth (ts : Z) : Z := snd (civil_from_days (ts / ms_per_day)).
Definition date_hour (ts : Z) : Z := ((ts mod ms_per_day) / ms_per_hour)%Z.

(** *** The timeline pipeline *)

(** The [_id] of a timeline bucket; [hour] is [null] for daily buckets. *)
Record BucketId := {
  b_year : Z;
  b_month : Z;
  b_day : Z;
  b_hour : option Z
}.

Definition bucket_id (hourly : bool) (ts : Z) : BucketId :=
  {| b_year := date_year ts;
     b_month := date_month ts;
     b_day := date_dayOfMonth ts;
     b_hour := if hourly then Some (date_hour ts) else None |}.

Definition opt_compare (a b : option Z) : comparison :=
  match a, b with
  | None, None => Eq
  | None, Some _ => Lt          (* null sorts before every number *)
  | Some _, None => Gt
  | Some x, Some y => (x ?= y)%Z
  end.

Definition lex (c1 c2 : comparison) : comparison :=
  match c1 with
  | Eq => c2
  | _ => c1
  end.

(** The order of [{ '_id.year': 1, '_id.month': 1, '_id.day': 1,
    '_id.hour': 1 }]. *)
Definition bucket_compare (a b : BucketId) : comparison :=
  lex (b_year a ?= b_year b)%Z
    (lex (b_month a ?= b_month b)%Z
       (lex (b_day a ?= b_day b)%Z (opt_compare (b_hour a) (b_hour b)))).


Definition bucket_eqb (a b : BucketId) : bool :=
  match bucket_compare a b with Eq => true | _ => false end.

Definition bucket_leb (a b : BucketId) : bool :=
  match bucket_compare a b with Gt => false | _ => true end.

Fixpoint bump {K} (eqb : K -> K -> bool) (k : K) (l : list (K * nat))
  : list (K * nat) :=
  match l with
  | [] => [(k, 1)]
  | (k', n) :: l' =>
      if eqb k' k then (k', S n) :: l' else (k', n) :: bump eqb k l'
  end.

(** [$group] with [count: { $sum: 1 }]: one entry per key, in the order the
    keys are first met. *)
Definition group_count {K} (eqb : K -> K -> bool) (keys : list K)
  : list (K * nat) :=
  fold_left (fun acc k => bump eqb k acc) keys [].

(** The window of a timeline filter, in milliseconds. *)
Definition window (filter : string) : Z :=
  if String.eqb filter "24h" then (24 * 60 * 60 * 1000)%Z
  else if String.eqb filter "7d" then (7 * 24 * 60 * 60 * 1000)%Z
  else if String.eqb filter "30d" then (30 * 24 * 60 * 60 * 1000)%Z
  else (24 * 60 * 60 * 1000)%Z.

(** The aggregation of the timeline endpoint: [$match], [$group], [$sort]. *)
Definition timeline_pipeline (filter : string) (now : Z) (docs : list VisitorRecord)
  : list (BucketId * nat) :=
  let dateRange := (now - window filter)%Z in
  let matched := List.filter (fun v => (dateRange <=? timestamp v)%Z) docs in
  let grouped :=
    group_count bucket_eqb
      (map (fun v => bucket_id (String.eqb filter "24h") (timestamp v)) matched) in
  sort_by (fun a b => bucket_leb (fst a) (fst b)) grouped.




(** The count stored for a key in a grouped list. *)
Fixpoint count_for {K} (eqb : K -> K -> bool) (k : K) (l : list (K * nat)) : nat :=
  match l with
  | [] => 0
  | (k', n) :: l' => if eqb k' k then n else count_for eqb k l'
  end.

Definition add_to_set (x : string) (l : list string) : list string :=
  if existsb (String.eqb x) l then l else l ++ [x].

Fixpoint bump_country (c city : string) (l : list CountryStat) : list CountryStat :=
  match l with
  | [] => [ {| cs_id := c; cs_count := 1; cs_cities := [city] |} ]
  | s :: l' =>
      if String.eqb (cs_id s) c
      then {| cs_id := cs_id s; cs_count := S (cs_count s);
              cs_cities := add_to_set city (cs_cities s) |} :: l'
      else s :: bump_country c city l'
  end.

(** The aggregation of the location statistics: [$group] by country with a
    count and the set of cities, [$sort] by count descending, [$limit] 10. *)
Definition location_pipeline (docs : list VisitorRecord) : list CountryStat :=
  let grouped :=
    fold_left (fun acc v => bump_country (country (location v)) (city (location v)) acc)
      docs [] in
  limit 10 (sort_by (fun a b => (cs_count b <=? cs_count a)%nat) grouped).

(** The row of a country in a grouped list. *)
Definition row_for (c : string) (l : list CountryStat) : option CountryStat :=
  List.find (fun s => String.eqb (cs_id s) c) l.

(** The records of a country. *)
Definition records_of (c : string) (docs : list VisitorRecord) : list VisitorRecord :=
  List.filter (fun v => String.eqb (country (location v)) c) docs.

(** What a row must say about the records seen. *)
Definition row_ok (docs : list VisitorRecord) (s : CountryStat) : Prop :=
  cs_count s = List.length (records_of (cs_id s) docs) /\
  (0 < cs_count s)%nat /\
  List.NoDup (cs_cities s) /\
  forall x, In x (cs_cities s) <->
            exists v, In v (records_of (cs_id s) docs) /\ city (location v) = x.

(** The state of the grouping after the records [seen]. *)
Definition grouped_by_country (seen : list VisitorRecord) (g : list CountryStat) : Prop :=
  List.NoDup (map cs_id g) /\
  (forall s, In s g -> row_ok seen s) /\
  (forall v, In v seen -> In (country (location v)) (map cs_id g)).

(** [find({}).sort({ timestamp: -1 }).limit(n).toArray()] *)
Definition recent_query (n : Z) (docs : list VisitorRecord) : list VisitorRecord :=
  limit n (sort_by (fun a b => (timestamp b <=? timestamp a)%Z) docs).

(** The order of the recent-visitors list. *)
Definition newer_first (a b : VisitorRecord) : Prop :=
  (timestamp b <= timestamp a)%Z.

(** The four counters of the analytics endpoint. *)
Definition analytics_query (today : Z) (docs : list VisitorRecord) : Analytics :=
  let countries := distinct (map (fun v => country (location v)) docs) in
  {| totalVisitors := countDocuments (fun _ => true) docs;
     todayVisitors := countDocuments (fun v => (today <=? timestamp v)%Z) docs;
     uniqueCountries :=
       List.length (List.filter (fun c => negb (String.eqb c "Unknown")) countries);
     vpnUsers := countDocuments (fun v => isVPN (vpnInfo v)) docs |}.

End Mongo.

Declare Scope js_scope.
Notation "'let*' x ':=' m 'in' k" := (JS.bind m (fun x => k))
  (at level 10, x name, m at level 100, k at level 200) : js_scope.

(** ** The Express server (src/unnamed/part_000) *)

Module Server.
Import JS Regex Model Mongo.
Open Scope js_scope.

(** The module-level variables [db] and [cachedClient] (set or not) and
    the contents of the [visitors] collection. *)
Record State := {
  db : bool;
  cachedClient : bool;
  visitors : list VisitorRecord
}.

Definition connectToDatabase (w : World) (st : State) : State :=
  if cachedClient st && db st then st
  else if mongo_connect_ok w
       then {| db := true; cachedClient := true; visitors := visitors st |}
       else st.

(** [/^(\d{1,3}\.){3}\d{1,3}$/] *)
Definition ipv4Regex : pattern :=
  Anchored (Cat (rep 3 (Cat (rng 1 3 (Chr is_digit)) (chr ".")))
                (rng 1 3 (Chr is_digit))).

(** [/^([0-9a-fA-F]{1,4}:){7}[0-9a-fA-F]{1,4}$/] *)
Definition ipv6Regex : pattern :=
  Anchored (Cat (rep 7 (Cat (rng 1 4 (Chr is_hex)) (chr ":")))
                (rng 1 4 (Chr is_hex))).

Definition privateRanges : list pattern :=
  [ Prefixed (lit "127.");                      (* /^127\./ *)
    Prefixed (lit "10.");                       (* /^10\./ *)
    Prefixed (Cat (lit "172.")                  (* /^172\.(1[6-9]|2[0-9]|3[21])\./ *)
               (Cat (Alt (Cat (chr "1") (Chr (in_range "6" "9")))
                      (Alt (Cat (chr "2") (Chr (in_range "0" "9")))
                           (Cat (chr "3") (Chr (one_of "21")))))
                    (chr ".")));
    Prefixed (lit "192.168.");                  (* /^192\.168\./ *)
    Prefixed (lit "169.254.");                  (* /^169\.254\./ *)
    Anchored (lit "::1");                       (* /^::1$/ *)
    Prefixed (lit "fe80:");                     (* /^fe80:/ *)
    Prefixed (lit "fc00:");                     (* /^fc00:/ *)
    Prefixed (lit "fd00:") ].                   (* /^fd00:/ *)

Definition isValidPublicIP (ip : string) : bool :=
  if String.eqb ip "" then false
  else
    let cleanIP := strip_prefix "::ffff:" ip in
    if negb (test ipv4Regex cleanIP) && negb (test ipv6Regex cleanIP) then false
    else negb (existsb (fun range => test range cleanIP) privateRanges).

Definition proxyHeaders : list string :=
  [ "cf-connecting-ip"; "cf-pseudo-ipv4"; "x-forwarded-for"; "x-real-ip";
    "x-client-ip"; "x-forwarded"; "x-cluster-client-ip"; "forwarded-for";
    "forwarded"; "true-client-ip"; "x-original-forwarded-for";
    "x-appengine-remote-addr"; "x-azure-clientip"; "x-azure-socketip" ].

(** Method 1: [req.ip], unless it is absent or a loopback literal. *)
Definition method1 (req : Request) : option string :=
  match truthy (req_ip req) with
  | Some ip =>
      if negb (String.eqb ip "::1") && negb (String.eqb ip "127.0.0.1")
         && negb (startsWith "::ffff:127.0.0.1" ip)
      then Some (strip_prefix "::ffff:" ip)
      else None
  | None => None
  end.

(** Method 2: the loop over the proxy headers. *)
Fixpoint scan_headers (hdrs : gmap string string) (names : list string)
  : result (option string) :=
  match names with
  | [] => Ok None
  | header :: rest =>
      match truthy (hdrs !! header) with
      | Some value =>
          let* ip := array_trim (split "," value) in
          if isValidPublicIP ip then Ok (Some ip) else scan_headers hdrs rest
      | None => scan_headers hdrs rest
      end
  end.

(** Method 3: the connection and socket addresses. *)
Fixpoint scan_connections (ips : list (option string)) : option string :=
  match ips with
  | [] => None
  | v :: rest =>
      match truthy v with
      | Some ip =>
          if isValidPublicIP ip then Some (strip_prefix "::ffff:" ip)
          else scan_connections rest
      | None => scan_connections rest
      end
  end.

Definition getRealIP (req : Request) : result string :=
  match method1 req with
  | Some ip => Ok ip
  | None =>
      let* found := scan_headers (req_headers req) proxyHeaders in
      match found with
      | Some ip => Ok ip
      | None =>
          match scan_connections [ connection_remoteAddress req;
                                   socket_remoteAddress req;
                                   connection_socket_remoteAddress req ] with
          | Some ip => Ok ip
          | None => Ok "unknown"
          end
      end
  end.

Definition services : list string :=
  [ "https://api.ipify.org?format=json"; "https://httpbin.org/ip";
    "https://api.my-ip.io/ip.json"; "https://ipapi.co/json/";
    "https://ip.seeip.org/jsonip" ].

(** The address an echo service answered, as the chain of [if]s reads it;
    reading a field of a [null] body raises. *)
Definition extract_ip (data : RespData) : result Field :=
  match data with
  | DataNull => Throw (TypeError "Cannot read properties of null")
  | DataObject ip origin =>
      Ok (match ip with
          | FAbsent => origin
          | _ => ip
          end)
  | DataString s => Ok (match truthy (Some (trim s)) with
                        | Some t => FStr t
                        | None => FAbsent
                        end)
  end.

Fixpoint try_services (w : World) (urls : list string) : option string :=
  match urls with
  | [] => None
  | service :: rest =>
      match (let* data := http_get w service in extract_ip data) with
      | Ok (FStr ip) =>
          if isValidPublicIP ip then Some ip else try_services w rest
      | Ok _ => try_services w rest
      | Throw _ => try_services w rest
      end
  end.

Definition getExternalIPInfo (w : World) (req : Request) : option string :=
  try_services w services.

Definition vpnIndicators : list string :=
  [ "amazon"; "google"; "microsoft"; "digitalocean"; "vultr"; "linode"; "ovh";
    "hetzner"; "vpn"; "proxy"; "hosting"; "server"; "datacenter"; "cloud";
    "virtual"; "dedicated" ].

(** The four local variables the classifier updates. *)
Record Acc := {
  a_isVPN : bool;
  a_vpnType : string;
  a_confidence : Q;
  a_methods : list string
}.

Definition acc0 : Acc :=
  {| a_isVPN := false; a_vpnType := "none"; a_confidence := 0%Q; a_methods := [] |}.

(** Method 1: the Tor exit list. *)
Definition check_tor (w : World) (ip : string) (a : Acc) : Acc :=
  if bool_decide (ip ∈ torExitNodes w)
  then {| a_isVPN := true; a_vpnType := "tor"; a_confidence := (95 # 100)%Q;
          a_methods := a_methods a ++ ["tor_exit_node"] |}
  else a.

(** Method 2: keywords in the organisation name. *)
Definition check_isp (indicators : list string) (geo : option Geo) (a : Acc) : Acc :=
  match geo with
  | Some g =>
      match truthy (geo_org g) with
      | Some o =>
          let org := toLowerCase o in
          match array_find (fun indicator => includes indicator org) indicators with
          | Some foundIndicator =>
              {| a_isVPN := true;
                 a_vpnType := if includes "vpn" foundIndicator then "vpn"
                              else "hosting/proxy";
                 a_confidence := Math_max (a_confidence a) (7 # 10)%Q;
                 a_methods := a_methods a ++ ["isp_analysis"] |}
          | None => a
          end
      | None => a
      end
  | None => a
  end.

(** Method 3: the reputation score; a failed call is ignored. *)
Definition check_getipintel (w : World) (ip : string) (a : Acc) : Acc :=
  match getipintel w ip with
  | Ok (Some score) =>
      if num_gt score (5 # 10)%Q
      then {| a_isVPN := true;
              a_vpnType := if num_gt score (8 # 10)%Q then "vpn" else "proxy";
              a_confidence := Math_max (a_confidence a) score;
              a_methods := a_methods a ++ ["getipintel"] |}
      else a
  | Ok None => a
  | Throw _ => a
  end.

(** Whether methods 2 and 3 fire. *)
Definition isp_flagged (indicators : list string) (geo : option Geo) : bool :=
  match geo with
  | Some g =>
      match truthy (geo_org g) with
      | Some o => existsb (fun indicator => includes indicator (toLowerCase o)) indicators
      | None => false
      end
  | None => false
  end.

Definition score_flagged (w : World) (ip : string) : bool :=
  match getipintel w ip with
  | Ok (Some score) => num_gt score (5 # 10)%Q
  | _ => false
  end.

(** The four locals as a verdict reads them: either nothing fired, or
    something did and the confidence is above one half. *)
Definition silent (a : Acc) : Prop :=
  a_isVPN a = false /\ a_methods a = [] /\
  a_vpnType a = "none" /\ a_confidence a = 0%Q.

Definition fired (a : Acc) : Prop :=
  a_isVPN a = true /\ a_methods a <> [] /\
  ((5 # 10) < a_confidence a)%Q.

Definition geo_field (geo : option Geo) (f : Geo -> option string) : option string :=
  match geo with
  | Some g => f g
  | None => None
  end.

(** The body of the outer [try]. *)
Definition detectVPNProxy_try (w : World) (ip : string) : result Verdict :=
  let a1 := check_tor w ip acc0 in
  let* geo := geoip_lookup w ip in
  let a2 := check_isp vpnIndicators geo a1 in
  let a3 := check_getipintel w ip a2 in
  Ok {| isVPN := a_isVPN a3;
        vpnType := a_vpnType a3;
        confidence := Math_min (a_confidence a3) 1%Q;
        detectionMethods := a_methods a3;
        details := DetailsInfo (bool_decide (ip ∈ torExitNodes w))
                     (or_default (geo_field geo geo_org) "Unknown")
                     (Some (or_default (geo_field geo geo_as) "Unknown")) |}.

Definition detectVPNProxy (w : World) (ip : string) : Verdict :=
  try_catch (detectVPNProxy_try w ip)
    (fun error =>
       {| isVPN := false; vpnType := "unknown"; confidence := 0%Q;
          detectionMethods := ["error"];
          details := DetailsError (err_message error) |}).

Definition unknownLocation : Location :=
  {| country := "Unknown"; region := "Unknown"; city := "Unknown";
     timezone := "Unknown"; lat := 0%Q; lng := 0%Q; isp := "Unknown";
     asn := Some "Unknown"; mapUrl := None |}.

Definition getLocationInfo (w : World) (ip : string) : result Location :=
  let* geo := geoip_lookup w ip in
  match geo with
  | None => Ok unknownLocation
  | Some g =>
      let lat := match geo_ll g with
                 | Some (a, _) => if num_truthy a then a else 0%Q
                 | None => 0%Q
                 end in
      let lng := match geo_ll g with
                 | Some (_, b) => if num_truthy b then b else 0%Q
                 | None => 0%Q
                 end in
      let mapUrl :=
        if num_truthy lat && num_truthy lng
        then Some ("https://www.google.com/maps?q=" +:+ num_to_string w lat
                   +:+ "," +:+ num_to_string w lng)
        else None in
      Ok {| country := or_default (geo_country g) "Unknown";
            region := or_default (geo_region g) "Unknown";
            city := or_default (geo_city g) "Unknown";
            timezone := or_default (geo_timezone g) "Unknown";
            lat := lat; lng := lng;
            isp := or_default (geo_org g) "Unknown";
            asn := Some (or_default (geo_as g) "Unknown");
            mapUrl := mapUrl |}
  end.

(** [forwarded.split(',').find(ip => ip.includes(':'))?.trim() || null] *)
Definition first_ipv6 (forwarded : string) : option string :=
  match array_find (fun ip => includes ":" ip) (split "," forwarded) with
  | Some ip => truthy (Some (trim ip))
  | None => None
  end.

(** The address the tracking handler settles on: what [getRealIP] found,
    or the answer of the echo services when that is no public address. *)
Definition detect_ip (w : World) (req : Request) (ip0 : string) : string :=
  if String.eqb ip0 "" || String.eqb ip0 "unknown" || negb (isValidPublicIP ip0)
  then match getExternalIPInfo w req with
       | Some externalIP => externalIP
       | None => "unknown"
       end
  else ip0.

(** The body of the [try] of the tracking handler, from the state left by
    [connectToDatabase]. *)
Definition track_visitor_try (w : World) (req : Request) (st1 : State)
  : result (Response TrackBody * State) :=
  let* ip0 := getRealIP req in
  let ipv4 := detect_ip w req ip0 in
  let hdrs := req_headers req in
  let forwarded := or_default (hdrs !! "x-forwarded-for") "" in
  let* location := getLocationInfo w ipv4 in
  let vpnInfo := detectVPNProxy w ipv4 in
  let visitorData :=
    {| ipv4 := ipv4;
       ipv6 := first_ipv6 forwarded;
       location := location;
       vpnInfo := vpnInfo;
       browserInfo :=
         {| userAgent := hdrs !! "user-agent";
            language := match hdrs !! "accept-language" with
                        | Some v => inl (split "," v)
                        | None => inr "Unknown"
                        end;
            referer := or_default (hdrs !! "referer") "Direct";
            acceptEncoding := Some (or_default (hdrs !! "accept-encoding") "Unknown") |};
       timestamp := now w;
       sessionId := or_default (body_sessionId req) (decZ (now w));
       rawHeaders := Some hdrs;
       tag := "enhanced" |} in
  let* st2 :=
    if db st1
    then if mongo_insert_ok w
         then Ok {| db := db st1; cachedClient := cachedClient st1;
                    visitors := visitors st1 ++ [visitorData] |}
         else Throw mongoError
    else Ok st1 in
  Ok (json (TrackSuccess "Visitor tracked successfully" ipv4
              (city location +:+ ", " +:+ country location) (isVPN vpnInfo)),
      st2).

(** [app.post('/api/track-visitor')] *)
Definition track_visitor (w : World) (req : Request) (st : State)
  : Response TrackBody * State :=
  let st1 := connectToDatabase w st in
  try_catch (track_visitor_try w req st1)
    (fun _ => (status_json 500 (TrackFailure "Failed to track visitor"), st1)).

Record DebugInfo := {
  dbg_detectedIP : string;
  dbg_externalIP : option string;
  dbg_expressIP : option string;
  dbg_location : Location;
  dbg_vpnInfo : Verdict;
  dbg_isValidPublicIP : bool
}.

(** [app.get('/api/debug/ip')]: no [try] around the body, an exception
    escapes the handler. *)
Definition debug_ip (w : World) (req : Request) : result (Response DebugInfo) :=
  let* ipv4 := getRealIP req in
  let externalIP := getExternalIPInfo w req in
  let* location := getLocationInfo w ipv4 in
  let vpnInfo := detectVPNProxy w ipv4 in
  Ok (json {| dbg_detectedIP := ipv4;
              dbg_externalIP := externalIP;
              dbg_expressIP := req_ip req;
              dbg_location := location;
              dbg_vpnInfo := vpnInfo;
              dbg_isValidPublicIP := isValidPublicIP ipv4 |}).

Definition ADMIN_PASSWORD : string := "AQGM@8433".

(** [app.post('/api/admin/login')] *)
Definition admin_login (req : Request) : Response LoginBody :=
  match body_password req with
  | Some password =>
      if String.eqb password ADMIN_PASSWORD
      then json (LoginSuccess "admin-authenticated")
      else status_json 401 (LoginFailure "Invalid password")
  | None => status_json 401 (LoginFailure "Invalid password")
  end.

(** [app.get('/api/admin/analytics')] *)
Definition admin_analytics (w : World) (st : State)
  : Response AnalyticsBody * State :=
  let st1 := connectToDatabase w st in
  if negb (db st1)
  then (json (AnalyticsData
                {| totalVisitors := 0; todayVisitors := 0;
                   uniqueCountries := 0; vpnUsers := 0 |}
                (Some "Database not available")), st1)
  else if mongo_read_ok w
       then (json (AnalyticsData (analytics_query (today w) (visitors st1)) None), st1)
       else (status_json 500 (AnalyticsError "Failed to fetch analytics"), st1).

(** [app.get('/api/admin/recent-visitors')] *)
Definition admin_recent_visitors (w : World) (req : Request) (st : State)
  : Response (ListBody VisitorRecord) * State :=
  let st1 := connectToDatabase w st in
  if negb (db st1) then (json (Items []), st1)
  else
    let limit := num_or_default (parseInt_value (req_query req !! "limit")) 50 in
    if mongo_read_ok w
    then (json (Items (recent_query limit (visitors st1))), st1)
    else (status_json 500 (ErrorBody "Failed to fetch recent visitors"), st1).

(** [app.get('/api/admin/location-stats')] *)
Definition admin_location_stats (w : World) (st : State)
  : Response (ListBody CountryStat) * State :=
  let st1 := connectToDatabase w st in
  if negb (db st1) then (json (Items []), st1)
  else if mongo_read_ok w
       then (json (Items (location_pipeline (visitors st1))), st1)
       else (status_json 500 (ErrorBody "Failed to fetch location stats"), st1).

(** [app.get('/api/admin/timeline')] *)
Definition admin_timeline (w : World) (req : Request) (st : State)
  : Response (ListBody (BucketId * nat)) * State :=
  let st1 := connectToDatabase w st in
  if negb (db st1) then (json (Items []), st1)
  else
    let filter := or_default (req_query req !! "filter") "24h" in
    if mongo_read_ok w
    then (json (Items (timeline_pipeline filter (now w) (visitors st1))), st1)
    else (status_json 500 (ErrorBody "Failed to fetch timeline data"), st1).

(** The [database] field of [app.get('/api/health')]. *)
Definition health_database (st : State) : string :=
  if db st then "connected" else "disconnected".

End Server.

(** ** The Vercel variant (src/unnamed/part_001) *)

Module Vercel.
Import JS Regex Model Mongo.
Open Scope js_scope.

(** The module-level variables [db] and [isConnected] and the contents of
    the [visitors] collection. *)
Record State := {
  db : bool;
  isConnected : bool;
  visitors : list VisitorRecord
}.

(** Unlike the Express server, a failed connection is re-thrown. *)
Definition connectToDatabase (w : World) (st : State) : result unit * State :=
  if isConnected st && db st then (Ok tt, st)
  else if mongo_connect_ok w
       then (Ok tt, {| db := true; isConnected := true; visitors := visitors st |})
       else (Throw mongoError,
             {| db := db st; isConnected := false; visitors := visitors st |}).

Definition vercelHeaders : list string :=
  [ "x-forwarded-for"; "x-real-ip"; "cf-connecting-ip"; "x-vercel-forwarded-for" ].

(** [/^(\d{1,3}\.){3}\d{1,3}$/] *)
Definition ipv4Regex : pattern :=
  Anchored (Cat (rep 3 (Cat (rng 1 3 (Chr is_digit)) (chr ".")))
                (rng 1 3 (Chr is_digit))).

Definition privateRanges : list pattern :=
  [ Prefixed (lit "127.");
    Prefixed (lit "10.");
    Prefixed (Cat (lit "172.")                  (* /^172\.(1[6-9]|2[0-9]|3[01])\./ *)
               (Cat (Alt (Cat (chr "1") (Chr (in_range "6" "9")))
                      (Alt (Cat (chr "2") (Chr (in_range "0" "9")))
                           (Cat (chr "3") (Chr (one_of "01")))))
                    (chr ".")));
    Prefixed (lit "192.168.");
    Prefixed (lit "169.254.");
    Anchored (lit "::1");
    Prefixed (lit "fe80:");
    Prefixed (lit "fc00:");
    Prefixed (lit "fd00:") ].

Definition isValidPublicIP (ip : string) : bool :=
  if String.eqb ip "" then false
  else
    let cleanIP := strip_prefix "::ffff:" ip in
    if negb (test ipv4Regex cleanIP) then false
    else negb (existsb (fun range => test range cleanIP) privateRanges).

(** The loop over the forwarding headers: the first comma-separated token of
    each present header, trimmed. *)
Fixpoint scan_headers (hdrs : gmap string string) (names : list string)
  : option string :=
  match names with
  | [] => None
  | header :: rest =>
      match truthy (hdrs !! header) with
      | Some value =>
          let ip := trim (hd EmptyString (split "," value)) in
          if isValidPublicIP ip then Some ip else scan_headers hdrs rest
      | None => scan_headers hdrs rest
      end
  end.

Definition getRealIP (req : Request) : string :=
  match scan_headers (req_headers req) vercelHeaders with
  | Some ip => ip
  | None =>
      match truthy (req_ip req) with
      | Some ip =>
          if isValidPublicIP ip then strip_prefix "::ffff:" ip else "unknown"
      | None => "unknown"
      end
  end.

Definition vpnIndicators : list string :=
  [ "amazon"; "google"; "microsoft"; "digitalocean"; "vultr"; "linode"; "ovh";
    "hetzner"; "vpn"; "proxy"; "hosting" ].

Definition detectVPNProxy_try (w : World) (ip : string) : result Verdict :=
  let a1 := Server.check_tor w ip Server.acc0 in
  let* geo := geoip_lookup w ip in
  let a2 := Server.check_isp vpnIndicators geo a1 in
  Ok {| isVPN := Server.a_isVPN a2;
        vpnType := Server.a_vpnType a2;
        confidence := Math_min (Server.a_confidence a2) 1%Q;
        detectionMethods := Server.a_methods a2;
        details := DetailsInfo (bool_decide (ip ∈ torExitNodes w))
                     (or_default (Server.geo_field geo geo_org) "Unknown") None |}.

Definition detectVPNProxy (w : World) (ip : string) : Verdict :=
  try_catch (detectVPNProxy_try w ip)
    (fun _ =>
       {| isVPN := false; vpnType := "unknown"; confidence := 0%Q;
          detectionMethods := ["error"]; details := DetailsNone |}).

Definition unknownLocation : Location :=
  {| country := "Unknown"; region := "Unknown"; city := "Unknown";
     timezone := "Unknown"; lat := 0%Q; lng := 0%Q; isp := "Unknown";
     asn := None; mapUrl := None |}.

Definition getLocationInfo (w : World) (ip : string) : result Location :=
  let* geo := geoip_lookup w ip in
  match geo with
  | None => Ok unknownLocation
  | Some g =>
      Ok {| country := or_default (geo_country g) "Unknown";
            region := or_default (geo_region g) "Unknown";
            city := or_default (geo_city g) "Unknown";
            timezone := or_default (geo_timezone g) "Unknown";
            lat := match geo_ll g with Some (a, _) => a | None => 0%Q end;
            lng := match geo_ll g with Some (_, b) => b | None => 0%Q end;
            isp := or_default (geo_org g) "Unknown";
            asn := None;
            mapUrl := None |}
  end.

(** The body of the [try] of the tracking handler once the connection
    is there. *)
Definition track_visitor_try (w : World) (req : Request) (st1 : State)
  : result (Response TrackBody * State) :=
  let ipv4 := getRealIP req in
  let hdrs := req_headers req in
  let* location := getLocationInfo w ipv4 in
  let vpnInfo := detectVPNProxy w ipv4 in
  let visitorData :=
    {| ipv4 := ipv4;
       ipv6 := None;
       location := location;
       vpnInfo := vpnInfo;
       browserInfo :=
         {| userAgent := hdrs !! "user-agent";
            language :=
              inr (match hdrs !! "accept-language" with
                   | Some v => or_default (Some (hd EmptyString (split "," v))) "Unknown"
                   | None => "Unknown"
                   end);
            referer := or_default (hdrs !! "referer") "Direct";
            acceptEncoding := None |};
       timestamp := now w;
       sessionId := or_default (body_sessionId req) (decZ (now w));
       rawHeaders := None;
       tag := "production" |} in
  let* st2 :=
    if mongo_insert_ok w
    then Ok {| db := db st1; isConnected := isConnected st1;
               visitors := visitors st1 ++ [visitorData] |}
    else Throw mongoError in
  Ok (json (TrackSuccess "Visitor tracked successfully" ipv4
              (city location +:+ ", " +:+ country location) (isVPN vpnInfo)),
      st2).

(** [app.post('/api/track-visitor')] *)
Definition track_visitor (w : World) (req : Request) (st : State)
  : Response TrackBody * State :=
  let '(connected, st1) := connectToDatabase w st in
  try_catch (let* _ := connected in track_visitor_try w req st1)
    (fun _ => (status_json 500 (TrackFailure "Failed to track visitor"), st1)).

(** [app.post('/api/admin/login')]; [env] is [process.env.ADMIN_PASSWORD]. *)
Definition admin_login (env : option string) (req : Request) : Response LoginBody :=
  let ADMIN_PASSWORD := or_default env "AQGM@8433" in
  match body_password req with
  | Some password =>
      if String.eqb password ADMIN_PASSWORD
      then json (LoginSuccess "admin-authenticated")
      else status_json 401 (LoginFailure "Invalid password")
  | None => status_json 401 (LoginFailure "Invalid password")
  end.

(** [app.get('/api/admin/analytics')] *)
Definition admin_analytics (w : World) (st : State)
  : Response AnalyticsBody * State :=
  let '(connected, st1) := connectToDatabase w st in
  match connected with
  | Ok _ =>
      if mongo_read_ok w
      then (json (AnalyticsData (analytics_query (today w) (visitors st1)) None), st1)
      else (status_json 500 (AnalyticsError "Failed to fetch analytics"), st1)
  | Throw _ => (status_json 500 (AnalyticsError "Failed to fetch analytics"), st1)
  end.

(** [app.get('/api/admin/recent-visitors')] *)
Definition admin_recent_visitors (w : World) (req : Request) (st : State)
  : Response (ListBody VisitorRecord) * State :=
  let '(connected, st1) := connectToDatabase w st in
  match connected with
  | Ok _ =>
      let limit := num_or_default (parseInt_value (req_query req !! "limit")) 50 in
      if mongo_read_ok w
      then (json (Items (recent_query limit (visitors st1))), st1)
      else (status_json 500 (Items []), st1)
  | Throw _ => (status_json 500 (Items []), st1)
  end.

(** [app.get('/api/admin/location-stats')] *)
Definition admin_location_stats (w : World) (st : State)
  : Response (ListBody CountryStat) * State :=
  let '(connected, st1) := connectToDatabase w st in
  match connected with
  | Ok _ =>
      if mongo_read_ok w
      then (json (Items (location_pipeline (visitors st1))), st1)
      else (status_json 500 (Items []), st1)
  | Throw _ => (status_json 500 (Items []), st1)
  end.

(** [app.get('/api/admin/timeline')] *)
Definition admin_timeline (w : World) (req : Request) (st : State)
  : Response (ListBody (BucketId * nat)) * State :=
  let '(connected, st1) := connectToDatabase w st in
  match connected with
  | Ok _ =>
      let filter := or_default (req_query req !! "filter") "24h" in
      if mongo_read_ok w
      then (json (Items (timeline_pipeline filter (now w) (visitors st1))), st1)
      else (status_json 500 (Items []), st1)
  | Throw _ => (status_json 500 (Items []), st1)
  end.

End Vercel.

(** ** The cleanup utility (src/cleandb.js) *)

Module CleanDb.
Import JS.

(** The database: its collections with their document counts. *)
Definition Store : Type := list (string * nat).

(** How the MongoDB calls of one run turn out. *)
Record World := {
  cw_connect : result unit;
  (** the n-th [listCollections] (0 enumerates, 1 verifies) *)
  cw_list : nat -> result unit;
  cw_count : string -> result unit;
  (** [drop()] of a collection: dropped, refused, or an error *)
  cw_drop : string -> result bool;
  cw_close : result unit
}.

(** The lines the tool prints. *)
Inductive Msg : Type :=
| MsgBanner | MsgConnecting | MsgConnected | MsgFetching | MsgNoCollections
| MsgFound (n : nat) | MsgCollection (name : string) | MsgStarting
| MsgDocuments (name : string) (n : nat)
| MsgDropped (name : string) (n : nat)
| MsgDropFailed (name : string)
| MsgAlreadyCleaned (name : string)
| MsgDropError (name message : string)
| MsgSummary (dropped removed : nat)
| MsgVerifying | MsgVerified | MsgRemaining (n : nat)
| MsgFailed (message : string)
| MsgTroubleshootAuth | MsgTroubleshootNetwork
| MsgClosed | MsgCompleted
| MsgWarning.

(** What a run does, in order. *)
Inductive Event : Type :=
| Log (m : Msg)
| NewClient
| Connect
| ListCollections
| CountDocuments (name : string)
| Drop (name : string)
| Close
| Exit (code : nat).

Inductive Outcome : Type :=
| Completed
| Exited (code : nat)
| Rejected (e : error).

Record Run := {
  trace : list Event;
  store : Store;
  outcome : Outcome
}.

Definition remove_collection (name : string) (st : Store) : Store :=
  List.filter (fun c => negb (String.eqb (fst c) name)) st.

Definition doc_count (name : string) (st : Store) : nat :=
  match List.find (fun c => String.eqb (fst c) name) st with
  | Some c => snd c
  | None => 0
  end.

(** The [catch] inside the loop. *)
Definition drop_error (name : string) (e : error) : Event :=
  if includes "ns not found" (err_message e)
  then Log (MsgAlreadyCleaned name)
  else Log (MsgDropError name (err_message e)).

(** The loop state: the trace, the store, [totalDropped] and
    [totalDocumentsRemoved]. *)
Definition LoopState : Type := list Event * Store * nat * nat.

(** One turn of the loop over the collections. *)
Definition drop_one (w : World) (acc : LoopState) (name : string) : LoopState :=
  let '(tr, st, totalDropped, totalDocumentsRemoved) := acc in
  match cw_count w name with
  | Throw e => (tr ++ [CountDocuments name; drop_error name e], st,
                totalDropped, totalDocumentsRemoved)
  | Ok _ =>
      let docCount := doc_count name st in
      let tr1 := tr ++ [CountDocuments name; Log (MsgDocuments name docCount); Drop name] in
      match cw_drop w name with
      | Throw e => (tr1 ++ [drop_error name e], st, totalDropped, totalDocumentsRemoved)
      | Ok true => (tr1 ++ [Log (MsgDropped name docCount)], remove_collection name st,
                    S totalDropped, totalDocumentsRemoved + docCount)
      | Ok false => (tr1 ++ [Log (MsgDropFailed name)], st,
                     totalDropped, totalDocumentsRemoved)
      end
  end.

(** The outer [catch]: it ends the process, so [finally] never runs. *)
Definition failed (tr : list Event) (st : Store) (e : error) : Run :=
  let advice :=
    if includes "authentication failed" (err_message e) then [Log MsgTroubleshootAuth]
    else if includes "ENOTFOUND" (err_message e) then [Log MsgTroubleshootNetwork]
    else [] in
  {| trace := tr ++ [Log (MsgFailed (err_message e))] ++ advice ++ [Exit 1];
     store := st;
     outcome := Exited 1 |}.

(** The [finally] block; [client] is assigned before the [try] can leave. *)
Definition finally (w : World) (tr : list Event) (st : Store) : Run :=
  match cw_close w with
  | Ok _ => {| trace := tr ++ [Close; Log MsgClosed; Log MsgCompleted];
               store := st; outcome := Completed |}
  | Throw e => {| trace := tr ++ [Close]; store := st; outcome := Rejected e |}
  end.

Definition cleanDatabase (w : World) (st : Store) : Run :=
  let tr0 := [Log MsgBanner; Log MsgConnecting; NewClient; Connect] in
  match cw_connect w with
  | Throw e => failed tr0 st e
  | Ok _ =>
      let tr1 := tr0 ++ [Log MsgConnected; Log MsgFetching; ListCollections] in
      match cw_list w 0 with
      | Throw e => failed tr1 st e
      | Ok _ =>
          let collections := map fst st in
          if (List.length collections =? 0)%nat
          then finally w (tr1 ++ [Log MsgNoCollections]) st
          else
            let tr2 := tr1 ++ [Log (MsgFound (List.length collections))]
                           ++ map (fun n => Log (MsgCollection n)) collections
                           ++ [Log MsgStarting] in
            let '(tr3, st3, totalDropped, totalDocumentsRemoved) :=
              fold_left (drop_one w) collections (tr2, st, 0, 0) in
            let tr4 := tr3 ++ [Log (MsgSummary totalDropped totalDocumentsRemoved);
                               Log MsgVerifying; ListCollections] in
            match cw_list w 1 with
            | Throw e => failed tr4 st3 e
            | Ok _ =>
                let remaining := map fst st3 in
                if (List.length remaining =? 0)%nat
                then finally w (tr4 ++ [Log MsgVerified]) st3
                else finally w (tr4 ++ [Log (MsgRemaining (List.length remaining))]
                                    ++ map (fun n => Log (MsgCollection n)) remaining) st3
            end
      end
  end.

(** The command line: [process.argv.includes('--confirm')]. *)
Definition main (argv : list string) (w : World) (st : Store) : Run :=
  if array_includes "--confirm" argv
  then cleanDatabase w st
  else {| trace := [Log MsgWarning]; store := st; outcome := Completed |}.

Definition is_log (e : Event) : bool :=
  match e with
  | Log _ => true
  | _ => false
  end.

Definition is_drop (e : Event) : bool :=
  match e with
  | Drop _ => true
  | _ => false
  end.

(** Events after the connection is open. *)
Definition touches_database (e : Event) : bool :=
  match e with
  | ListCollections | CountDocuments _ | Drop _ | Close => true
  | _ => false
  end.

(** The server does what it is asked. *)
Definition obliging (w : World) : Prop :=
  cw_connect w = Ok tt /\ (forall n, cw_list w n = Ok tt) /\
  (forall name, cw_count w name = Ok tt) /\
  (forall name, cw_drop w name = Ok true) /\ cw_close w = Ok tt.

(** The store held by the loop state. *)
Definition loop_store (x : LoopState) : Store := snd (fst (fst x)).

End CleanDb.

(** ** Addresses in the notation the validators read *)

Module Addr.
Import JS.

(** The dotted quad [a.b.c.d]. *)
Definition quad (a b c d : nat) : string :=
  dec a +:+ "." +:+ dec b +:+ "." +:+ dec c +:+ "." +:+ dec d.

(** The start [a.b.] of a dotted quad. *)
Definition quad_head (a b : nat) : string := dec a +:+ "." +:+ dec b +:+ ".".

(** 10.0.0.0/8, 127.0.0.0/8, 172.16.0.0/12, 192.168.0.0/16 and
    169.254.0.0/16, by the first two octets. *)
Definition private_v4 (a b : nat) : bool :=
  (a =? 10)%nat || (a =? 127)%nat
  || ((a =? 172)%nat && (16 <=? b)%nat && (b <=? 31)%nat)
  || ((a =? 192)%nat && (b =? 168)%nat)
  || ((a =? 169)%nat && (b =? 254)%nat).

(** What the Express server takes for private: in 172.x it covers
    172.16 to 172.29, 172.31 and 172.32. *)
Definition private_v4_server (a b : nat) : bool :=
  (a =? 10)%nat || (a =? 127)%nat
  || ((a =? 172)%nat
      && (((16 <=? b)%nat && (b <=? 29)%nat) || (b =? 31)%nat || (b =? 32)%nat))
  || ((a =? 192)%nat && (b =? 168)%nat)
  || ((a =? 169)%nat && (b =? 254)%nat).

(** Eight groups joined by colons. *)
Definition groups (gs : list string) : string := String.concat ":" gs.

(** A group of one to four hexadecimal digits. *)
Definition hex_group (g : string) : bool :=
  let l := list_ascii_of_string g in
  (1 <=? List.length l)%nat && (List.length l <=? 4)%nat && forallb Regex.is_hex l.

(** The outcome of a list of patterns tried in turn, when the start of the
    string settles each of them. *)
Fixpoint settled_any (ps : list Regex.pattern) (x : string) : option bool :=
  match ps with
  | [] => Some false
  | p :: ps' =>
      match Regex.settled p x, settled_any ps' x with
      | Some b, Some b' => Some (b || b')
      | _, _ => None
      end
  end.

(** The start [a.] of a dotted quad. *)
Definition quad_start (a : nat) : string := dec a +:+ ".".

(** The start [a.b.] settles all the patterns, with the outcome [f a b]. *)
Definition settles_to (ps : list Regex.pattern) (f : nat -> nat -> bool) (a b : nat)
  : bool :=
  match settled_any ps (quad_head a b) with
  | Some r => Bool.eqb r (f a b)
  | None => false
  end.

(** For a first octet [a]: either [a.] alone settles all the patterns, with
    an outcome that agrees with [f a b] for every second octet, or [a.b.]
    does for every second octet. *)
Definition ranges_check (ps : list Regex.pattern) (f : nat -> nat -> bool) (a : nat)
  : bool :=
  match settled_any ps (quad_start a) with
  | Some r => forallb (fun b => Bool.eqb r (f a b)) (seq 0 256)
  | None => forallb (fun b => settles_to ps f a b) (seq 0 256)
  end.

End Addr.

(** ** Sample requests and worlds *)

Module Samples.
Import JS Model.

(** A request with the given [req.ip] and headers and nothing else. *)
Definition request (ip : option string) (hdrs : gmap string string) : Request :=
  {| req_ip := ip; req_headers := hdrs;
     connection_remoteAddress := None; socket_remoteAddress := None;
     connection_socket_remoteAddress := None;
     body_sessionId := None; body_password := None; req_query := ∅ |}.

Definition forwarded_for (v : string) : gmap string string :=
  {[ "x-forwarded-for" := v ]}.

(** A world in which the store is down, nothing is found and no service
    answers. *)
Definition offline (tor : gset string) (lookup : string -> result (option Geo)) : World :=
  {| torExitNodes := tor;
     geoip_lookup := lookup;
     http_get := fun _ => Throw (Err "Error" "timeout");
     getipintel := fun _ => Throw (Err "Error" "timeout");
     mongo_connect_ok := false;
     mongo_insert_ok := false;
     mongo_read_ok := false;
     now := 1700000000000;
     today := 1699920000000;
     num_to_string := fun _ => "0" |}.

(** A stored record of which only the time, the place and the verdict
    matter. *)
Definition visit (ts : Z) (country city : string) (vpn : bool) : VisitorRecord :=
  {| ipv4 := "unknown"; ipv6 := None;
     location := {| country := country; region := "Unknown"; city := city;
                    timezone := "Unknown"; lat := 0%Q; lng := 0%Q;
                    isp := "Unknown"; asn := None; mapUrl := None |};
     vpnInfo := {| isVPN := vpn; vpnType := "none"; confidence := 0%Q;
                   detectionMethods := []; details := DetailsNone |};
     browserInfo := {| userAgent := None; language := inr "Unknown";
                       referer := "Direct"; acceptEncoding := None |};
     timestamp := ts; sessionId := "s"; rawHeaders := None; tag := "enhanced" |}.

(** A world in which every service answers and nothing is found. *)
Definition online : World :=
  {| torExitNodes := ∅;
     geoip_lookup := fun _ => Ok None;
     http_get := fun _ => Ok DataNull;
     getipintel := fun _ => Ok None;
     mongo_connect_ok := true;
     mongo_insert_ok := true;
     mongo_read_ok := true;
     now := 1704110400000;         (* 2024-01-01 12:00 UTC *)
     today := 1704067200000;
     num_to_string := fun _ => "0" |}.

Definition no_geo : string -> result (option Geo) := fun _ => Ok None.

Definition geo_of_org (org : string) : string -> result (option Geo) :=
  fun _ => Ok (Some {| geo_country := Some "US"; geo_region := None;
                       geo_city := None; geo_timezone := None;
                       geo_org := Some org; geo_as := None; geo_ll := None |}).

End Samples.

(** * Properties *)

(** ** The matcher against the language of an expression *)

Section RegexFacts.
Import Regex.

Lemma eps_inv w : matches Eps w -> w = [].
Proof. now inversion 1. Qed.

Lemma chr_inv p w : matches (Chr p) w -> exists c, w = [c] /\ p c = true.
Proof. inversion 1; subst; eauto. Qed.

Lemma cat_inv r1 r2 w :
  matches (Cat r1 r2) w ->
  exists w1 w2, w = w1 ++ w2 /\ matches r1 w1 /\ matches r2 w2.
Proof. inversion 1; subst; eauto. Qed.

Lemma alt_inv r1 r2 w : matches (Alt r1 r2) w -> matches r1 w \/ matches r2 w.
Proof. inversion 1; subst; auto. Qed.

Lemma void_inv w : ~ matches Void w.
Proof. inversion 1. Qed.

Lemma nullable_matches r : nullable r = true <-> matches r [].
Proof.
  induction r as [| |p|r1 IH1 r2 IH2|r1 IH1 r2 IH2|r IH|]; simpl.
  - split; [discriminate | intros H; now apply void_inv in H].
  - split; [constructor | reflexivity].
  - split; [discriminate |].
    intros H. apply chr_inv in H as (c & Hc & _). discriminate.
  - rewrite andb_true_iff, IH1, IH2. split.
    + intros [H1 H2]. change (@nil ascii) with (@nil ascii ++ []).
      now constructor.
    + intros H. apply cat_inv in H as (w1 & w2 & Heq & H1 & H2).
      symmetry in Heq. apply app_eq_nil in Heq as [-> ->]. now split.
  - rewrite orb_true_iff, IH1, IH2. split.
    + intros [H|H]; [now apply MAltL | now apply MAltR].
    + apply alt_inv.
  - split; [constructor | reflexivity].
  - split; [constructor | reflexivity].
Qed.

Lemma star_cons_inv r c w :
  matches (Star r) (c :: w) ->
  exists w1 w2, w = w1 ++ w2 /\ matches r (c :: w1) /\ matches (Star r) w2.
Proof.
  intros H. remember (Star r) as r' eqn:Hr. remember (c :: w) as w' eqn:Hw.
  revert w Hw. induction H as [| | | | | |r0 w1 w2 H1 _ H2 IH2|]; try discriminate.
  injection Hr as ->. intros w Hw.
  destruct w1 as [|c1 w1]; simpl in Hw.
  - now apply IH2.
  - injection Hw as -> <-. now exists w1, w2.
Qed.

Lemma deriv_matches c r : forall w, matches (deriv c r) w <-> matches r (c :: w).
Proof.
  induction r as [| |p|r1 IH1 r2 IH2|r1 IH1 r2 IH2|r IH|]; intros w; simpl.
  - split; intros H; now apply void_inv in H.
  - split; intros H; [now apply void_inv in H | apply eps_inv in H; discriminate].
  - destruct (p c) eqn:Hp; split; intros H.
    + apply eps_inv in H as ->. now constructor.
    + apply chr_inv in H as (c' & Heq & _). injection Heq as _ ->. constructor.
    + now apply void_inv in H.
    + apply chr_inv in H as (c' & Heq & Hc'). injection Heq as <- _. congruence.
  - split.
    + intros H. destruct (nullable r1) eqn:Hn.
      * apply alt_inv in H as [H|H].
        -- apply cat_inv in H as (w1 & w2 & -> & Ha & Hb).
           apply IH1 in Ha. change (c :: w1 ++ w2) with ((c :: w1) ++ w2).
           now constructor.
        -- apply IH2 in H. apply nullable_matches in Hn.
           change (c :: w) with ([] ++ c :: w). now constructor.
      * apply cat_inv in H as (w1 & w2 & -> & Ha & Hb).
        apply IH1 in Ha. change (c :: w1 ++ w2) with ((c :: w1) ++ w2).
        now constructor.
    + intros H. apply cat_inv in H as (w1 & w2 & Heq & Ha & Hb).
      destruct w1 as [|c1 w1]; simpl in Heq.
      * subst w2. apply nullable_matches in Ha. rewrite Ha.
        apply MAltR. now apply IH2.
      * injection Heq as <- ->. apply IH1 in Ha.
        destruct (nullable r1); [apply MAltL |]; now constructor.
  - split; intros H; apply alt_inv in H as [H|H];
      (apply MAltL; now apply IH1) || (apply MAltR; now apply IH2).
  - split.
    + intros H. apply cat_inv in H as (w1 & w2 & -> & Ha & Hb).
      apply IH in Ha. change (c :: w1 ++ w2) with ((c :: w1) ++ w2).
      now constructor.
    + intros H. apply star_cons_inv in H as (w1 & w2 & -> & Ha & Hb).
      constructor; [now apply IH | assumption].
  - split; constructor.
Qed.

Lemma matchb_matches r w : matchb r w = true <-> matches r w.
Proof.
  revert r. induction w as [|c w IH]; intros r; simpl.
  - apply nullable_matches.
  - rewrite IH. apply deriv_matches.
Qed.

Lemma matches_lit s w : matches (lit s) w <-> w = list_ascii_of_string s.
Proof.
  revert w. induction s as [|c s IH]; intros w; simpl.
  - split; [apply eps_inv | intros ->; constructor].
  - split.
    + intros H. apply cat_inv in H as (w1 & w2 & -> & Ha & Hb).
      apply chr_inv in Ha as (c' & -> & Hc). apply Ascii.eqb_eq in Hc as <-.
      apply IH in Hb as ->. reflexivity.
    + intros ->. change (c :: list_ascii_of_string s) with ([c] ++ list_ascii_of_string s).
      constructor; [constructor; apply Ascii.eqb_refl | now apply IH].
Qed.

Lemma list_ascii_app s t :
  list_ascii_of_string (s +:+ t) = list_ascii_of_string s ++ list_ascii_of_string t.
Proof. induction s as [|c s IH]; simpl; [reflexivity | now rewrite IH]. Qed.

(** A pattern without [$] holds of a string when some prefix is in the
    language; an anchored one when the whole string is. *)
Lemma test_prefixed r s :
  test (Prefixed r) s = true <->
  exists w1 w2, list_ascii_of_string s = w1 ++ w2 /\ matches r w1.
Proof.
  simpl. rewrite matchb_matches. split.
  - intros H. apply cat_inv in H as (w1 & w2 & Heq & Ha & _). eauto.
  - intros (w1 & w2 & -> & Ha). constructor; [exact Ha | constructor].
Qed.

Lemma test_anchored r s :
  test (Anchored r) s = true <-> matches r (list_ascii_of_string s).
Proof. simpl. apply matchb_matches. Qed.

Lemma test_prefixed_lit p s :
  test (Prefixed (lit p)) s = String.prefix p s.
Proof.
  apply eq_true_iff_eq. rewrite test_prefixed. split.
  - intros (w1 & w2 & Heq & Ha). apply matches_lit in Ha as ->.
    revert s Heq. induction p as [|c p IH]; intros s Heq.
    + now destruct s.
    + destruct s as [|c' s]; simpl in *; [discriminate |].
      injection Heq as -> Heq. destruct (ascii_dec c c) as [_|]; [|congruence].
      now apply IH.
  - revert s. induction p as [|c p IH]; intros s H.
    + exists [], (list_ascii_of_string s). split; [reflexivity | now apply matches_lit].
    + destruct s as [|c' s]; simpl in H; [discriminate |].
      destruct (ascii_dec c c') as [<-|]; [|discriminate].
      apply IH in H as (w1 & w2 & Heq & Ha). apply matches_lit in Ha as ->.
      exists (c :: list_ascii_of_string p), w2. split.
      * simpl. now rewrite Heq.
      * now apply (matches_lit (String c p)).
Qed.

Lemma is_void_sound r : is_void r = true -> forall w, ~ matches r w.
Proof.
  induction r as [| |p|r1 IH1 r2 IH2|r1 IH1 r2 IH2|r IH|]; simpl; try discriminate;
    intros Hv w Hm.
  - now apply void_inv in Hm.
  - apply cat_inv in Hm as (w1 & w2 & _ & Ha & Hb).
    apply orb_true_iff in Hv as [Hv|Hv]; [now apply (IH1 Hv w1) | now apply (IH2 Hv w2)].
  - apply andb_true_iff in Hv as [Hv1 Hv2].
    apply alt_inv in Hm as [Hm|Hm]; [now apply (IH1 Hv1 w) | now apply (IH2 Hv2 w)].
Qed.

Lemma is_all_sound r : is_all r = true -> forall w, matches r w.
Proof.
  induction r as [| |p|r1 IH1 r2 IH2|r1 IH1 r2 IH2|r IH|]; simpl; try discriminate;
    intros Ha w.
  - apply andb_true_iff in Ha as [Hn Ha]. apply nullable_matches in Hn.
    change w with ([] ++ w). constructor; [exact Hn | now apply IH2].
  - apply orb_true_iff in Ha as [Ha|Ha]; [apply MAltL; now apply IH1 | apply MAltR; now apply IH2].
  - constructor.
Qed.

Lemma matchb_app r x y : matchb r (x ++ y) = matchb (derivs x r) y.
Proof. revert r. induction x as [|c x IH]; intros r; simpl; [reflexivity | apply IH]. Qed.

(** When the start of a string settles a pattern, what follows is
    irrelevant. *)
Lemma settled_sound p x b :
  settled p x = Some b -> forall y, test p (x +:+ y) = b.
Proof.
  unfold settled. intros H y.
  assert (Ht : test p (x +:+ y) =
               matchb (derivs (list_ascii_of_string x)
                         match p with Anchored r => r | Prefixed r => Cat r Any end)
                      (list_ascii_of_string y)).
  { destruct p; simpl; now rewrite list_ascii_app, matchb_app. }
  rewrite Ht. clear Ht.
  destruct (is_all _) eqn:Hall.
  - injection H as <-. apply matchb_matches. now apply is_all_sound.
  - destruct (is_void _) eqn:Hvoid; [|discriminate].
    injection H as <-. apply not_true_is_false. rewrite matchb_matches.
    now apply is_void_sound.
Qed.

End RegexFacts.

(** ** Dotted quads *)

Section Quads.
Import JS Regex Addr.

Lemma forall_below n (P : nat -> bool) :
  forallb P (seq 0 n) = true -> forall a, (a < n)%nat -> P a = true.
Proof.
  intros H a Ha. rewrite forallb_forall in H. apply H. apply in_seq. lia.
Qed.

Lemma append_assoc (s t u : string) : (s +:+ t) +:+ u = s +:+ (t +:+ u).
Proof.
  induction s as [|c s IH]; [reflexivity |].
  change (String c ((s +:+ t) +:+ u) = String c (s +:+ (t +:+ u))). now f_equal.
Qed.

Lemma quad_head_tail a b c d :
  quad a b c d = quad_head a b +:+ (dec c +:+ "." +:+ dec d).
Proof. unfold quad, quad_head. now rewrite !append_assoc. Qed.

Lemma settled_any_sound ps x b :
  settled_any ps x = Some b ->
  forall y, existsb (fun p => test p (x +:+ y)) ps = b.
Proof.
  revert b. induction ps as [|p ps IH]; simpl; intros b H y.
  - now injection H as <-.
  - destruct (settled p x) as [b1|] eqn:H1; [|discriminate].
    destruct (settled_any ps x) as [b2|]; [|discriminate].
    injection H as <-. now rewrite (settled_sound _ _ _ H1), (IH _ eq_refl).
Qed.

Lemma digits_1_3 n :
  (n < 1000)%nat -> matches (rng 1 3 (Chr is_digit)) (list_ascii_of_string (dec n)).
Proof.
  intros Hn. apply matchb_matches.
  revert n Hn. apply (forall_below 1000 (fun n => matchb _ (list_ascii_of_string (dec n)))).
  vm_compute. reflexivity.
Qed.

Lemma quad_is_ipv4 r a b c d :
  (a < 256)%nat -> (b < 256)%nat -> (c < 256)%nat -> (d < 256)%nat ->
  r = Cat (rep 3 (Cat (rng 1 3 (Chr is_digit)) (chr "."))) (rng 1 3 (Chr is_digit)) ->
  test (Anchored r) (quad a b c d) = true.
Proof.
  intros Ha Hb Hc Hd ->. apply test_anchored.
  assert (Hg : forall n, (n < 256)%nat ->
             matches (Cat (rng 1 3 (Chr is_digit)) (chr "."))
                     (list_ascii_of_string (dec n) ++ ["."%char])).
  { intros n Hn. constructor; [apply digits_1_3; lia |].
    constructor. reflexivity. }
  unfold quad. rewrite !list_ascii_app. simpl rep.
  replace (list_ascii_of_string (dec a) ++ list_ascii_of_string "." ++
           list_ascii_of_string (dec b) ++ list_ascii_of_string "." ++
           list_ascii_of_string (dec c) ++ list_ascii_of_string "." ++
           list_ascii_of_string (dec d))
    with (((list_ascii_of_string (dec a) ++ ["."%char]) ++
           (list_ascii_of_string (dec b) ++ ["."%char]) ++
           (list_ascii_of_string (dec c) ++ ["."%char]) ++ []) ++
          list_ascii_of_string (dec d)).
  2:{ rewrite <- !List.app_assoc. simpl. rewrite <- ?List.app_assoc. reflexivity. }
  constructor; [|apply digits_1_3; lia].
  repeat (constructor; [now apply Hg|]). constructor.
Qed.

Lemma quad_start_checked a :
  (a < 256)%nat ->
  negb (String.eqb (quad_start a) "") &&
  match settled (Prefixed (lit "::ffff:")) (quad_start a) with
  | Some false => true
  | _ => false
  end = true.
Proof.
  (* by enumeration *)
  revert a.
  apply (forall_below 256 (fun a => negb (String.eqb (quad_start a) "") && _)).
  vm_compute. reflexivity.
Qed.

Lemma quad_head_start a b y :
  quad_head a b +:+ y = quad_start a +:+ (dec b +:+ "." +:+ y).
Proof. unfold quad_head, quad_start. now rewrite !append_assoc. Qed.

(** The start of a quad is not empty and carries no [::ffff:] prefix. *)
Lemma quad_head_clean a b :
  (a < 256)%nat ->
  forall y, String.eqb (quad_head a b +:+ y) "" = false /\
            strip_prefix "::ffff:" (quad_head a b +:+ y) = quad_head a b +:+ y.
Proof.
  intros Ha y. rewrite quad_head_start.
  pose proof (quad_start_checked a Ha) as H.
  apply andb_true_iff in H as [H1 H2]. split.
  - destruct (quad_start a); [discriminate | reflexivity].
  - unfold strip_prefix. rewrite <- test_prefixed_lit.
    destruct (settled _ _) as [[|]|] eqn:Hs; try discriminate.
    now rewrite (settled_sound _ _ _ Hs).
Qed.

End Quads.

(** ** The public-address validators on dotted quads *)

Section Validators.
Import JS Regex Addr.

Lemma settles_to_sound ps f a b :
  settles_to ps f a b = true ->
  forall y, existsb (fun p => test p (quad_head a b +:+ y)) ps = f a b.
Proof.
  unfold settles_to. intros H y.
  destruct (settled_any ps (quad_head a b)) as [r|] eqn:Hs; [|discriminate].
  apply Bool.eqb_prop in H as <-. now apply settled_any_sound.
Qed.

Lemma ranges_check_sound ps f a b :
  ranges_check ps f a = true -> (b < 256)%nat ->
  forall y, existsb (fun p => test p (quad_head a b +:+ y)) ps = f a b.
Proof.
  unfold ranges_check. intros H Hb y.
  destruct (settled_any ps (quad_start a)) as [r|] eqn:Hs.
  - apply (forall_below 256 (fun b => Bool.eqb r (f a b))) with (a := b) in H; [|exact Hb].
    apply Bool.eqb_prop in H as <-. rewrite quad_head_start.
    now apply settled_any_sound.
  - apply settles_to_sound.
    now apply (forall_below 256 (fun b => settles_to ps f a b)).
Qed.

Lemma vercel_ranges_checked a :
  (a < 256)%nat -> ranges_check Vercel.privateRanges private_v4 a = true.
Proof.
  (* by enumeration *)
  revert a. apply (forall_below 256 (ranges_check Vercel.privateRanges private_v4)).
  vm_compute. reflexivity.
Qed.

Lemma server_ranges_checked a :
  (a < 256)%nat -> ranges_check Server.privateRanges private_v4_server a = true.
Proof.
  (* by enumeration *)
  revert a. apply (forall_below 256 (ranges_check Server.privateRanges private_v4_server)).
  vm_compute. reflexivity.
Qed.

(** The Vercel validator accepts a dotted quad exactly when it lies outside
    the private, loopback and link-local blocks. *)
Theorem vercel_validator_on_quads a b c d :
  (a < 256)%nat -> (b < 256)%nat -> (c < 256)%nat -> (d < 256)%nat ->
  Vercel.isValidPublicIP (quad a b c d) = negb (private_v4 a b).
Proof.
  intros Ha Hb Hc Hd. unfold Vercel.isValidPublicIP.
  pose proof (quad_is_ipv4 _ a b c d Ha Hb Hc Hd eq_refl) as H4.
  rewrite quad_head_tail in *.
  destruct (quad_head_clean a b Ha (dec c +:+ "." +:+ dec d)) as [-> ->].
  cbv zeta. unfold Vercel.ipv4Regex. rewrite H4. change (negb true) with false. cbv iota.
  now rewrite (ranges_check_sound _ _ _ _ (vercel_ranges_checked a Ha) Hb).
Qed.

(** The Express validator on dotted quads: the blocks it rejects in 172.x
    are 172.16-29, 172.31 and 172.32. *)
Theorem server_validator_on_quads a b c d :
  (a < 256)%nat -> (b < 256)%nat -> (c < 256)%nat -> (d < 256)%nat ->
  Server.isValidPublicIP (quad a b c d) = negb (private_v4_server a b).
Proof.
  intros Ha Hb Hc Hd. unfold Server.isValidPublicIP.
  pose proof (quad_is_ipv4 _ a b c d Ha Hb Hc Hd eq_refl) as H4.
  rewrite quad_head_tail in *.
  destruct (quad_head_clean a b Ha (dec c +:+ "." +:+ dec d)) as [-> ->].
  cbv zeta. unfold Server.ipv4Regex. rewrite H4. change (negb true) with false. cbv iota.
  rewrite andb_false_l.
  now rewrite (ranges_check_sound _ _ _ _ (server_ranges_checked a Ha) Hb).
Qed.

End Validators.

(** ** The client-address resolvers *)

Section Resolvers.
Import JS Regex Model Samples.

Lemma truthy_some v s : truthy v = Some s -> v = Some s /\ s <> "".
Proof.
  destruct v as [t|]; simpl; [|discriminate].
  destruct (String.eqb_spec t ""); [discriminate|].
  intros [= <-]. now split.
Qed.

Lemma truthy_none v : truthy v = None <-> v = None \/ v = Some "".
Proof.
  destruct v as [t|]; simpl; [|tauto].
  destruct (String.eqb_spec t "") as [->|Hne]; split; intros H; auto; try discriminate.
  destruct H as [H|[= H]]; [discriminate | contradiction].
Qed.

(** Once some proxy header is present the scan of the Express server raises:
    it calls [trim] on the array [split] returned. *)
Lemma server_scan_throws hdrs names :
  (exists h, In h names /\ truthy (hdrs !! h) <> None) ->
  Server.scan_headers hdrs names =
  Throw (TypeError "value.split(...).trim is not a function").
Proof.
  induction names as [|h names IH]; intros (h' & Hin & Hh); [destruct Hin|].
  simpl. destruct (truthy (hdrs !! h)) eqn:Ht; [reflexivity|].
  apply IH. exists h'. split; [|exact Hh].
  destruct Hin as [->|Hin]; [congruence | exact Hin].
Qed.

Lemma server_scan_absent hdrs names :
  (forall h, In h names -> truthy (hdrs !! h) = None) ->
  Server.scan_headers hdrs names = Ok None.
Proof.
  induction names as [|h names IH]; intros H; [reflexivity|].
  simpl. rewrite (H h (or_introl eq_refl)). apply IH.
  intros h' Hin. apply H. now right.
Qed.

(** C2: with no usable transport address and the header
    [x-forwarded-for: 8.8.8.8, 10.0.0.5], the resolver of the Express server
    does not return 8.8.8.8: it raises a TypeError, whatever else the
    request holds. *)
Theorem C2_server_resolver_raises (req : Request) :
  Server.method1 req = None ->
  req_headers req !! "x-forwarded-for" = Some "8.8.8.8, 10.0.0.5" ->
  Server.getRealIP req = Throw (TypeError "value.split(...).trim is not a function").
Proof.
  intros H1 Hx. unfold Server.getRealIP. rewrite H1.
  rewrite server_scan_throws; [reflexivity|].
  exists "x-forwarded-for". split.
  - unfold Server.proxyHeaders. simpl. tauto.
  - rewrite Hx. discriminate.
Qed.

Lemma C2_server_resolver_raises_witness :
  Server.getRealIP (request (Some "::1") (forwarded_for "8.8.8.8, 10.0.0.5")) =
  Throw (TypeError "value.split(...).trim is not a function").
Proof.
  apply C2_server_resolver_raises; reflexivity.
Defined.

(** C7, as stated, fails: step 1 hands back a link-local transport
    address. *)
Lemma C7_link_local_returned :
  Server.method1 (request (Some "fe80::1") ∅) = Some "fe80::1" /\
  Server.method1 (request (Some "169.254.1.1") ∅) = Some "169.254.1.1" /\
  Server.getRealIP (request (Some "fe80::1") (forwarded_for "8.8.8.8")) = Ok "fe80::1".
Proof. repeat split; reflexivity. Qed.

(** C7, amended: step 1 returns the transport address, its [::ffff:] prefix
    removed, exactly when it is present, not empty, neither of the literals
    [::1] and [127.0.0.1] and does not start with [::ffff:127.0.0.1]; the
    resolver then returns it without looking at any header.  Link-local
    addresses are not excluded. *)
Theorem C7_step1_characterised (req : Request) (x : string) :
  (Server.method1 req = Some x <->
   exists ip, req_ip req = Some ip /\ ip <> "" /\ ip <> "::1" /\ ip <> "127.0.0.1" /\
              startsWith "::ffff:127.0.0.1" ip = false /\
              x = strip_prefix "::ffff:" ip) /\
  (Server.method1 req = Some x -> Server.getRealIP req = Ok x).
Proof.
  split.
  - unfold Server.method1. split.
    + destruct (truthy (req_ip req)) as [ip|] eqn:Ht; [|discriminate].
      apply truthy_some in Ht as [Hip Hne].
      destruct (String.eqb_spec ip "::1"); [discriminate|].
      destruct (String.eqb_spec ip "127.0.0.1"); [discriminate|].
      destruct (startsWith "::ffff:127.0.0.1" ip) eqn:Hs; [discriminate|].
      simpl. intros [= <-]. exists ip. auto 10.
    + intros (ip & Hip & Hne & H1 & H2 & Hs & ->). rewrite Hip. simpl.
      destruct (String.eqb_spec ip ""); [contradiction|].
      destruct (String.eqb_spec ip "::1"); [contradiction|].
      destruct (String.eqb_spec ip "127.0.0.1"); [contradiction|].
      now rewrite Hs.
  - intros H. unfold Server.getRealIP. now rewrite H.
Qed.

End Resolvers.

(** ** The cleanup utility *)

Section Cleanup.
Import JS CleanDb.

(** C9: without [--confirm] among the arguments the tool prints its warning
    and does nothing else: no client, no connection, no listing, no drop,
    and the database is as it was. *)
Theorem C9_no_confirm_no_action (argv : list string) (w : World) (st : Store) :
  ~ In "--confirm" argv ->
  trace (main argv w st) = [Log MsgWarning] /\
  forallb is_log (trace (main argv w st)) = true /\
  store (main argv w st) = st /\
  outcome (main argv w st) = Completed.
Proof.
  intros Hn. unfold main.
  assert (Hf : array_includes "--confirm" argv = false).
  { unfold array_includes. apply not_true_is_false. intros H.
    apply existsb_exists in H as (x & Hin & Hx).
    apply String.eqb_eq in Hx as <-. contradiction. }
  rewrite Hf. repeat split; reflexivity.
Qed.

Lemma C9_no_confirm_no_action_witness :
  trace (main ["node"; "cleandb.js"]
           {| cw_connect := Ok tt; cw_list := fun _ => Ok tt;
              cw_count := fun _ => Ok tt; cw_drop := fun _ => Ok true;
              cw_close := Ok tt |}
           [("visitors", 3)]) = [Log MsgWarning].
Proof.
  apply C9_no_confirm_no_action.
  simpl. intros [H|[H|[]]]; discriminate.
Defined.

End Cleanup.

(** ** Sorting, limiting and grouping *)

Section SortFacts.
Import Mongo.
Context {A : Type} (le : A -> A -> bool).
Hypothesis le_total : forall x y, le x y = true \/ le y x = true.
Hypothesis le_trans : forall x y z, le x y = true -> le y z = true -> le x z = true.

Lemma insert_sorted_perm x l : Permutation (insert_sorted le x l) (x :: l).
Proof using Type.
  induction l as [|y l IH]; simpl; [reflexivity|].
  destruct (le x y); [reflexivity|].
  rewrite IH. apply perm_swap.
Qed.

Lemma sort_by_perm l : Permutation (sort_by le l) l.
Proof using Type.
  induction l as [|x l IH]; simpl; [reflexivity|].
  unfold sort_by in *. simpl. rewrite insert_sorted_perm. now constructor.
Qed.

Lemma insert_sorted_sorted x l :
  StronglySorted (fun a b => le a b = true) l ->
  StronglySorted (fun a b => le a b = true) (insert_sorted le x l).
Proof using le_total le_trans.
  induction 1 as [|y l Hs IH Hy]; simpl.
  - repeat constructor.
  - destruct (le x y) eqn:Hxy.
    + constructor; [now constructor|].
      constructor; [exact Hxy|].
      eapply List.Forall_impl; [|exact Hy]. intros z Hz. simpl in *. eauto.
    + constructor; [exact IH|].
      assert (Hyx : le y x = true) by (destruct (le_total x y); congruence).
      eapply Permutation_Forall; [symmetry; apply insert_sorted_perm|].
      now constructor.
Qed.

Lemma sort_by_sorted l : StronglySorted (fun a b => le a b = true) (sort_by le l).
Proof using le_total le_trans.
  induction l as [|x l IH]; [constructor|].
  unfold sort_by in *. simpl. now apply insert_sorted_sorted.
Qed.

End SortFacts.

Section LimitFacts.
Import Mongo.
Context {A : Type}.

Lemma limit_length (n : Z) (l : list A) :
  n <> 0%Z -> (List.length (limit n l) <= Z.to_nat (Z.abs n))%nat.
Proof.
  intros Hn. unfold limit. destruct (Z.eqb_spec n 0); [contradiction|].
  rewrite length_firstn. lia.
Qed.

Lemma limit_split (n : Z) (l : list A) : exists rest, l = limit n l ++ rest.
Proof.
  unfold limit. destruct (n =? 0)%Z.
  - exists []. now rewrite app_nil_r.
  - exists (skipn (Z.to_nat (Z.abs n)) l). now rewrite firstn_skipn.
Qed.

Lemma sorted_app_inv (R : A -> A -> Prop) (l1 l2 : list A) :
  StronglySorted R (l1 ++ l2) ->
  StronglySorted R l1 /\ forall x y, In x l1 -> In y l2 -> R x y.
Proof.
  induction l1 as [|a l1 IH]; simpl; intros H.
  - split; [constructor | intros x y []].
  - apply StronglySorted_inv in H as [Hs Ha].
    destruct (IH Hs) as [Hs1 Hc]. split.
    + constructor; [exact Hs1|]. rewrite List.Forall_forall in *.
      intros z Hz. apply Ha. apply in_or_app. now left.
    + intros x y [<-|Hx] Hy.
      * rewrite List.Forall_forall in Ha. apply Ha. apply in_or_app. now right.
      * now apply Hc.
Qed.

End LimitFacts.

(** ** Recent visitors *)

Section Recent.
Import JS Model Mongo Samples.

(** The query: at most [|n|] records, newest first, and nothing left out is
    newer than anything returned. *)
Lemma recent_query_spec (n : Z) (docs : list VisitorRecord) :
  n <> 0%Z ->
  (List.length (recent_query n docs) <= Z.to_nat (Z.abs n))%nat /\
  StronglySorted newer_first (recent_query n docs) /\
  exists rest, Permutation (recent_query n docs ++ rest) docs /\
               forall x y, In x (recent_query n docs) -> In y rest -> newer_first x y.
Proof.
  intros Hn. unfold recent_query.
  set (le := fun a b : VisitorRecord => (timestamp b <=? timestamp a)%Z).
  assert (Hsorted : StronglySorted (fun a b => le a b = true) (sort_by le docs)).
  { apply sort_by_sorted; unfold le.
    - intros x y. rewrite !Z.leb_le. lia.
    - intros x y z. rewrite !Z.leb_le. lia. }
  assert (Hs' : StronglySorted newer_first (sort_by le docs)).
  { eapply StronglySorted_ind
      with (P := fun l => StronglySorted newer_first l); [constructor | | exact Hsorted].
    intros a l _ IH Ha. constructor; [exact IH|].
    eapply List.Forall_impl; [|exact Ha]. intros b Hb. now apply Z.leb_le in Hb. }
  destruct (limit_split n (sort_by le docs)) as [rest Hrest].
  rewrite Hrest in Hs'. apply sorted_app_inv in Hs' as [Hs1 Hcross].
  split; [now apply limit_length|]. split; [exact Hs1|].
  exists rest. split; [|exact Hcross].
  rewrite <- Hrest. apply sort_by_perm.
Qed.

(** C10: when [limit] is absent, not a number or parses to zero, the limit
    is 50; the answer of either server is then the 50 newest records (or
    all of them if there are fewer), newest first. *)
Theorem C10_default_limit (w : World) (req : Request) (docs : list VisitorRecord) :
  (req_query req !! "limit" = None \/
   (exists s, req_query req !! "limit" = Some s /\ parseInt s = None) \/
   (exists s, req_query req !! "limit" = Some s /\ parseInt s = Some 0%Z)) ->
  mongo_connect_ok w = true -> mongo_read_ok w = true ->
  num_or_default (parseInt_value (req_query req !! "limit")) 50 = 50%Z /\
  (forall st, Server.visitors st = docs ->
     fst (Server.admin_recent_visitors w req st) = json (Items (recent_query 50 docs))) /\
  (forall st, Vercel.visitors st = docs ->
     fst (Vercel.admin_recent_visitors w req st) = json (Items (recent_query 50 docs))) /\
  (List.length (recent_query 50 docs) <= 50)%nat /\
  StronglySorted newer_first (recent_query 50 docs) /\
  exists rest, Permutation (recent_query 50 docs ++ rest) docs /\
               forall x y, In x (recent_query 50 docs) -> In y rest -> newer_first x y.
Proof.
  intros Hq Hc Hr.
  assert (Hd : num_or_default (parseInt_value (req_query req !! "limit")) 50 = 50%Z).
  { destruct Hq as [-> | [(s & -> & Hs) | (s & -> & Hs)]]; simpl; try rewrite Hs; reflexivity. }
  split; [exact Hd|]. split; [|split].
  - intros st <-. unfold Server.admin_recent_visitors, Server.connectToDatabase.
    rewrite Hc, Hr, Hd.
    destruct (Server.cachedClient st && Server.db st) eqn:Hcache; simpl.
    + apply andb_true_iff in Hcache as [_ ->]. reflexivity.
    + reflexivity.
  - intros st <-. unfold Vercel.admin_recent_visitors, Vercel.connectToDatabase.
    rewrite Hc, Hr, Hd.
    destruct (Vercel.isConnected st && Vercel.db st); reflexivity.
  - apply (recent_query_spec 50 docs). discriminate.
Qed.

Lemma C10_default_limit_witness :
  num_or_default
    (parseInt_value
       (req_query {| req_ip := None; req_headers := ∅;
                     connection_remoteAddress := None; socket_remoteAddress := None;
                     connection_socket_remoteAddress := None;
                     body_sessionId := None; body_password := None;
                     req_query := {[ "limit" := "abc" ]} |} !! "limit")) 50 = 50%Z.
Proof.
  apply (C10_default_limit
           {| torExitNodes := ∅; geoip_lookup := no_geo;
              http_get := fun _ => Ok DataNull; getipintel := fun _ => Ok None;
              mongo_connect_ok := true; mongo_insert_ok := true; mongo_read_ok := true;
              now := 0; today := 0; num_to_string := fun _ => "0" |}
           _ []).
  - right. left. exists "abc". split; reflexivity.
  - reflexivity.
  - reflexivity.
Defined.

End Recent.

(** ** Grouping and the order of the buckets *)

Section Comparisons.
Import Mongo.








End Comparisons.

Section Grouping.
Import Mongo.
Context {K : Type} (eqb : K -> K -> bool).
Hypothesis eqb_eq : forall a b, eqb a b = true <-> a = b.

Let occurrences (k : K) (keys : list K) : nat :=
  List.length (List.filter (fun x => eqb x k) keys).

(** What a grouped list must satisfy for the keys seen so far. *)
Let grouped (keys : list K) (acc : list (K * nat)) : Prop :=
  List.NoDup (map fst acc) /\
  (forall k n, In (k, n) acc -> (0 < n)%nat) /\
  (forall k, count_for eqb k acc = occurrences k keys).










End Grouping.

(** ** The timeline *)

Section Timeline.
Import JS Model Mongo Samples.






End Timeline.

(** ** The VPN classifier *)

Section Classifier.
Import JS Model Samples.

Lemma find_none_existsb {A} (p : A -> bool) l :
  existsb p l = false -> List.find p l = None.
Proof.
  induction l as [|x l IH]; simpl; [reflexivity|].
  destruct (p x); simpl; [discriminate | exact IH].
Qed.

Lemma check_isp_unflagged indicators geo a :
  Server.isp_flagged indicators geo = false -> Server.check_isp indicators geo a = a.
Proof.
  unfold Server.isp_flagged, Server.check_isp.
  destruct geo as [g|]; [|reflexivity].
  destruct (truthy (geo_org g)) as [o|]; [|reflexivity].
  intros H. unfold array_find. now rewrite (find_none_existsb _ _ H).
Qed.

Lemma check_getipintel_unflagged w ip a :
  Server.score_flagged w ip = false -> Server.check_getipintel w ip a = a.
Proof.
  unfold Server.score_flagged, Server.check_getipintel.
  destruct (getipintel w ip) as [[score|]|]; try reflexivity.
  now intros ->.
Qed.

Lemma Math_max_ge a b : (a <= Math_max a b)%Q /\ (b <= Math_max a b)%Q.
Proof.
  unfold Math_max. destruct (Qle_bool a b) eqn:H.
  - apply Qle_bool_iff in H. split; [exact H | apply Qle_refl].
  - split; [apply Qle_refl|].
    destruct (Qlt_le_dec b a) as [Hlt|Hle]; [now apply Qlt_le_weak|].
    apply Qle_bool_iff in Hle. congruence.
Qed.

Lemma Math_min_one a : (Math_min a 1 <= 1)%Q /\ ((95 # 100) <= a -> (95 # 100) <= Math_min a 1)%Q.
Proof.
  unfold Math_min. destruct (Qle_bool a 1) eqn:H.
  - apply Qle_bool_iff in H. split; [exact H | auto].
  - split; [apply Qle_refl | intros _; discriminate].
Qed.

(** After the Tor test has fired, whatever methods 2 and 3 do, the verdict
    stays positive, lists the Tor method and keeps a confidence of at
    least 0.95. *)
Lemma tor_accumulates (a : Server.Acc) :
  Server.a_isVPN a = true /\ In "tor_exit_node" (Server.a_methods a) /\
  ((95 # 100) <= Server.a_confidence a)%Q ->
  forall indicators geo w ip,
    let a2 := Server.check_isp indicators geo a in
    let a3 := Server.check_getipintel w ip a2 in
    (Server.a_isVPN a2 = true /\ In "tor_exit_node" (Server.a_methods a2) /\
     ((95 # 100) <= Server.a_confidence a2)%Q) /\
    (Server.a_isVPN a3 = true /\ In "tor_exit_node" (Server.a_methods a3) /\
     ((95 # 100) <= Server.a_confidence a3)%Q).
Proof.
  intros (H1 & H2 & H3) indicators geo w ip a2 a3.
  assert (Ha2 : Server.a_isVPN a2 = true /\ In "tor_exit_node" (Server.a_methods a2) /\
                ((95 # 100) <= Server.a_confidence a2)%Q).
  { unfold a2, Server.check_isp.
    destruct geo as [g|]; [|auto].
    destruct (truthy (geo_org g)) as [o|]; [|auto].
    destruct (array_find _ _); [|auto]. simpl.
    repeat split; [apply in_or_app; now left|].
    eapply Qle_trans; [exact H3 | apply Math_max_ge]. }
  split; [exact Ha2|].
  destruct Ha2 as (H4 & H5 & H6). unfold a3, Server.check_getipintel.
  destruct (getipintel w ip) as [[score|]|]; auto.
  destruct (num_gt score (5 # 10)); auto. simpl.
  repeat split; [apply in_or_app; now left|].
  eapply Qle_trans; [exact H6 | apply Math_max_ge].
Qed.

(** C4, as stated, fails: a Tor exit node whose organisation name holds a
    hosting keyword is reported with the type of the keyword, not "tor". *)
Lemma C4_tor_type_overwritten :
  let w := offline {[ "185.220.101.1" ]} (geo_of_org "Amazon Technologies Inc") in
  "185.220.101.1" ∈ torExitNodes w /\
  vpnType (Server.detectVPNProxy w "185.220.101.1") = "hosting/proxy" /\
  vpnType (Vercel.detectVPNProxy w "185.220.101.1") = "hosting/proxy".
Proof.
  cbv zeta. split; [|split].
  - simpl. set_solver.
  - vm_compute. reflexivity.
  - vm_compute. reflexivity.
Qed.

Lemma check_isp_flagged indicators geo a :
  Server.isp_flagged indicators geo = true ->
  exists found,
    Server.check_isp indicators geo a =
    {| Server.a_isVPN := true;
       Server.a_vpnType := if includes "vpn" found then "vpn" else "hosting/proxy";
       Server.a_confidence := Math_max (Server.a_confidence a) (7 # 10)%Q;
       Server.a_methods := Server.a_methods a ++ ["isp_analysis"] |}.
Proof.
  unfold Server.isp_flagged, Server.check_isp.
  destruct geo as [g|]; [|discriminate].
  destruct (truthy (geo_org g)) as [o|]; [|discriminate].
  intros Hf. unfold array_find.
  destruct (List.find _ indicators) as [found|] eqn:Hfind; [now exists found|].
  exfalso. apply existsb_exists in Hf as (x & Hx & Hp).
  now rewrite (find_none _ _ Hfind x Hx) in Hp.
Qed.

Lemma check_getipintel_flagged w ip a :
  Server.score_flagged w ip = true ->
  exists score,
    getipintel w ip = Ok (Some score) /\ num_gt score (5 # 10)%Q = true /\
    Server.check_getipintel w ip a =
    {| Server.a_isVPN := true;
       Server.a_vpnType := if num_gt score (8 # 10)%Q then "vpn" else "proxy";
       Server.a_confidence := Math_max (Server.a_confidence a) score;
       Server.a_methods := Server.a_methods a ++ ["getipintel"] |}.
Proof.
  unfold Server.score_flagged, Server.check_getipintel.
  destruct (getipintel w ip) as [[score|]|]; try discriminate.
  intros Hs. exists score. now rewrite Hs.
Qed.

Lemma Math_min_raised s :
  ((95 # 100) < s)%Q -> ((95 # 100) < Math_min (Math_max (95 # 100) s) 1)%Q.
Proof.
  intros Hs. unfold Math_min.
  destruct (Qle_bool (Math_max (95 # 100) s) 1); [|reflexivity].
  eapply Qlt_le_trans; [exact Hs | apply Math_max_ge].
Qed.

(** C4, amended: for an address of the Tor set (the geo lookup not
    raising), both classifiers answer [isVPN = true], list [tor_exit_node]
    among the methods and give a confidence between 0.95 and 1.  The type
    is "tor" exactly when no later method fires (no keyword in the
    organisation name and, on the Express server, no reputation score above
    0.5), and then the confidence is 0.95.  When only a keyword matches,
    the type is "vpn" or "hosting/proxy" and the confidence stays 0.95.
    When the Express server gets a reputation score [s] above 0.5, the
    type is "vpn" for [s] above 0.8 and "proxy" otherwise and the
    confidence is the larger of 0.95 and [s], capped at 1, so above 0.95
    when [s] is. *)
Theorem C4_tor_verdict (w : World) (ip : string) (geo : option Geo) :
  ip ∈ torExitNodes w ->
  geoip_lookup w ip = Ok geo ->
  (let v := Server.detectVPNProxy w ip in
   isVPN v = true /\ In "tor_exit_node" (detectionMethods v) /\
   ((95 # 100) <= confidence v)%Q /\ (confidence v <= 1)%Q /\
   (Server.isp_flagged Server.vpnIndicators geo = false ->
    Server.score_flagged w ip = false ->
    vpnType v = "tor" /\ (confidence v == 95 # 100)%Q /\
    detectionMethods v = ["tor_exit_node"]) /\
   (vpnType v = "tor" <->
    Server.isp_flagged Server.vpnIndicators geo = false /\
    Server.score_flagged w ip = false) /\
   (Server.isp_flagged Server.vpnIndicators geo = true ->
    Server.score_flagged w ip = false ->
    (vpnType v = "vpn" \/ vpnType v = "hosting/proxy") /\
    confidence v = (95 # 100)%Q /\
    detectionMethods v = ["tor_exit_node"; "isp_analysis"]) /\
   (forall score,
      getipintel w ip = Ok (Some score) -> num_gt score (5 # 10)%Q = true ->
      vpnType v = (if num_gt score (8 # 10)%Q then "vpn" else "proxy") /\
      confidence v = Math_min (Math_max (95 # 100) score) 1 /\
      In "getipintel" (detectionMethods v) /\
      (((95 # 100) < score)%Q -> ((95 # 100) < confidence v)%Q))) /\
  (let v := Vercel.detectVPNProxy w ip in
   isVPN v = true /\ In "tor_exit_node" (detectionMethods v) /\
   ((95 # 100) <= confidence v)%Q /\ (confidence v <= 1)%Q /\
   (Server.isp_flagged Vercel.vpnIndicators geo = false ->
    vpnType v = "tor" /\ (confidence v == 95 # 100)%Q /\
    detectionMethods v = ["tor_exit_node"]) /\
   (vpnType v = "tor" <-> Server.isp_flagged Vercel.vpnIndicators geo = false) /\
   (Server.isp_flagged Vercel.vpnIndicators geo = true ->
    (vpnType v = "vpn" \/ vpnType v = "hosting/proxy") /\
    confidence v = (95 # 100)%Q /\
    detectionMethods v = ["tor_exit_node"; "isp_analysis"])).
Proof.
  intros Htor Hgeo.
  assert (Ht : Server.check_tor w ip Server.acc0 =
               {| Server.a_isVPN := true; Server.a_vpnType := "tor";
                  Server.a_confidence := (95 # 100)%Q;
                  Server.a_methods := ["tor_exit_node"] |}).
  { unfold Server.check_tor. now rewrite bool_decide_eq_true_2. }
  assert (H0 : Server.a_isVPN (Server.check_tor w ip Server.acc0) = true /\
               In "tor_exit_node" (Server.a_methods (Server.check_tor w ip Server.acc0)) /\
               ((95 # 100) <= Server.a_confidence (Server.check_tor w ip Server.acc0))%Q).
  { rewrite Ht. simpl. repeat split; [now left | apply Qle_refl]. }
  assert (Hkw : forall found : string,
            (if includes "vpn" found then "vpn" else "hosting/proxy") <> "tor" /\
            ((if includes "vpn" found then "vpn" else "hosting/proxy") = "vpn" \/
             (if includes "vpn" found then "vpn" else "hosting/proxy") = "hosting/proxy")).
  { intros found. destruct (includes "vpn" found); split; auto; discriminate. }
  assert (Hsc : forall score : Q,
            (if num_gt score (8 # 10) then "vpn" else "proxy") <> "tor").
  { intros score. destruct (num_gt score (8 # 10)); discriminate. }
  split.
  - destruct (tor_accumulates _ H0 Server.vpnIndicators geo w ip) as [_ (H1 & H2 & H3)].
    unfold Server.detectVPNProxy, Server.detectVPNProxy_try. rewrite Hgeo.
    cbn [bind try_catch isVPN vpnType confidence detectionMethods].
    split; [exact H1|]. split; [exact H2|].
    split; [now apply Math_min_one|]. split; [apply Math_min_one|].
    destruct (Server.isp_flagged Server.vpnIndicators geo) eqn:Hisp;
      destruct (Server.score_flagged w ip) eqn:Hscore.
    + destruct (check_isp_flagged _ _ (Server.check_tor w ip Server.acc0) Hisp)
        as [found Hci].
      destruct (check_getipintel_flagged w ip
                  (Server.check_isp Server.vpnIndicators geo
                     (Server.check_tor w ip Server.acc0)) Hscore)
        as (s & Hg & Hgt & Hcg).
      rewrite Hcg, Hci, Ht. cbn.
      split; [intros [=]|]. split.
      { split; [intros H; now apply Hsc in H | intros [[=] _]]. }
      split; [intros _ [=]|].
      intros score Hg' Hgt'. rewrite Hg in Hg'. injection Hg' as <-.
      repeat split.
      * right. right. now left.
      * apply Math_min_raised.
    + destruct (check_isp_flagged _ _ (Server.check_tor w ip Server.acc0) Hisp)
        as [found Hci].
      rewrite (check_getipintel_unflagged _ _ _ Hscore), Hci, Ht. cbn.
      split; [intros [=]|]. split.
      { split; [intros H; now apply (Hkw found) in H | intros [[=] _]]. }
      split; [intros _ _; split; [apply Hkw | split; reflexivity]|].
      intros score Hg Hgt. unfold Server.score_flagged in Hscore.
      rewrite Hg, Hgt in Hscore. discriminate.
    + destruct (check_getipintel_flagged w ip
                  (Server.check_isp Server.vpnIndicators geo
                     (Server.check_tor w ip Server.acc0)) Hscore)
        as (s & Hg & Hgt & Hcg).
      rewrite Hcg, (check_isp_unflagged _ _ _ Hisp), Ht. cbn.
      split; [intros _ [=]|]. split.
      { split; [intros H; now apply Hsc in H | intros [_ [=]]]. }
      split; [intros [=]|].
      intros score Hg' Hgt'. rewrite Hg in Hg'. injection Hg' as <-.
      repeat split.
      * right. now left.
      * apply Math_min_raised.
    + rewrite (check_getipintel_unflagged _ _ _ Hscore),
        (check_isp_unflagged _ _ _ Hisp), Ht. cbn.
      split; [intros _ _; repeat split|]. split; [split; auto|].
      split; [intros [=]|].
      intros score Hg Hgt. unfold Server.score_flagged in Hscore.
      rewrite Hg, Hgt in Hscore. discriminate.
  - destruct (tor_accumulates _ H0 Vercel.vpnIndicators geo w ip) as [(H1 & H2 & H3) _].
    unfold Vercel.detectVPNProxy, Vercel.detectVPNProxy_try. rewrite Hgeo.
    cbn [bind try_catch isVPN vpnType confidence detectionMethods].
    split; [exact H1|]. split; [exact H2|].
    split; [now apply Math_min_one|]. split; [apply Math_min_one|].
    destruct (Server.isp_flagged Vercel.vpnIndicators geo) eqn:Hisp.
    + destruct (check_isp_flagged _ _ (Server.check_tor w ip Server.acc0) Hisp)
        as [found Hci].
      rewrite Hci, Ht. cbn.
      split; [intros [=]|]. split.
      { split; [intros H; now apply (Hkw found) in H | intros [=]]. }
      intros _. split; [apply Hkw | split; reflexivity].
    + rewrite (check_isp_unflagged _ _ _ Hisp), Ht. cbn.
      split; [intros _; repeat split|]. split; [split; auto|]. intros [=].
Qed.

Lemma C4_tor_verdict_witness :
  isVPN (Server.detectVPNProxy (offline {[ "185.220.101.1" ]} no_geo) "185.220.101.1") = true.
Proof.
  apply (C4_tor_verdict (offline {[ "185.220.101.1" ]} no_geo) "185.220.101.1" None).
  - simpl. set_solver.
  - reflexivity.
Defined.



End Classifier.

(** ** Tracking a visit *)

Section Tracking.
Import JS Model Samples.

Lemma server_connect_fails w st :
  mongo_connect_ok w = false -> Server.db st = false ->
  Server.connectToDatabase w st = st.
Proof.
  intros Hc Hd. unfold Server.connectToDatabase.
  rewrite Hc, Hd, andb_false_r. reflexivity.
Qed.

Lemma server_valid_keeps_ip w req ip0 :
  Server.isValidPublicIP ip0 = true -> Server.detect_ip w req ip0 = ip0.
Proof.
  intros Hv. unfold Server.detect_ip. rewrite Hv.
  destruct (String.eqb_spec ip0 "") as [->|_]; [discriminate Hv|].
  destruct (String.eqb_spec ip0 "unknown") as [->|_]; [discriminate Hv|].
  reflexivity.
Qed.

(** C1, as stated, fails on the Vercel variant: with the store down the
    tracking request is answered with HTTP 500. *)
Lemma C1_vercel_answers_500 :
  let st := {| Vercel.db := false; Vercel.isConnected := false; Vercel.visitors := [] |} in
  let req := request (Some "8.8.8.8") (forwarded_for "8.8.8.8") in
  Vercel.getRealIP req = "8.8.8.8" /\
  Vercel.track_visitor (offline ∅ no_geo) req st =
    (status_json 500 (TrackFailure "Failed to track visitor"), st).
Proof. split; vm_compute; reflexivity. Qed.

(** C1, amended: on the Express server, when no connection can be opened
    and none is cached, every tracking request on which the resolver and
    the geo lookup do not raise is answered with status 200,
    [success: true], the detected address, its location and the verdict of
    the classifier; nothing is stored.  The detected address is the one the
    resolver found whenever that is a public address.  The Vercel variant
    answers HTTP 500 when the store cannot be reached. *)
Theorem C1_tracking_without_store (w : World) (req : Request) :
  mongo_connect_ok w = false ->
  (forall ip, exists geo, geoip_lookup w ip = Ok geo) ->
  (forall st ip0,
     Server.db st = false ->
     Server.getRealIP req = Ok ip0 ->
     exists loc,
       Server.getLocationInfo w (Server.detect_ip w req ip0) = Ok loc /\
       Server.track_visitor w req st =
         (json (TrackSuccess "Visitor tracked successfully"
                  (Server.detect_ip w req ip0)
                  (city loc +:+ ", " +:+ country loc)
                  (isVPN (Server.detectVPNProxy w (Server.detect_ip w req ip0)))),
          st) /\
       (Server.isValidPublicIP ip0 = true -> Server.detect_ip w req ip0 = ip0)) /\
  (forall st,
     Vercel.isConnected st && Vercel.db st = false ->
     status (fst (Vercel.track_visitor w req st)) = 500%nat /\
     Vercel.visitors (snd (Vercel.track_visitor w req st)) = Vercel.visitors st).
Proof.
  intros Hc Hgeo. split.
  - intros st ip0 Hd Hip.
    destruct (Hgeo (Server.detect_ip w req ip0)) as [geo Hg].
    assert (Hloc : exists loc, Server.getLocationInfo w (Server.detect_ip w req ip0) = Ok loc).
    { unfold Server.getLocationInfo. rewrite Hg. simpl. destruct geo; eauto. }
    destruct Hloc as [loc Hloc]. exists loc. split; [exact Hloc|]. split.
    + unfold Server.track_visitor. rewrite (server_connect_fails _ _ Hc Hd).
      unfold Server.track_visitor_try. rewrite Hip. simpl. rewrite Hloc. simpl.
      rewrite Hd. reflexivity.
    + apply server_valid_keeps_ip.
  - intros st Hcache. unfold Vercel.track_visitor, Vercel.connectToDatabase.
    rewrite Hcache, Hc. simpl. split; reflexivity.
Qed.

Lemma C1_tracking_without_store_witness :
  Server.track_visitor (offline ∅ no_geo)
    (request (Some "8.8.8.8") (forwarded_for "8.8.8.8"))
    {| Server.db := false; Server.cachedClient := false; Server.visitors := [] |} =
  (json (TrackSuccess "Visitor tracked successfully" "8.8.8.8" "Unknown, Unknown" false),
   {| Server.db := false; Server.cachedClient := false; Server.visitors := [] |}).
Proof.
  destruct (C1_tracking_without_store (offline ∅ no_geo)
              (request (Some "8.8.8.8") (forwarded_for "8.8.8.8")) eq_refl
              (fun ip => ex_intro _ None eq_refl)) as [H _].
  destruct (H {| Server.db := false; Server.cachedClient := false; Server.visitors := [] |}
              "8.8.8.8" eq_refl eq_refl) as (loc & Hloc & Ht & _).
  rewrite Ht. injection Hloc as <-. reflexivity.
Defined.

End Tracking.

(** ** Colons: IPv6 notation in the validators *)

Section Colons.
Import JS Regex Addr.

Lemma chars_in_sound (P : ascii -> Prop) r w :
  chars_in P r -> matches r w -> Forall P w.
Proof.
  intros Hc Hm. induction Hm; simpl in Hc.
  - constructor.
  - repeat constructor. auto.
  - destruct Hc. apply Forall_app. auto.
  - destruct Hc. auto.
  - destruct Hc. auto.
  - constructor.
  - apply Forall_app. auto.
  - destruct Hc.
Qed.

Lemma prefix_cons c1 p c2 s :
  String.prefix (String c1 p) (String c2 s) = Ascii.eqb c1 c2 && String.prefix p s.
Proof.
  change (String.prefix (String c1 p) (String c2 s))
    with (if ascii_dec c1 c2 then String.prefix p s else false).
  destruct (ascii_dec c1 c2) as [->|Hne].
  - now rewrite Ascii.eqb_refl.
  - apply Ascii.eqb_neq in Hne. now rewrite Hne.
Qed.

Lemma prefix_nil s : String.prefix "" s = true.
Proof. now destruct s. Qed.

Lemma includes_cons needle c s :
  includes needle (String c s) = String.prefix needle (String c s) || includes needle s.
Proof. reflexivity. Qed.

Lemma includes_colon_in s : includes ":" s = true -> In ":"%char (list_ascii_of_string s).
Proof.
  induction s as [|c s IH]; [discriminate|].
  rewrite includes_cons, prefix_cons, prefix_nil, andb_true_r.
  destruct (Ascii.eqb_spec ":" c) as [<-|Hne].
  - intros _. now left.
  - intros H. right. now apply IH.
Qed.

Lemma includes_double_colon s :
  includes "::" s = true -> no_double_colon (list_ascii_of_string s) = false.
Proof.
  induction s as [|c s IH]; [discriminate|].
  rewrite includes_cons. destruct s as [|c' s].
  - rewrite prefix_cons. change (String.prefix ":" "") with false.
    rewrite andb_false_r. discriminate.
  - rewrite !prefix_cons, prefix_nil, andb_true_r.
    change (no_double_colon (list_ascii_of_string (String c (String c' s))))
      with (negb (Ascii.eqb c ":" && Ascii.eqb c' ":")
            && no_double_colon (list_ascii_of_string (String c' s))).
    rewrite (Ascii.eqb_sym c), (Ascii.eqb_sym c').
    destruct (Ascii.eqb ":" c && Ascii.eqb ":" c'); [reflexivity|].
    simpl orb. intros H. rewrite (IH H). apply andb_false_r.
Qed.

Lemma double_colon_has_colon s : includes "::" s = true -> includes ":" s = true.
Proof.
  induction s as [|c s IH]; [discriminate|].
  rewrite !includes_cons. destruct s as [|c' s].
  { rewrite prefix_cons. change (String.prefix ":" "") with false.
    rewrite andb_false_r. discriminate. }
  rewrite !prefix_cons, prefix_nil, andb_true_r.
  destruct (Ascii.eqb ":" c); [reflexivity|].
  simpl orb. intros H. now apply IH.
Qed.

Lemma digit_not_colon c : is_digit c = true -> not_colon c.
Proof. intros H ->. discriminate. Qed.

Lemma hex_not_colon c : is_hex c = true -> not_colon c.
Proof. intros H ->. discriminate. Qed.

Lemma dot_not_colon c : Ascii.eqb "." c = true -> not_colon c.
Proof. intros H ->. discriminate. Qed.

(** No dotted-quad form holds a colon. *)
Lemma ipv4_form_no_colon s :
  test (Anchored (Cat (rep 3 (Cat (rng 1 3 (Chr is_digit)) (chr ".")))
                      (rng 1 3 (Chr is_digit)))) s = true ->
  includes ":" s = false.
Proof.
  intros H. apply test_anchored in H.
  apply (chars_in_sound not_colon) in H.
  - apply not_true_is_false. intros Hi. apply includes_colon_in in Hi.
    rewrite List.Forall_forall in H. now apply (H _ Hi).
  - simpl. unfold chr. simpl.
    repeat split; auto using digit_not_colon, dot_not_colon.
Qed.

Lemma hex_run r w :
  r = rng 1 4 (Chr is_hex) -> matches r w ->
  w <> [] /\ Forall (fun c => is_hex c = true) w.
Proof.
  intros -> H. split.
  - unfold rng in H. simpl in H.
    apply cat_inv in H as (w1 & w2 & -> & H1 & _).
    apply cat_inv in H1 as (w3 & w4 & -> & H3 & _).
    apply chr_inv in H3 as (c & -> & _). discriminate.
  - apply (chars_in_sound (fun c => is_hex c = true)) in H; [exact H|].
    simpl. tauto.
Qed.

Lemma hex_run_tail w :
  w <> [] -> Forall (fun c => is_hex c = true) w -> group_tail w.
Proof.
  intros Hne Hh. split.
  - clear Hne. induction Hh as [|c w Hc Hw IH]; [reflexivity|].
    destruct w as [|c' w]; [reflexivity|].
    change (negb (Ascii.eqb c ":" && Ascii.eqb c' ":") && no_double_colon (c' :: w) = true).
    rewrite IH, andb_true_r.
    destruct (Ascii.eqb_spec c ":") as [->|]; [discriminate Hc | reflexivity].
  - intros w' ->. apply Forall_inv in Hh. discriminate.
Qed.

Lemma hex_block_tail h rest :
  h <> [] -> Forall (fun c => is_hex c = true) h -> group_tail rest ->
  group_tail (h ++ ":"%char :: rest).
Proof.
  intros Hne Hh [Hr Hstart]. split.
  - clear Hne. induction Hh as [|c h Hc Hw IH].
    + simpl. destruct rest as [|c' rest]; [reflexivity|].
      rewrite Hr, andb_true_r. simpl.
      destruct (Ascii.eqb_spec c' ":") as [->|]; [now destruct (Hstart rest) | reflexivity].
    + change ((c :: h) ++ ":"%char :: rest) with (c :: (h ++ ":"%char :: rest)).
      destruct (h ++ ":"%char :: rest) as [|c' t] eqn:Ht; [reflexivity|].
      change (negb (Ascii.eqb c ":" && Ascii.eqb c' ":") && no_double_colon (c' :: t) = true).
      rewrite IH, andb_true_r.
      destruct (Ascii.eqb_spec c ":") as [->|]; [discriminate Hc | reflexivity].
  - intros w' Heq. destruct h as [|c h]; [contradiction|].
    injection Heq as -> _. apply Forall_inv in Hh. discriminate.
Qed.

Lemma hex_groups_tail n : forall w rest,
  matches (rep n (Cat (rng 1 4 (Chr is_hex)) (chr ":"))) w ->
  group_tail rest -> group_tail (w ++ rest).
Proof.
  induction n as [|n IH]; intros w rest Hm Hr; simpl in Hm.
  - apply eps_inv in Hm as ->. exact Hr.
  - apply cat_inv in Hm as (g & w' & -> & Hg & Hw').
    apply cat_inv in Hg as (h & c & -> & Hh & Hc).
    apply chr_inv in Hc as (c' & -> & Hc'). apply Ascii.eqb_eq in Hc' as <-.
    destruct (hex_run _ _ eq_refl Hh) as [Hne Hhex].
    rewrite <- !List.app_assoc. simpl.
    apply hex_block_tail; auto.
Qed.

(** No strict eight-group form holds two colons in a row. *)
Lemma ipv6_form_no_double_colon s :
  test Server.ipv6Regex s = true -> includes "::" s = false.
Proof.
  intros H. apply test_anchored in H.
  apply cat_inv in H as (w1 & w2 & Heq & H1 & H2).
  destruct (hex_run _ _ eq_refl H2) as [Hne Hhex].
  pose proof (hex_groups_tail 7 w1 w2 H1 (hex_run_tail _ Hne Hhex)) as [Hnd _].
  apply not_true_is_false. intros Hi. apply includes_double_colon in Hi.
  rewrite Heq in Hi. congruence.
Qed.

End Colons.

(** ** Eight-group forms and the IPv4-mapped prefix *)

Section Mapped.
Import JS Regex Addr.

Lemma hex_chars_match l :
  forallb is_hex l = true ->
  matches (rep (List.length l) (Chr is_hex)) l.
Proof.
  induction l as [|c l IH]; simpl; [constructor|].
  intros H. apply andb_true_iff in H as [Hc Hl].
  change (c :: l) with ([c] ++ l). constructor; [now constructor | now apply IH].
Qed.

Lemma upto_matches n r : forall k w,
  (k <= n)%nat -> matches (rep k r) w -> matches (upto n r) w.
Proof.
  induction n as [|n IH]; intros k w Hk Hm.
  - assert (k = 0)%nat as -> by lia. exact Hm.
  - destruct k as [|k]; simpl in *.
    + apply MAltL. exact Hm.
    + apply MAltR. apply cat_inv in Hm as (w1 & w2 & -> & H1 & H2).
      constructor; [exact H1|]. apply (IH k); [lia | exact H2].
Qed.

Lemma hex_group_matches g :
  hex_group g = true -> matches (rng 1 4 (Chr is_hex)) (list_ascii_of_string g).
Proof.
  unfold hex_group. intros H.
  apply andb_true_iff in H as [H Hhex]. apply andb_true_iff in H as [Hlo Hhi].
  apply Nat.leb_le in Hlo, Hhi.
  destruct (list_ascii_of_string g) as [|c l]; simpl in *; [lia|].
  apply andb_true_iff in Hhex as [Hc Hl].
  unfold rng. change (c :: l) with (([c] ++ []) ++ l).
  constructor.
  - apply (MCat _ _ [c] []); [now constructor | constructor].
  - apply (upto_matches 3 _ (List.length l)); [lia | now apply hex_chars_match].
Qed.

Lemma hex_group_chars g :
  hex_group g = true ->
  exists c l, list_ascii_of_string g = c :: l /\ is_hex c = true /\
              Forall (fun x => is_hex x = true) l.
Proof.
  unfold hex_group. intros H.
  apply andb_true_iff in H as [H Hhex]. apply andb_true_iff in H as [Hlo _].
  apply Nat.leb_le in Hlo.
  destruct (list_ascii_of_string g) as [|c l]; simpl in *; [lia|].
  apply andb_true_iff in Hhex as [Hc Hl]. exists c, l. repeat split; auto.
  apply List.Forall_forall. now apply forallb_forall.
Qed.

Lemma list_ascii_inj s t : list_ascii_of_string s = list_ascii_of_string t -> s = t.
Proof.
  intros H. rewrite <- (string_of_list_ascii_of_string s),
    <- (string_of_list_ascii_of_string t). now rewrite H.
Qed.

Lemma groups_cons g g' gs :
  list_ascii_of_string (groups (g :: g' :: gs)) =
  list_ascii_of_string g ++ ":"%char :: list_ascii_of_string (groups (g' :: gs)).
Proof.
  change (groups (g :: g' :: gs)) with (g +:+ ":" +:+ groups (g' :: gs)).
  now rewrite !list_ascii_app.
Qed.

(** A literal prefix ending in a colon, against a form that starts with a
    group and a colon: the group is the literal. *)
Lemma prefix_of_group p g rest :
  Forall not_colon p -> Forall not_colon g ->
  (exists w, g ++ ":"%char :: rest = (p ++ [":"%char]) ++ w) -> g = p.
Proof.
  revert g. induction p as [|c p IH]; intros g Hp Hg [w Hw].
  - destruct g as [|c' g]; [reflexivity|]. simpl in Hw. injection Hw as -> _.
    apply Forall_inv in Hg. now destruct Hg.
  - destruct g as [|c' g]; simpl in Hw.
    + injection Hw as <- _. apply Forall_inv in Hp. now destruct Hp.
    + injection Hw as -> Hw. f_equal. apply IH.
      * now apply Forall_inv_tail in Hp.
      * now apply Forall_inv_tail in Hg.
      * now exists w.
Qed.

End Mapped.

Section MappedValidators.
Import JS Regex Addr.

Lemma strip_mapped s : strip_prefix "::ffff:" ("::ffff:" +:+ s) = s.
Proof.
  unfold strip_prefix.
  change ("::ffff:" +:+ s)
    with (String ":" (String ":" (String "f" (String "f" (String "f" (String "f"
            (String ":" s))))))).
  rewrite !prefix_cons, prefix_nil. reflexivity.
Qed.

Lemma strip_unmapped s : startsWith "::ffff:" s = false -> strip_prefix "::ffff:" s = s.
Proof. unfold strip_prefix, startsWith. now intros ->. Qed.

(** Both validators judge [::ffff:x] as they judge [x]. *)
Lemma server_mapped s :
  startsWith "::ffff:" s = false ->
  Server.isValidPublicIP ("::ffff:" +:+ s) = Server.isValidPublicIP s.
Proof.
  intros Hs. unfold Server.isValidPublicIP.
  rewrite strip_mapped, (strip_unmapped _ Hs).
  destruct s as [|c s]; reflexivity.
Qed.

Lemma vercel_mapped s :
  startsWith "::ffff:" s = false ->
  Vercel.isValidPublicIP ("::ffff:" +:+ s) = Vercel.isValidPublicIP s.
Proof.
  intros Hs. unfold Vercel.isValidPublicIP.
  rewrite strip_mapped, (strip_unmapped _ Hs).
  destruct s as [|c s]; reflexivity.
Qed.

(** The Express validator rejects whatever holds [::] once the mapped
    prefix is removed. *)
Lemma server_rejects_compressed ip :
  includes "::" (strip_prefix "::ffff:" ip) = true ->
  Server.isValidPublicIP ip = false.
Proof.
  intros Hi. unfold Server.isValidPublicIP.
  destruct (String.eqb ip ""); [reflexivity|]. cbv zeta.
  destruct (test Server.ipv4Regex (strip_prefix "::ffff:" ip)) eqn:H4.
  - apply ipv4_form_no_colon in H4.
    apply double_colon_has_colon in Hi. congruence.
  - destruct (test Server.ipv6Regex (strip_prefix "::ffff:" ip)) eqn:H6; [|reflexivity].
    apply ipv6_form_no_double_colon in H6. congruence.
Qed.

(** The Vercel validator rejects whatever holds a colon once the mapped
    prefix is removed: no IPv6 form passes, strict or compressed. *)
Lemma vercel_rejects_colon ip :
  includes ":" (strip_prefix "::ffff:" ip) = true ->
  Vercel.isValidPublicIP ip = false.
Proof.
  intros Hi. unfold Vercel.isValidPublicIP.
  destruct (String.eqb ip ""); [reflexivity|]. cbv zeta.
  destruct (test Vercel.ipv4Regex (strip_prefix "::ffff:" ip)) eqn:H4; [|reflexivity].
  apply ipv4_form_no_colon in H4. congruence.
Qed.

End MappedValidators.

Section EightGroups.
Import JS Regex Addr.

Lemma dotted_pattern_false r s :
  (forall w, matches r w -> In "."%char w) ->
  ~ In "."%char (list_ascii_of_string s) ->
  test (Prefixed r) s = false.
Proof.
  intros Hr Hs. apply not_true_is_false. intros H.
  apply test_prefixed in H as (w1 & w2 & Heq & Hm).
  apply Hs. rewrite Heq. apply in_or_app. left. now apply Hr.
Qed.

Lemma lit_has_dot p w :
  In "."%char (list_ascii_of_string p) -> matches (lit p) w -> In "."%char w.
Proof. intros Hp Hm. now apply matches_lit in Hm as ->. Qed.

Lemma cat_lit_has_dot p r w :
  In "."%char (list_ascii_of_string p) -> matches (Cat (lit p) r) w -> In "."%char w.
Proof.
  intros Hp Hm. apply cat_inv in Hm as (w1 & w2 & -> & H1 & _).
  apply in_or_app. left. now apply (lit_has_dot p).
Qed.

Lemma group_pattern_false p g rest s pc :
  list_ascii_of_string s = list_ascii_of_string g ++ ":"%char :: rest ->
  pc = p +:+ ":" ->
  Forall not_colon (list_ascii_of_string p) ->
  Forall not_colon (list_ascii_of_string g) ->
  g <> p ->
  test (Prefixed (lit pc)) s = false.
Proof.
  intros Hs -> Hp Hg Hne. apply not_true_is_false. intros H.
  apply test_prefixed in H as (w1 & w2 & Heq & Hm).
  apply matches_lit in Hm. rewrite list_ascii_app in Hm. subst w1.
  apply Hne. apply list_ascii_inj.
  apply (prefix_of_group _ _ rest); auto.
  exists w2. now rewrite <- Hs.
Qed.

Lemma hex_not_colons l :
  Forall (fun x => is_hex x = true) l -> Forall not_colon l.
Proof.
  intros H. eapply List.Forall_impl; [|exact H]. apply hex_not_colon.
Qed.

Lemma hex_group_not_colons g :
  hex_group g = true -> Forall not_colon (list_ascii_of_string g).
Proof.
  intros H. destruct (hex_group_chars g H) as (c & l & -> & Hc & Hl).
  apply hex_not_colons. now constructor.
Qed.

Lemma hex_group_no_dot g :
  hex_group g = true -> ~ In "."%char (list_ascii_of_string g).
Proof.
  intros H Hin. destruct (hex_group_chars g H) as (c & l & Heq & Hc & Hl).
  rewrite Heq in Hin. assert (Hall : Forall (fun x => is_hex x = true) (c :: l))
    by now constructor.
  rewrite List.Forall_forall in Hall. specialize (Hall _ Hin). discriminate.
Qed.

Lemma groups_no_dot gs :
  forallb hex_group gs = true -> ~ In "."%char (list_ascii_of_string (groups gs)).
Proof.
  induction gs as [|g gs IH]; [intros _ []|].
  intros H. apply andb_true_iff in H as [Hg Hgs].
  destruct gs as [|g' gs].
  - now apply hex_group_no_dot.
  - rewrite groups_cons. intros Hin. apply in_app_or in Hin as [Hin|[Hin|Hin]].
    + now apply (hex_group_no_dot g).
    + discriminate.
    + now apply IH.
Qed.

Lemma groups_match n : forall gs,
  List.length gs = n -> forallb hex_group gs = true ->
  forall g, hex_group g = true ->
  matches (Cat (rep n (Cat (rng 1 4 (Chr is_hex)) (chr ":"))) (rng 1 4 (Chr is_hex)))
    (list_ascii_of_string (groups (gs ++ [g]))).
Proof.
  induction n as [|n IH]; intros gs Hlen Hgs g Hg.
  - destruct gs; [|discriminate].
    apply (MCat _ _ [] (list_ascii_of_string g)); [apply MEps | now apply hex_group_matches].
  - destruct gs as [|g0 gs]; [discriminate|].
    injection Hlen as Hlen. simpl in Hgs. apply andb_true_iff in Hgs as [Hg0 Hgs].
    specialize (IH gs Hlen Hgs g Hg).
    apply cat_inv in IH as (w1 & w2 & Heq & H1 & H2).
    assert (Hs : list_ascii_of_string (groups ((g0 :: gs) ++ [g])) =
                 ((list_ascii_of_string g0 ++ [":"%char]) ++ w1) ++ w2).
    { destruct (gs ++ [g]) as [|g' gs'] eqn:Hgs'.
      - now destruct gs.
      - simpl app. rewrite Hgs', groups_cons, Heq.
        rewrite <- !List.app_assoc. reflexivity. }
    rewrite Hs. apply MCat; [|exact H2].
    apply (MCat (Cat (rng 1 4 (Chr is_hex)) (chr ":"))); [|exact H1].
    apply MCat; [now apply hex_group_matches | apply MChr; reflexivity].
Qed.

(** The Express validator accepts eight groups of one to four hexadecimal
    digits, unless the first group is [fe80], [fc00] or [fd00]. *)
Lemma server_accepts_eight_groups g1 g2 g3 g4 g5 g6 g7 g8 :
  forallb hex_group [g1; g2; g3; g4; g5; g6; g7; g8] = true ->
  g1 <> "fe80" -> g1 <> "fc00" -> g1 <> "fd00" ->
  Server.isValidPublicIP (groups [g1; g2; g3; g4; g5; g6; g7; g8]) = true.
Proof.
  intros Hall N1 N2 N3.
  pose proof (groups_match 7 [g1; g2; g3; g4; g5; g6; g7] eq_refl) as Hm.
  pose proof (groups_no_dot _ Hall) as Hdot.
  pose proof Hall as Hall'. cbn [forallb] in Hall'. rewrite !andb_true_iff in Hall'.
  destruct Hall' as (Hg1 & Hg2 & Hg3 & Hg4 & Hg5 & Hg6 & Hg7 & Hg8 & _).
  assert (H6 : test Server.ipv6Regex (groups [g1; g2; g3; g4; g5; g6; g7; g8]) = true).
  { apply test_anchored. apply (Hm); [|exact Hg8].
    cbn [forallb]. now rewrite Hg1, Hg2, Hg3, Hg4, Hg5, Hg6, Hg7. }
  pose proof (groups_cons g1 g2 [g3; g4; g5; g6; g7; g8]) as Hs.
  destruct (hex_group_chars g1 Hg1) as (c & l & Hg1l & Hc & Hl).
  set (s := groups [g1; g2; g3; g4; g5; g6; g7; g8]) in *.
  assert (Hsc : exists t, s = String c t).
  { exists (string_of_list_ascii
              (l ++ ":"%char :: list_ascii_of_string (groups [g2; g3; g4; g5; g6; g7; g8]))).
    apply list_ascii_inj. rewrite Hs, Hg1l. simpl.
    now rewrite list_ascii_of_string_of_list_ascii. }
  destruct Hsc as [t Hsc].
  assert (Hcc : Ascii.eqb ":" c = false).
  { apply Ascii.eqb_neq. intros <-. discriminate. }
  unfold Server.isValidPublicIP.
  assert (Hclean : strip_prefix "::ffff:" s = s).
  { apply strip_unmapped. unfold startsWith. rewrite Hsc, prefix_cons, Hcc. reflexivity. }
  rewrite Hclean. replace (String.eqb s "") with false by (now rewrite Hsc).
  cbv zeta. rewrite H6. change (negb true) with false. rewrite andb_false_r.
  unfold Server.privateRanges. cbn [existsb].
  pose proof (hex_group_not_colons g1 Hg1) as Hnc.
  rewrite (group_pattern_false "fe80" g1 _ s "fe80:" Hs eq_refl),
    (group_pattern_false "fc00" g1 _ s "fc00:" Hs eq_refl),
    (group_pattern_false "fd00" g1 _ s "fd00:" Hs eq_refl); auto;
    try (repeat constructor; intros ?; discriminate).
  rewrite !dotted_pattern_false;
    try exact Hdot;
    try (intros w; apply lit_has_dot; simpl; tauto);
    try (intros w; apply cat_lit_has_dot; simpl; tauto).
  replace (test (Anchored (lit "::1")) s) with false; [reflexivity|].
  symmetry. apply not_true_is_false. intros H. apply test_anchored, matches_lit in H.
  rewrite Hsc in H. simpl in H. injection H as Hc' _.
  rewrite Hc' in Hcc. discriminate Hcc.
Qed.

End EightGroups.

(** ** The claims on the validators *)

Section ValidatorClaims.
Import JS Regex Addr.

(** C3 on the Express server: 172.30.0.1 lies in 172.16.0.0/12 and is
    accepted as public, and the public 172.32.0.1 is rejected; the Vercel
    variant judges both as the claim says. *)
Theorem C3_server_172_block :
  quad 172 30 0 1 = "172.30.0.1" /\ private_v4 172 30 = true /\
  Server.isValidPublicIP "172.30.0.1" = true /\
  Vercel.isValidPublicIP "172.30.0.1" = false /\
  private_v4 172 32 = false /\
  Server.isValidPublicIP "172.32.0.1" = false /\
  Vercel.isValidPublicIP "172.32.0.1" = true.
Proof. repeat split; vm_compute; reflexivity. Qed.

(** C6, as stated, fails on the Vercel variant: a strict eight-group
    address outside every excluded range is rejected. *)
Lemma C6_vercel_rejects_eight_groups :
  Vercel.isValidPublicIP "2001:db8:0:0:0:0:0:1" = false /\
  Server.isValidPublicIP "2001:db8:0:0:0:0:0:1" = true.
Proof. split; vm_compute; reflexivity. Qed.

(** C6, amended: both validators judge [::ffff:x] as they judge [x]; the
    Express validator accepts eight colon-separated groups of one to four
    hexadecimal digits unless the first group is [fe80], [fc00] or [fd00],
    and rejects everything that holds [::] after the mapped prefix; the
    Vercel validator rejects everything that holds a colon after the mapped
    prefix, strict eight-group forms included. *)
Theorem C6_mapped_prefix_and_ipv6 :
  (forall s, startsWith "::ffff:" s = false ->
     Server.isValidPublicIP ("::ffff:" +:+ s) = Server.isValidPublicIP s /\
     Vercel.isValidPublicIP ("::ffff:" +:+ s) = Vercel.isValidPublicIP s) /\
  (forall g1 g2 g3 g4 g5 g6 g7 g8,
     forallb hex_group [g1; g2; g3; g4; g5; g6; g7; g8] = true ->
     g1 <> "fe80" -> g1 <> "fc00" -> g1 <> "fd00" ->
     Server.isValidPublicIP (groups [g1; g2; g3; g4; g5; g6; g7; g8]) = true) /\
  (forall ip, includes "::" (strip_prefix "::ffff:" ip) = true ->
     Server.isValidPublicIP ip = false) /\
  (forall ip, includes ":" (strip_prefix "::ffff:" ip) = true ->
     Vercel.isValidPublicIP ip = false).
Proof.
  split; [|split; [|split]].
  - intros s Hs. split; [now apply server_mapped | now apply vercel_mapped].
  - apply server_accepts_eight_groups.
  - apply server_rejects_compressed.
  - apply vercel_rejects_colon.
Qed.

Lemma C6_mapped_prefix_and_ipv6_witness :
  Server.isValidPublicIP "::ffff:8.8.8.8" = Server.isValidPublicIP "8.8.8.8" /\
  Server.isValidPublicIP (groups ["2001"; "db8"; "0"; "0"; "0"; "0"; "0"; "1"]) = true /\
  Server.isValidPublicIP "2001:db8::1" = false /\
  Vercel.isValidPublicIP "2001:db8:0:0:0:0:0:1" = false.
Proof.
  destruct C6_mapped_prefix_and_ipv6 as (H1 & H2 & H3 & H4).
  split; [|split; [|split]].
  - apply (H1 "8.8.8.8"). reflexivity.
  - apply H2; [reflexivity | discriminate | discriminate | discriminate].
  - apply H3. reflexivity.
  - apply H4. reflexivity.
Defined.

End ValidatorClaims.

(** ** What the resolvers hand on *)

Section ResolvedAddress.
Import JS Regex Model Addr.

Lemma prefix_includes p s : String.prefix p s = true -> includes p s = true.
Proof. destruct s; simpl; intros ->; reflexivity. Qed.

Lemma prefix_app p q s : String.prefix (p +:+ q) s = true -> String.prefix p s = true.
Proof.
  revert s. induction p as [|c p IH]; intros s; [intros _; apply prefix_nil|].
  destruct s as [|c' s]; [discriminate|].
  change (String c p +:+ q) with (String c (p +:+ q)).
  rewrite !prefix_cons. intros H. apply andb_true_iff in H as [-> H].
  now rewrite (IH _ H).
Qed.

Lemma mapped_has_colons s :
  startsWith "::ffff:" s = true -> includes "::" s = true /\ includes ":" s = true.
Proof.
  unfold startsWith. intros H.
  assert (H2 : includes "::" s = true).
  { apply prefix_includes. now apply (prefix_app "::" "ffff:"). }
  split; [exact H2 | now apply double_colon_has_colon].
Qed.

(** A form the Vercel validator accepts carries no second mapped prefix:
    removing the prefix once leaves an accepted form. *)
Lemma vercel_valid_stripped ip :
  Vercel.isValidPublicIP ip = true ->
  Vercel.isValidPublicIP (strip_prefix "::ffff:" ip) = true.
Proof.
  intros Hv. pose proof Hv as Hv'. unfold Vercel.isValidPublicIP in Hv'.
  destruct (String.eqb ip ""); [discriminate|]. cbv zeta in Hv'.
  set (s := strip_prefix "::ffff:" ip) in *.
  destruct (test Vercel.ipv4Regex s) eqn:H4; [|discriminate]. simpl in Hv'.
  assert (Hs : startsWith "::ffff:" s = false).
  { apply not_true_is_false. intros H. apply mapped_has_colons in H as [_ H].
    apply ipv4_form_no_colon in H4. congruence. }
  unfold Vercel.isValidPublicIP. rewrite (strip_unmapped _ Hs).
  destruct (String.eqb_spec s "") as [Hes|_]; [rewrite Hes in H4; discriminate|].
  cbv zeta. rewrite H4. exact Hv'.
Qed.

Lemma server_valid_stripped ip :
  Server.isValidPublicIP ip = true ->
  Server.isValidPublicIP (strip_prefix "::ffff:" ip) = true.
Proof.
  intros Hv. pose proof Hv as Hv'. unfold Server.isValidPublicIP in Hv'.
  destruct (String.eqb ip ""); [discriminate|]. cbv zeta in Hv'.
  set (s := strip_prefix "::ffff:" ip) in *.
  destruct (negb (test Server.ipv4Regex s) && negb (test Server.ipv6Regex s)) eqn:Hf;
    [discriminate|].
  assert (Hs : startsWith "::ffff:" s = false).
  { apply not_true_is_false. intros H. apply mapped_has_colons in H as [H2 H1].
    destruct (test Server.ipv4Regex s) eqn:H4.
    - apply ipv4_form_no_colon in H4. congruence.
    - destruct (test Server.ipv6Regex s) eqn:H6; [|discriminate].
      apply ipv6_form_no_double_colon in H6. congruence. }
  unfold Server.isValidPublicIP. rewrite (strip_unmapped _ Hs).
  destruct (String.eqb_spec s "") as [Hes|_]; [rewrite Hes in Hf; discriminate|].
  cbv zeta. rewrite Hf. exact Hv'.
Qed.

Lemma vercel_scan_valid hdrs names ip :
  Vercel.scan_headers hdrs names = Some ip -> Vercel.isValidPublicIP ip = true.
Proof.
  induction names as [|h names IH]; simpl; [discriminate|].
  destruct (truthy (hdrs !! h)) as [v|]; [|exact IH].
  destruct (Vercel.isValidPublicIP (trim (hd "" (split "," v)))) eqn:Hv; [|exact IH].
  now intros [= <-].
Qed.

(** The validator of the Vercel variant tests the form and the private
    prefixes only, so the resolver lets through octets out of range, a
    private address written with a leading zero and the unspecified
    address. *)
Example vercel_resolver_lets_through :
  Vercel.getRealIP (Samples.request None (Samples.forwarded_for "999.999.999.999"))
    = "999.999.999.999" /\
  Vercel.getRealIP (Samples.request None (Samples.forwarded_for "010.0.0.1"))
    = "010.0.0.1" /\
  Vercel.getRealIP (Samples.request (Some "::ffff:0.0.0.0") ∅) = "0.0.0.0".
Proof. vm_compute. repeat split. Qed.

(** Whatever the Vercel resolver returns is "unknown" or a string its own
    validator [isValidPublicIP] accepts; the guarantee is the validator's
    and no more. *)
Theorem vercel_resolver_public (req : Request) :
  Vercel.getRealIP req = "unknown" \/
  Vercel.isValidPublicIP (Vercel.getRealIP req) = true.
Proof.
  unfold Vercel.getRealIP.
  destruct (Vercel.scan_headers _ _) as [ip|] eqn:Hs.
  - right. now apply (vercel_scan_valid _ _ _ Hs).
  - destruct (truthy (req_ip req)) as [ip|]; [|now left].
    destruct (Vercel.isValidPublicIP ip) eqn:Hv; [|now left].
    right. now apply vercel_valid_stripped.
Qed.

Lemma try_services_valid w urls ip :
  Server.try_services w urls = Some ip -> Server.isValidPublicIP ip = true.
Proof.
  induction urls as [|u urls IH]; simpl; [discriminate|].
  destruct (bind (http_get w u) Server.extract_ip) as [[|s|]|]; try exact IH.
  destruct (Server.isValidPublicIP s) eqn:Hv; [|exact IH].
  now intros [= <-].
Qed.

(** Whatever the resolver of the Express server returned, the address the
    tracking handler works with and stores is "unknown" or passes the
    validator. *)
Theorem server_detected_public (w : World) (req : Request) (ip0 : string) :
  Server.detect_ip w req ip0 = "unknown" \/
  Server.isValidPublicIP (Server.detect_ip w req ip0) = true.
Proof.
  unfold Server.detect_ip.
  destruct (Server.isValidPublicIP ip0) eqn:Hv.
  - destruct (String.eqb ip0 "" || String.eqb ip0 "unknown") eqn:He; simpl.
    + unfold Server.getExternalIPInfo.
      destruct (Server.try_services w Server.services) as [e|] eqn:Ht; [|now left].
      right. now apply (try_services_valid _ _ _ Ht).
    + now right.
  - rewrite orb_true_r. unfold Server.getExternalIPInfo.
    destruct (Server.try_services w Server.services) as [e|] eqn:Ht; [|now left].
    right. now apply (try_services_valid _ _ _ Ht).
Qed.

End ResolvedAddress.

Section ResolverOutcomes.
Import JS Regex Model Samples.

(** The resolver of the Express server raises exactly when step 1 gives
    nothing and one of the listed proxy headers is present and not empty;
    no proxy header ever supplies its answer. *)
Theorem server_resolver_raises_iff (req : Request) :
  ((exists e, Server.getRealIP req = Throw e) <->
   Server.method1 req = None /\
   exists h, In h Server.proxyHeaders /\ truthy (req_headers req !! h) <> None) /\
  (forall ip, Server.getRealIP req = Ok ip ->
     Server.method1 req = Some ip \/
     Server.scan_connections [ connection_remoteAddress req; socket_remoteAddress req;
                               connection_socket_remoteAddress req ] = Some ip \/
     ip = "unknown").
Proof.
  unfold Server.getRealIP.
  destruct (Server.method1 req) as [ip1|] eqn:H1.
  - split.
    + split; [intros [e He]; discriminate | intros [H _]; discriminate].
    + intros ip [= <-]. now left.
  - assert (Hcases : (exists h, In h Server.proxyHeaders /\
                                truthy (req_headers req !! h) <> None) \/
                     (forall h, In h Server.proxyHeaders ->
                                truthy (req_headers req !! h) = None)).
    { induction Server.proxyHeaders as [|h hs IH].
      - right. intros h [].
      - destruct (truthy (req_headers req !! h)) eqn:Ht.
        + left. exists h. split; [now left | congruence].
        + destruct IH as [(h' & Hin & Hh')|IH].
          * left. exists h'. split; [now right | exact Hh'].
          * right. intros h' [<-|Hin]; auto. }
    destruct Hcases as [Hsome|Hnone].
    + rewrite (server_scan_throws _ _ Hsome). cbn [bind]. split.
      * split; [intros _; split; [reflexivity | exact Hsome] | intros _; eauto].
      * intros ip H. discriminate.
    + rewrite (server_scan_absent _ _ Hnone). cbn [bind]. split.
      * split.
        -- intros [e He]. destruct (Server.scan_connections _); discriminate.
        -- intros [_ (h & Hin & Hh)]. exfalso. apply Hh. now apply Hnone.
      * intros ip H. right.
        destruct (Server.scan_connections _) as [ipc|]; injection H as <-; auto.
Qed.

(** The Vercel resolver gives [x-forwarded-for] the first word: when the
    first comma-separated token of that header, trimmed, passes the
    validator, it is the answer, whatever the other headers and [req.ip]
    say. *)
Theorem vercel_forwarded_first (req : Request) (v : string) :
  req_headers req !! "x-forwarded-for" = Some v ->
  Vercel.isValidPublicIP (trim (hd "" (split "," v))) = true ->
  Vercel.getRealIP req = trim (hd "" (split "," v)).
Proof.
  intros Hx Hv. unfold Vercel.getRealIP, Vercel.vercelHeaders. simpl.
  rewrite Hx. simpl.
  destruct (String.eqb_spec v "") as [->|_]; [discriminate Hv|].
  now rewrite Hv.
Qed.

Lemma vercel_forwarded_first_witness :
  Vercel.getRealIP (request (Some "::1") (forwarded_for "8.8.8.8, 10.0.0.5")) = "8.8.8.8".
Proof.
  apply (vercel_forwarded_first
           (request (Some "::1") (forwarded_for "8.8.8.8, 10.0.0.5")) "8.8.8.8, 10.0.0.5");
    reflexivity.
Defined.

End ResolverOutcomes.

(** ** Runs of the cleanup utility *)

Section CleanupRuns.
Import JS CleanDb.

Lemma remove_collection_incl name st c :
  In c (remove_collection name st) -> In c st.
Proof. unfold remove_collection. intros H. now apply filter_In in H as [H _]. Qed.

Lemma drop_one_incl w tr st d r name c :
  In c (loop_store (drop_one w (tr, st, d, r) name)) -> In c st.
Proof.
  unfold drop_one, loop_store.
  destruct (cw_count w name); [|auto].
  destruct (cw_drop w name) as [[|]|]; simpl; auto.
  apply remove_collection_incl.
Qed.

Lemma drop_loop_incl w names : forall tr st d r c,
  In c (loop_store (fold_left (drop_one w) names (tr, st, d, r))) -> In c st.
Proof.
  induction names as [|n names IH]; intros tr st d r c H; [exact H|].
  cbn [fold_left] in H.
  destruct (drop_one w (tr, st, d, r) n) as [[[tr1 st1] d1] r1] eqn:H1.
  apply IH in H. apply (drop_one_incl w tr st d r n). now rewrite H1.
Qed.

(** The tool creates nothing and changes no count: whatever is in the
    database after a run was there before, under any behaviour of the
    server and any arguments. *)
Theorem cleanup_only_removes (argv : list string) (w : World) (st : Store) :
  forall c, In c (store (main argv w st)) -> In c st.
Proof.
  intros c. unfold main. destruct (array_includes "--confirm" argv); [|auto].
  unfold cleanDatabase, failed, finally.
  destruct (cw_connect w); [|auto].
  destruct (cw_list w 0); [|auto].
  destruct (List.length (map fst st) =? 0)%nat; [destruct (cw_close w); auto|].
  destruct (fold_left _ _ _) as [[[tr3 st3] d] r] eqn:Hf.
  assert (Hincl : In c st3 -> In c st).
  { intros H. eapply (drop_loop_incl w (map fst st)). rewrite Hf. exact H. }
  destruct (cw_list w 1); [|exact Hincl].
  destruct (List.length (map fst st3) =? 0)%nat; destruct (cw_close w); exact Hincl.
Qed.

(** When the connection cannot be opened the run ends with exit code 1
    having listed, counted, dropped and closed nothing, and the database is
    as it was. *)
Theorem cleanup_connect_failure (argv : list string) (w : World) (st : Store) (e : error) :
  cw_connect w = Throw e ->
  In "--confirm" argv ->
  store (main argv w st) = st /\
  outcome (main argv w st) = Exited 1 /\
  existsb touches_database (trace (main argv w st)) = false /\
  List.last (trace (main argv w st)) (Log MsgWarning) = Exit 1.
Proof.
  intros Hc Hin. unfold main.
  assert (Ha : array_includes "--confirm" argv = true).
  { apply existsb_exists. exists "--confirm". split; [exact Hin | apply String.eqb_refl]. }
  rewrite Ha. unfold cleanDatabase. rewrite Hc. unfold failed. simpl.
  repeat split.
  - destruct (includes "authentication failed" (err_message e)); [reflexivity|].
    destruct (includes "ENOTFOUND" (err_message e)); reflexivity.
  - destruct (includes "authentication failed" (err_message e)); [reflexivity|].
    destruct (includes "ENOTFOUND" (err_message e)); reflexivity.
Qed.

Lemma cleanup_connect_failure_witness :
  outcome (main ["node"; "cleandb.js"; "--confirm"]
             {| cw_connect := Throw (Err "MongoServerError" "authentication failed");
                cw_list := fun _ => Ok tt; cw_count := fun _ => Ok tt;
                cw_drop := fun _ => Ok true; cw_close := Ok tt |}
             [("visitors", 3%nat)]) = Exited 1.
Proof.
  apply (cleanup_connect_failure _ _ _ (Err "MongoServerError" "authentication failed")).
  - reflexivity.
  - simpl. tauto.
Defined.

Lemma filter_remove_comm name (p : string * nat -> bool) st :
  List.filter p (remove_collection name st) =
  List.filter (fun c => negb (String.eqb (fst c) name) && p c) st.
Proof.
  unfold remove_collection. induction st as [|c st IH]; simpl; [reflexivity|].
  destruct (String.eqb (fst c) name); simpl; [exact IH|].
  destruct (p c); [now f_equal | exact IH].
Qed.

Lemma drop_loop_obliging w names :
  (forall name, cw_count w name = Ok tt) ->
  (forall name, cw_drop w name = Ok true) ->
  forall tr st d r,
    loop_store (fold_left (drop_one w) names (tr, st, d, r)) =
    List.filter (fun c => negb (existsb (String.eqb (fst c)) names)) st.
Proof.
  intros Hcount Hdrop. induction names as [|n names IH]; intros tr st d r.
  - unfold loop_store. simpl.
    induction st as [|c st IHst]; simpl; [reflexivity | now f_equal].
  - cbn [fold_left]. unfold drop_one at 2. rewrite Hcount, Hdrop.
    rewrite IH, filter_remove_comm.
    apply filter_ext. intros c. cbn [existsb]. now rewrite negb_orb.
Qed.

Lemma filter_own_names (st : Store) :
  List.filter (fun c => negb (existsb (String.eqb (fst c)) (map fst st))) st = [].
Proof.
  assert (H : forall names, (forall c, In c st -> In (fst c) names) ->
              List.filter (fun c => negb (existsb (String.eqb (fst c)) names)) st = []).
  { intros names. induction st as [|c st IH]; intros Hin; [reflexivity|].
    simpl. replace (existsb (String.eqb (fst c)) names) with true.
    - simpl. apply IH. intros c' Hc'. apply Hin. now right.
    - symmetry. apply existsb_exists. exists (fst c).
      split; [apply Hin; now left | apply String.eqb_refl]. }
  apply H. intros c Hc. now apply in_map.
Qed.

(** With [--confirm] and an obliging server the run empties the database,
    and a second run on the result drops nothing and completes: the tool
    can be run again on an empty database. *)
Theorem cleanup_empties_then_idles (argv : list string) (w : World) (st : Store) :
  obliging w ->
  In "--confirm" argv ->
  store (main argv w st) = [] /\
  outcome (main argv w st) = Completed /\
  existsb is_drop (trace (main argv w (store (main argv w st)))) = false /\
  outcome (main argv w (store (main argv w st))) = Completed.
Proof.
  intros (Hc & Hl & Hcount & Hdrop & Hclose) Hin.
  assert (Ha : array_includes "--confirm" argv = true).
  { apply existsb_exists. exists "--confirm". split; [exact Hin | apply String.eqb_refl]. }
  assert (Hempty : store (main argv w st) = [] /\ outcome (main argv w st) = Completed).
  { unfold main. rewrite Ha. unfold cleanDatabase, finally. rewrite Hc, !Hl, Hclose.
    destruct (List.length (map fst st) =? 0)%nat eqn:Hlen.
    - destruct st; [split; reflexivity | discriminate].
    - destruct (fold_left _ _ _) as [[[tr3 st3] d] r] eqn:Hf.
      assert (Hst3 : st3 = []).
      { change st3 with (loop_store (tr3, st3, d, r)). rewrite <- Hf.
        rewrite (drop_loop_obliging w _ Hcount Hdrop). apply filter_own_names. }
      subst st3. split; reflexivity. }
  destruct Hempty as [He Ho]. rewrite He. split; [reflexivity|]. split; [exact Ho|].
  unfold main. rewrite Ha. unfold cleanDatabase, finally. rewrite Hc, !Hl, Hclose.
  split; reflexivity.
Qed.

Lemma cleanup_empties_then_idles_witness :
  store (main ["node"; "cleandb.js"; "--confirm"]
           {| cw_connect := Ok tt; cw_list := fun _ => Ok tt; cw_count := fun _ => Ok tt;
              cw_drop := fun _ => Ok true; cw_close := Ok tt |}
           [("visitors", 3%nat); ("sessions", 0%nat)]) = [].
Proof.
  apply cleanup_empties_then_idles.
  - repeat split; reflexivity.
  - simpl. tauto.
Defined.

End CleanupRuns.

(** ** Verdicts *)

Section Verdicts.
Import JS Model Samples.

Lemma num_gt_lt a b : num_gt a b = true -> (b < a)%Q.
Proof.
  unfold num_gt. intros H. apply negb_true_iff in H.
  apply Qnot_le_lt. intros Hle. apply Qle_bool_iff in Hle. congruence.
Qed.

Lemma Math_min_bounds a : (0 <= a)%Q -> (0 <= Math_min a 1)%Q /\ (Math_min a 1 <= 1)%Q.
Proof.
  intros Ha. unfold Math_min. destruct (Qle_bool a 1) eqn:H.
  - apply Qle_bool_iff in H. now split.
  - split; [discriminate | apply Qle_refl].
Qed.

Lemma Math_min_above a b : (b < a)%Q -> (b < 1)%Q -> (b < Math_min a 1)%Q.
Proof. intros Ha Hb. unfold Math_min. now destruct (Qle_bool a 1). Qed.

Lemma max_keeps_above a b : ((5 # 10) < a)%Q -> ((5 # 10) < Math_max a b)%Q.
Proof. intros H. eapply Qlt_le_trans; [exact H | apply Math_max_ge]. Qed.

Lemma max_right_above a b : ((5 # 10) < b)%Q -> ((5 # 10) < Math_max a b)%Q.
Proof. intros H. eapply Qlt_le_trans; [exact H | apply Math_max_ge]. Qed.

Lemma check_tor_state w ip a :
  Server.silent a \/ Server.fired a -> Server.silent (Server.check_tor w ip a) \/ Server.fired (Server.check_tor w ip a).
Proof.
  intros H. unfold Server.check_tor. destruct (bool_decide _); [|exact H].
  right. repeat split; simpl.
  - intros Hnil. now apply app_eq_nil in Hnil as [_ Hnil].
Qed.

Lemma check_isp_state indicators geo a :
  Server.silent a \/ Server.fired a ->
  Server.silent (Server.check_isp indicators geo a) \/ Server.fired (Server.check_isp indicators geo a).
Proof.
  intros H. unfold Server.check_isp.
  destruct geo as [g|]; [|exact H].
  destruct (truthy (geo_org g)); [|exact H].
  destruct (array_find _ _); [|exact H].
  right. repeat split; simpl.
  - intros Hnil. now apply app_eq_nil in Hnil as [_ Hnil].
  - apply max_right_above. reflexivity.
Qed.

Lemma check_getipintel_state w ip a :
  Server.silent a \/ Server.fired a ->
  Server.silent (Server.check_getipintel w ip a) \/ Server.fired (Server.check_getipintel w ip a).
Proof.
  intros H. unfold Server.check_getipintel.
  destruct (getipintel w ip) as [[score|]|]; try exact H.
  destruct (num_gt score (5 # 10)) eqn:Hs; [|exact H].
  right. repeat split; simpl.
  - intros Hnil. now apply app_eq_nil in Hnil as [_ Hnil].
  - apply max_right_above. now apply num_gt_lt.
Qed.

Lemma silent_acc0 : Server.silent Server.acc0.
Proof. repeat split. Qed.

(** A verdict computed without an error is negative exactly when no method
    Server.fired, and then has type "none" and confidence 0; a positive verdict
    has a confidence above 0.5; the confidence never leaves [0, 1],
    whatever score the reputation service reports. *)
Theorem verdict_shape (w : World) (ip : string) (geo : option Geo) :
  geoip_lookup w ip = Ok geo ->
  forall v, v = Server.detectVPNProxy w ip \/ v = Vercel.detectVPNProxy w ip ->
  (isVPN v = false <-> detectionMethods v = []) /\
  (isVPN v = false -> vpnType v = "none" /\ confidence v = 0%Q) /\
  (isVPN v = true -> ((5 # 10) < confidence v)%Q) /\
  (0 <= confidence v)%Q /\ (confidence v <= 1)%Q.
Proof.
  intros Hgeo v Hv.
  assert (Hacc : exists a, (Server.silent a \/ Server.fired a) /\
                   isVPN v = Server.a_isVPN a /\ vpnType v = Server.a_vpnType a /\
                   confidence v = Math_min (Server.a_confidence a) 1 /\
                   detectionMethods v = Server.a_methods a).
  { destruct Hv as [-> | ->].
    - unfold Server.detectVPNProxy, Server.detectVPNProxy_try. rewrite Hgeo. simpl.
      eexists. split; [|repeat split].
      apply check_getipintel_state, check_isp_state, check_tor_state.
      left. apply silent_acc0.
    - unfold Vercel.detectVPNProxy, Vercel.detectVPNProxy_try. rewrite Hgeo. simpl.
      eexists. split; [|repeat split].
      apply check_isp_state, check_tor_state. left. apply silent_acc0. }
  destruct Hacc as (a & Hstate & -> & -> & -> & ->).
  destruct Hstate as [(H1 & H2 & H3 & H4) | (H1 & H2 & H3)].
  - rewrite H1, H2, H3, H4. repeat split; try discriminate; try reflexivity.
  - rewrite H1. repeat split; try discriminate; try congruence.
    + intros _. apply Math_min_above; [exact H3 | reflexivity].
    + apply Math_min_bounds. apply Qlt_le_weak. eapply Qlt_trans; [|exact H3]. reflexivity.
    + apply Math_min_bounds. apply Qlt_le_weak. eapply Qlt_trans; [|exact H3]. reflexivity.
Qed.

Lemma verdict_shape_witness :
  (confidence (Server.detectVPNProxy
                 (offline {[ "185.220.101.1" ]} (geo_of_org "Amazon Technologies Inc"))
                 "185.220.101.1") <= 1)%Q.
Proof.
  eapply (verdict_shape (offline {[ "185.220.101.1" ]} (geo_of_org "Amazon Technologies Inc"))
            "185.220.101.1" _ eq_refl _ (or_introl eq_refl)).
Defined.

(** An organisation name that holds one of the keywords, in any letter
    case, makes the verdict positive with [isp_analysis] among the methods
    and a confidence of at least 0.7. *)
Theorem isp_keyword_flags (w : World) (ip : string) (geo : option Geo) :
  geoip_lookup w ip = Ok geo ->
  (Server.isp_flagged Server.vpnIndicators geo = true ->
   let v := Server.detectVPNProxy w ip in
   isVPN v = true /\ In "isp_analysis" (detectionMethods v) /\
   ((7 # 10) <= confidence v)%Q) /\
  (Server.isp_flagged Vercel.vpnIndicators geo = true ->
   let v := Vercel.detectVPNProxy w ip in
   isVPN v = true /\ In "isp_analysis" (detectionMethods v) /\
   ((7 # 10) <= confidence v)%Q /\
   (vpnType v = "vpn" \/ vpnType v = "hosting/proxy")).
Proof.
  intros Hgeo.
  assert (Hisp : forall indicators a,
            Server.isp_flagged indicators geo = true ->
            let a2 := Server.check_isp indicators geo a in
            Server.a_isVPN a2 = true /\ In "isp_analysis" (Server.a_methods a2) /\
            ((7 # 10) <= Server.a_confidence a2)%Q /\
            (Server.a_vpnType a2 = "vpn" \/ Server.a_vpnType a2 = "hosting/proxy")).
  { intros indicators a Hf. unfold Server.isp_flagged in Hf. unfold Server.check_isp.
    destruct geo as [g|]; [|discriminate].
    destruct (truthy (geo_org g)) as [o|]; [|discriminate].
    unfold array_find. destruct (List.find _ indicators) as [found|] eqn:Hfind.
    - simpl. repeat split.
      + apply in_or_app. right. now left.
      + apply Math_max_ge.
      + destruct (includes "vpn" found); auto.
    - exfalso. apply existsb_exists in Hf as (x & Hx & Hp).
      now rewrite (find_none _ _ Hfind x Hx) in Hp. }
  assert (Hmin : forall c, ((7 # 10) <= c)%Q -> ((7 # 10) <= Math_min c 1)%Q).
  { intros c Hc. unfold Math_min. destruct (Qle_bool c 1); [exact Hc | discriminate]. }
  split.
  - intros Hf. cbv zeta.
    unfold Server.detectVPNProxy, Server.detectVPNProxy_try. rewrite Hgeo. simpl.
    destruct (Hisp Server.vpnIndicators (Server.check_tor w ip Server.acc0) Hf)
      as (H1 & H2 & H3 & _).
    set (a2 := Server.check_isp _ _ _) in *.
    assert (H3' : Server.a_isVPN (Server.check_getipintel w ip a2) = true /\
                  In "isp_analysis" (Server.a_methods (Server.check_getipintel w ip a2)) /\
                  ((7 # 10) <= Server.a_confidence (Server.check_getipintel w ip a2))%Q).
    { unfold Server.check_getipintel.
      destruct (getipintel w ip) as [[score|]|]; auto.
      destruct (num_gt score (5 # 10)); auto. simpl. repeat split.
      - apply in_or_app. now left.
      - eapply Qle_trans; [exact H3 | apply Math_max_ge]. }
    destruct H3' as (H5 & H6 & H7). repeat split; auto.
  - intros Hf. cbv zeta.
    unfold Vercel.detectVPNProxy, Vercel.detectVPNProxy_try. rewrite Hgeo. simpl.
    destruct (Hisp Vercel.vpnIndicators (Server.check_tor w ip Server.acc0) Hf)
      as (H1 & H2 & H3 & H4).
    repeat split; auto.
Qed.

Lemma isp_keyword_flags_witness :
  isVPN (Server.detectVPNProxy (offline ∅ (geo_of_org "Amazon Technologies Inc")) "3.3.3.3")
  = true.
Proof.
  destruct (isp_keyword_flags (offline ∅ (geo_of_org "Amazon Technologies Inc")) "3.3.3.3"
              _ eq_refl) as [H _].
  apply H. reflexivity.
Defined.

End Verdicts.

(** ** What the handlers do to the store *)

Section Storage.
Import JS Model Mongo Samples.

Lemma server_location_total w ip :
  (forall ip, exists geo, geoip_lookup w ip = Ok geo) ->
  exists loc, Server.getLocationInfo w ip = Ok loc.
Proof.
  intros H. destruct (H ip) as [geo Hg]. unfold Server.getLocationInfo.
  rewrite Hg. simpl. destruct geo; eauto.
Qed.

(** With the store reachable, a tracking request on which the resolver and
    the geo lookup do not raise is answered with status 200 and adds exactly
    one record at the end of the collection: the detected address, the
    verdict of the classifier on it and the time of the request. *)
Theorem server_tracking_persists (w : World) (req : Request) (st : Server.State)
    (ip0 : string) :
  mongo_connect_ok w = true -> mongo_insert_ok w = true ->
  Server.getRealIP req = Ok ip0 ->
  (forall ip, exists geo, geoip_lookup w ip = Ok geo) ->
  exists r,
    Server.visitors (snd (Server.track_visitor w req st)) = Server.visitors st ++ [r] /\
    ipv4 r = Server.detect_ip w req ip0 /\
    vpnInfo r = Server.detectVPNProxy w (ipv4 r) /\
    Server.getLocationInfo w (ipv4 r) = Ok (location r) /\
    timestamp r = now w /\
    status (fst (Server.track_visitor w req st)) = 200%nat.
Proof.
  intros Hc Hi Hip Hgeo.
  destruct (server_location_total w (Server.detect_ip w req ip0) Hgeo) as [loc Hloc].
  assert (Hdb : Server.db (Server.connectToDatabase w st) = true).
  { unfold Server.connectToDatabase. rewrite Hc.
    destruct (Server.cachedClient st && Server.db st) eqn:Hcache; [|reflexivity].
    now apply andb_true_iff in Hcache as [_ ->]. }
  assert (Hv : Server.visitors (Server.connectToDatabase w st) = Server.visitors st).
  { unfold Server.connectToDatabase. rewrite Hc.
    now destruct (Server.cachedClient st && Server.db st). }
  unfold Server.track_visitor, Server.track_visitor_try.
  rewrite Hip. cbn [bind]. rewrite Hloc. cbn [bind]. rewrite Hdb, Hi. cbn [bind try_catch].
  eexists. cbn [snd fst Server.visitors]. rewrite Hv.
  split; [reflexivity|]. repeat split. exact Hloc.
Qed.

Lemma server_tracking_persists_witness :
  List.length (Server.visitors (snd (Server.track_visitor online
                 (request (Some "8.8.8.8") ∅)
                 {| Server.db := false; Server.cachedClient := false;
                    Server.visitors := [] |}))) = 1%nat.
Proof.
  destruct (server_tracking_persists online (request (Some "8.8.8.8") ∅)
              {| Server.db := false; Server.cachedClient := false; Server.visitors := [] |}
              "8.8.8.8" eq_refl eq_refl eq_refl (fun ip => ex_intro _ None eq_refl))
    as (r & -> & _).
  reflexivity.
Defined.

(** The collection is append-only: whatever the request and the outside
    world, a tracking request leaves the stored records in place and adds
    at most one at the end, and the admin queries change nothing. *)
Theorem collection_append_only (w : World) (req : Request) :
  (forall st, exists extra,
     Server.visitors (snd (Server.track_visitor w req st)) = Server.visitors st ++ extra /\
     (List.length extra <= 1)%nat) /\
  (forall st, exists extra,
     Vercel.visitors (snd (Vercel.track_visitor w req st)) = Vercel.visitors st ++ extra /\
     (List.length extra <= 1)%nat) /\
  (forall st,
     Server.visitors (snd (Server.admin_analytics w st)) = Server.visitors st /\
     Server.visitors (snd (Server.admin_recent_visitors w req st)) = Server.visitors st /\
     Server.visitors (snd (Server.admin_location_stats w st)) = Server.visitors st /\
     Server.visitors (snd (Server.admin_timeline w req st)) = Server.visitors st) /\
  (forall st,
     Vercel.visitors (snd (Vercel.admin_analytics w st)) = Vercel.visitors st /\
     Vercel.visitors (snd (Vercel.admin_recent_visitors w req st)) = Vercel.visitors st /\
     Vercel.visitors (snd (Vercel.admin_location_stats w st)) = Vercel.visitors st /\
     Vercel.visitors (snd (Vercel.admin_timeline w req st)) = Vercel.visitors st).
Proof.
  assert (Hs : forall st, Server.visitors (Server.connectToDatabase w st) = Server.visitors st).
  { intros st. unfold Server.connectToDatabase.
    destruct (Server.cachedClient st && Server.db st); [reflexivity|].
    now destruct (mongo_connect_ok w). }
  assert (Hv : forall st, Vercel.visitors (snd (Vercel.connectToDatabase w st)) =
                          Vercel.visitors st).
  { intros st. unfold Vercel.connectToDatabase.
    destruct (Vercel.isConnected st && Vercel.db st); [reflexivity|].
    now destruct (mongo_connect_ok w). }
  split; [|split; [|split]].
  - intros st. unfold Server.track_visitor, Server.track_visitor_try.
    destruct (Server.getRealIP req) as [ip0|e]; cbn [bind try_catch].
    2:{ exists []. rewrite app_nil_r. split; [apply Hs | simpl; lia]. }
    destruct (Server.getLocationInfo w _) as [loc|e]; cbn [bind try_catch].
    2:{ exists []. rewrite app_nil_r. split; [apply Hs | simpl; lia]. }
    destruct (Server.db (Server.connectToDatabase w st)); cbn [bind try_catch].
    + destruct (mongo_insert_ok w); cbn [bind try_catch snd Server.visitors].
      * eexists [_]. rewrite Hs. split; [reflexivity | simpl; lia].
      * exists []. rewrite app_nil_r. split; [apply Hs | simpl; lia].
    + exists []. rewrite app_nil_r. split; [apply Hs | simpl; lia].
  - intros st. unfold Vercel.track_visitor, Vercel.track_visitor_try.
    specialize (Hv st).
    destruct (Vercel.connectToDatabase w st) as [[[]|e] st1]; cbn [bind try_catch snd] in *.
    2:{ exists []. rewrite app_nil_r. split; [exact Hv | simpl; lia]. }
    destruct (Vercel.getLocationInfo w _) as [loc|e]; cbn [bind try_catch snd].
    2:{ exists []. rewrite app_nil_r. split; [exact Hv | simpl; lia]. }
    destruct (mongo_insert_ok w); cbn [bind try_catch snd Vercel.visitors].
    + eexists [_]. rewrite Hv. split; [reflexivity | simpl; lia].
    + exists []. rewrite app_nil_r. split; [exact Hv | simpl; lia].
  - intros st. unfold Server.admin_analytics, Server.admin_recent_visitors,
      Server.admin_location_stats, Server.admin_timeline.
    destruct (Server.db (Server.connectToDatabase w st)); simpl;
      destruct (mongo_read_ok w); simpl; rewrite ?Hs; auto.
  - intros st. unfold Vercel.admin_analytics, Vercel.admin_recent_visitors,
      Vercel.admin_location_stats, Vercel.admin_timeline.
    specialize (Hv st).
    destruct (Vercel.connectToDatabase w st) as [[[]|e] st1]; simpl in *;
      destruct (mongo_read_ok w); simpl; auto.
Qed.

(** Without a store the Express server answers the four admin queries with
    status 200 and zeroed or empty bodies, while the Vercel variant answers
    them with status 500. *)
Theorem admin_without_store (w : World) (req : Request) :
  mongo_connect_ok w = false ->
  (forall st, Server.db st = false ->
     fst (Server.admin_analytics w st) =
       json (AnalyticsData {| totalVisitors := 0; todayVisitors := 0;
                              uniqueCountries := 0; vpnUsers := 0 |}
               (Some "Database not available")) /\
     fst (Server.admin_recent_visitors w req st) = json (Items []) /\
     fst (Server.admin_location_stats w st) = json (Items []) /\
     fst (Server.admin_timeline w req st) = json (Items [])) /\
  (forall st, Vercel.isConnected st && Vercel.db st = false ->
     status (fst (Vercel.admin_analytics w st)) = 500%nat /\
     fst (Vercel.admin_recent_visitors w req st) = status_json 500 (Items []) /\
     fst (Vercel.admin_location_stats w st) = status_json 500 (Items []) /\
     fst (Vercel.admin_timeline w req st) = status_json 500 (Items [])).
Proof.
  intros Hc. split.
  - intros st Hd.
    unfold Server.admin_analytics, Server.admin_recent_visitors,
      Server.admin_location_stats, Server.admin_timeline.
    rewrite (server_connect_fails _ _ Hc Hd), Hd. simpl. auto.
  - intros st Hcache.
    unfold Vercel.admin_analytics, Vercel.admin_recent_visitors,
      Vercel.admin_location_stats, Vercel.admin_timeline, Vercel.connectToDatabase.
    rewrite Hcache, Hc. simpl. auto.
Qed.

Lemma admin_without_store_witness :
  fst (Server.admin_timeline (offline ∅ no_geo) (request None ∅)
         {| Server.db := false; Server.cachedClient := false; Server.visitors := [] |})
  = json (Items []).
Proof.
  destruct (admin_without_store (offline ∅ no_geo) (request None ∅) eq_refl) as [H _].
  now destruct (H {| Server.db := false; Server.cachedClient := false;
                     Server.visitors := [] |} eq_refl) as (_ & _ & _ & ->).
Defined.

End Storage.

(** ** The aggregations *)

Section Aggregations.
Import JS Model Mongo Samples.

Lemma distinct_spec l :
  List.NoDup (distinct l) /\ forall x, In x (distinct l) <-> In x l.
Proof.
  induction l as [|a l [IHn IHi]]; simpl.
  - split; [constructor | tauto].
  - split.
    + constructor.
      * intros H. apply filter_In in H as [_ H]. now rewrite String.eqb_refl in H.
      * now apply List.NoDup_filter.
    + intros x. rewrite filter_In, IHi. split.
      * intros [->|[H _]]; auto.
      * intros [->|H]; [now left|].
        destruct (String.eqb_spec a x) as [->|Hne]; [now left|].
        right. split; [exact H | reflexivity].
Qed.

Lemma filter_length_le {A} (p : A -> bool) l :
  (List.length (List.filter p l) <= List.length l)%nat.
Proof. induction l as [|x l IH]; simpl; [lia|]. destruct (p x); simpl; lia. Qed.

Lemma distinct_length l : (List.length (distinct l) <= List.length l)%nat.
Proof.
  induction l as [|a l IH]; simpl; [lia|].
  pose proof (filter_length_le (fun y => negb (String.eqb a y)) (distinct l)). lia.
Qed.

(** The counters of the analytics endpoint: the total is the size of the
    collection, no other counter exceeds it, and [uniqueCountries] is the
    number of different countries of the records, "Unknown" left out. *)
Theorem analytics_counters (today : Z) (docs : list VisitorRecord) :
  totalVisitors (analytics_query today docs) = List.length docs /\
  (todayVisitors (analytics_query today docs) <= List.length docs)%nat /\
  (vpnUsers (analytics_query today docs) <= List.length docs)%nat /\
  (uniqueCountries (analytics_query today docs) <= List.length docs)%nat /\
  exists cs, List.NoDup cs /\
             (forall c, In c cs <->
                        c <> "Unknown" /\ exists v, In v docs /\ country (location v) = c) /\
             uniqueCountries (analytics_query today docs) = List.length cs.
Proof.
  unfold analytics_query, countDocuments. cbn [totalVisitors todayVisitors vpnUsers uniqueCountries].
  split; [|split; [|split; [|split]]].
  - induction docs as [|v docs IH]; simpl; [reflexivity | now rewrite IH].
  - apply filter_length_le.
  - apply filter_length_le.
  - etransitivity; [apply filter_length_le|].
    etransitivity; [apply distinct_length|]. now rewrite length_map.
  - destruct (distinct_spec (map (fun v => country (location v)) docs)) as [Hn Hi].
    eexists. split; [|split; [|reflexivity]].
    + now apply List.NoDup_filter.
    + intros c. rewrite filter_In, Hi, in_map_iff. split.
      * intros [(v & <- & Hv) Hne]. split; [|eauto].
        intros Heq. rewrite Heq in Hne. discriminate.
      * intros [Hne (v & Hv & <-)]. split; [eauto|].
        destruct (String.eqb_spec (country (location v)) "Unknown"); [contradiction | reflexivity].
Qed.

End Aggregations.

Section LocationStats.
Import JS Model Mongo Samples.

Lemma sorted_impl {A} (R1 R2 : A -> A -> Prop) (l : list A) :
  (forall a b, R1 a b -> R2 a b) -> StronglySorted R1 l -> StronglySorted R2 l.
Proof.
  intros H. induction 1 as [|a l Hs IH Ha]; constructor; [exact IH|].
  eapply List.Forall_impl; [|exact Ha]. intros b. apply H.
Qed.

Lemma bump_country_ids c x l :
  map cs_id (bump_country c x l) =
  if existsb (fun s => String.eqb (cs_id s) c) l then map cs_id l else map cs_id l ++ [c].
Proof.
  induction l as [|s l IH]; simpl; [reflexivity|].
  destruct (String.eqb (cs_id s) c); simpl; [reflexivity|].
  rewrite IH. now destruct (existsb _ l).
Qed.

Lemma bump_country_nodup c x l :
  List.NoDup (map cs_id l) -> List.NoDup (map cs_id (bump_country c x l)).
Proof.
  intros Hn. rewrite bump_country_ids.
  destruct (existsb _ l) eqn:He; [exact Hn|].
  apply List.NoDup_app; [exact Hn | repeat constructor; intros [] |].
  intros a Ha [<-|[]]. apply in_map_iff in Ha as (s & Hs & Hin).
  apply not_true_iff_false in He. apply He. apply existsb_exists.
  exists s. split; [exact Hin | now apply String.eqb_eq].
Qed.

(** The rows after one more record: an old row of another country, the row
    of the country with one more record, or a new row. *)
Lemma bump_country_rows c x l s :
  List.NoDup (map cs_id l) ->
  In s (bump_country c x l) ->
  (In s l /\ cs_id s <> c) \/
  (exists s0, In s0 l /\ cs_id s0 = c /\
              s = {| cs_id := c; cs_count := S (cs_count s0);
                     cs_cities := add_to_set x (cs_cities s0) |}) \/
  ((forall s0, In s0 l -> cs_id s0 <> c) /\
   s = {| cs_id := c; cs_count := 1; cs_cities := [x] |}).
Proof.
  induction l as [|s1 l IH]; simpl; intros Hn.
  - intros [<-|[]]. right. right. split; [intros ? []|reflexivity].
  - apply List.NoDup_cons_iff in Hn as [Hnotin Hn].
    destruct (String.eqb_spec (cs_id s1) c) as [Heq|Hne].
    + intros [<-|Hin].
      * right. left. exists s1. rewrite <- Heq. auto.
      * left. split; [now right|]. intros Hs. apply Hnotin.
        rewrite Heq, <- Hs. now apply in_map.
    + intros [<-|Hin]; [left; auto|].
      destruct (IH Hn Hin) as [[H1 H2]|[(s0 & H1 & H2 & H3)|[H1 H2]]].
      * left. auto.
      * right. left. exists s0. auto.
      * right. right. split; [|exact H2]. intros s0 [<-|H0]; auto.
Qed.

Lemma records_of_app c l1 l2 :
  records_of c (l1 ++ l2) = records_of c l1 ++ records_of c l2.
Proof. unfold records_of. apply List.filter_app. Qed.

Lemma add_to_set_spec x l :
  List.NoDup l -> List.NoDup (add_to_set x l) /\
  forall y, In y (add_to_set x l) <-> In y l \/ y = x.
Proof.
  intros Hn. unfold add_to_set. destruct (existsb (String.eqb x) l) eqn:He.
  - split; [exact Hn|]. intros y. split; [auto|]. intros [H | ->]; [exact H|].
    apply existsb_exists in He as (z & Hz & Hxz). now apply String.eqb_eq in Hxz as ->.
  - split.
    + apply List.NoDup_app; [exact Hn | repeat constructor; intros [] |].
      intros a Ha [<-|[]]. apply not_true_iff_false in He. apply He.
      apply existsb_exists. exists x. split; [exact Ha | apply String.eqb_refl].
    + intros y. rewrite in_app_iff. simpl. intuition.
Qed.

Lemma group_country_step seen g v :
  grouped_by_country seen g ->
  grouped_by_country (seen ++ [v])
    (bump_country (country (location v)) (city (location v)) g).
Proof.
  intros (Hn & Hrows & Hall).
  set (c := country (location v)). set (x := city (location v)).
  split; [now apply bump_country_nodup|]. split.
  - intros s Hs. apply bump_country_rows in Hs; [|exact Hn].
    destruct Hs as [[Hin Hne]|[(s0 & Hin & Hid & Heq)|[Hnone Heq]]]; try subst s.
    + destruct (Hrows s Hin) as (H1 & H2 & H3 & H4).
      assert (Hrec : records_of (cs_id s) (seen ++ [v]) = records_of (cs_id s) seen).
      { rewrite records_of_app. unfold records_of at 2. simpl. fold c.
        destruct (String.eqb_spec c (cs_id s)); [congruence | apply app_nil_r]. }
      unfold row_ok. rewrite Hrec. auto.
    + destruct (Hrows s0 Hin) as (H1 & H2 & H3 & H4). rewrite Hid in *.
      assert (Hrec : records_of c (seen ++ [v]) = records_of c seen ++ [v]).
      { rewrite records_of_app. unfold records_of at 2. simpl. fold c.
        now rewrite String.eqb_refl. }
      destruct (add_to_set_spec x _ H3) as [Hn' Hi'].
      unfold row_ok. cbn [cs_id cs_count cs_cities]. rewrite Hrec, length_app. simpl.
      split; [lia|]. split; [lia|]. split; [exact Hn'|].
      intros y. rewrite Hi', H4. split.
      * intros [(v' & Hv' & Hc')| ->].
        -- exists v'. split; [apply in_or_app; now left | exact Hc'].
        -- exists v. split; [apply in_or_app; right; now left | reflexivity].
      * intros (v' & Hv' & Hc'). apply in_app_or in Hv' as [Hv'|[<-|[]]]; eauto.
    + assert (Hrec : records_of c seen = []).
      { unfold records_of. destruct (List.filter _ seen) as [|v' l] eqn:Hf; [reflexivity|].
        assert (Hv' : In v' (List.filter (fun v => String.eqb (country (location v)) c) seen))
          by (rewrite Hf; now left).
        apply filter_In in Hv' as [Hv' Hc']. apply String.eqb_eq in Hc'.
        specialize (Hall v' Hv'). apply in_map_iff in Hall as (s & Hid & Hs).
        exfalso. apply (Hnone s Hs). congruence. }
      unfold row_ok. cbn [cs_id cs_count cs_cities].
      rewrite records_of_app, Hrec. unfold records_of. simpl. fold c.
      rewrite String.eqb_refl. simpl.
      split; [reflexivity|]. split; [lia|]. split; [repeat constructor; intros []|].
      intros y. split.
      * intros [<-|[]]. exists v. split; [now left | reflexivity].
      * intros (v' & [<-|[]] & Hc'). now left.
  - intros v' Hv'. rewrite bump_country_ids.
    apply in_app_or in Hv' as [Hv'|[<-|[]]].
    + specialize (Hall v' Hv'). destruct (existsb _ g); [exact Hall|].
      apply in_or_app. now left.
    + fold c. destruct (existsb _ g) eqn:He.
      * apply existsb_exists in He as (s & Hs & Hid). apply String.eqb_eq in Hid.
        apply in_map_iff. now exists s.
      * apply in_or_app. right. now left.
Qed.

Lemma group_country_fold docs : forall seen g,
  grouped_by_country seen g ->
  grouped_by_country (seen ++ docs)
    (fold_left (fun acc v => bump_country (country (location v)) (city (location v)) acc)
       docs g).
Proof.
  induction docs as [|v docs IH]; intros seen g Hg; simpl.
  - now rewrite app_nil_r.
  - replace (seen ++ v :: docs) with ((seen ++ [v]) ++ docs)
      by (now rewrite <- List.app_assoc).
    apply IH. now apply group_country_step.
Qed.

(** The location statistics: at most ten rows, by descending count, one
    per country; each row counts the records of its country and lists
    their cities once each; a country that is left out has no more records
    than any country that is listed. *)
Theorem location_stats_rows (docs : list VisitorRecord) :
  (List.length (location_pipeline docs) <= 10)%nat /\
  StronglySorted (fun a b => (cs_count b <= cs_count a)%nat) (location_pipeline docs) /\
  List.NoDup (map cs_id (location_pipeline docs)) /\
  (forall s, In s (location_pipeline docs) -> row_ok docs s) /\
  (forall v, In v docs ->
     In (country (location v)) (map cs_id (location_pipeline docs)) \/
     forall s, In s (location_pipeline docs) ->
               (List.length (records_of (country (location v)) docs) <= cs_count s)%nat).
Proof.
  unfold location_pipeline.
  set (g := fold_left _ docs []).
  set (le := fun a b : CountryStat => (cs_count b <=? cs_count a)%nat).
  assert (Hg : grouped_by_country docs g).
  { apply (group_country_fold docs [] []). split; [constructor|].
    split; [intros ? [] | intros ? []]. }
  destruct Hg as (Hn & Hrows & Hall).
  assert (Hperm : Permutation (sort_by le g) g) by apply sort_by_perm.
  assert (Hsorted : StronglySorted (fun a b => (cs_count b <= cs_count a)%nat) (sort_by le g)).
  { apply (sorted_impl (fun a b => le a b = true)).
    - intros a b Hb. unfold le in Hb. now apply Nat.leb_le in Hb.
    - apply sort_by_sorted; unfold le.
      + intros x y. rewrite !Nat.leb_le. lia.
      + intros x y z. rewrite !Nat.leb_le. lia. }
  destruct (limit_split 10 (sort_by le g)) as [rest Hrest].
  assert (Hnd : List.NoDup (map cs_id (limit 10 (sort_by le g) ++ rest))).
  { rewrite <- Hrest. eapply Permutation_NoDup; [|exact Hn].
    apply Permutation_map. now symmetry. }
  pose proof Hsorted as Hs'. rewrite Hrest in Hs'.
  apply sorted_app_inv in Hs' as [Hs1 Hcross].
  split; [apply (limit_length 10); discriminate|]. split; [exact Hs1|]. split; [|split].
  - rewrite map_app in Hnd. now apply List.NoDup_app_remove_r in Hnd.
  - intros s Hs. apply Hrows. apply (Permutation_in _ Hperm).
    rewrite Hrest. apply in_or_app. now left.
  - intros v Hv. specialize (Hall v Hv).
    apply in_map_iff in Hall as (s0 & Hid & Hs0).
    apply (Permutation_in _ (Permutation_sym Hperm)) in Hs0 as Hs0'.
    rewrite Hrest in Hs0'. apply in_app_or in Hs0' as [Hin|Hin].
    + left. apply in_map_iff. now exists s0.
    + right. intros s Hs. specialize (Hcross s s0 Hs Hin).
      destruct (Hrows s0 Hs0) as (Hc & _). rewrite <- Hid, <- Hc. exact Hcross.
Qed.

End LocationStats.

(** ** Numbers written and read back *)

Section Decimal.
Import JS Model Mongo.

Lemma digit_char_val d :
  (0 <= d < 10)%Z ->
  digit_val (digit_char d) = Some d /\ is_decimal (digit_char d) = true.
Proof.
  intros Hd.
  assert (Hc : (d = 0 \/ d = 1 \/ d = 2 \/ d = 3 \/ d = 4 \/ d = 5 \/ d = 6 \/ d = 7 \/
                d = 8 \/ d = 9)%Z) by lia.
  repeat (destruct Hc as [-> | Hc]; [split; reflexivity|]). subst. split; reflexivity.
Qed.

Lemma parse_digit_step d acc o :
  (0 <= d < 10)%Z ->
  parse_digits 10 (String (digit_char d) acc) o =
  parse_digits 10 acc (Some (match o with Some a => a * 10 + d | None => d end)%Z).
Proof.
  intros Hd. cbn [parse_digits]. destruct (digit_char_val d Hd) as [-> _].
  destruct (Z.ltb_spec d 10); [reflexivity | lia].
Qed.

Lemma parse_dec_fuel f : forall n acc o,
  (0 <= n)%Z ->
  parse_digits 10 (dec_fuel (S f) n acc) o =
  parse_digits 10 acc (Some (digits_value (S f) o n)).
Proof.
  induction f as [|f IH]; intros n acc o Hn.
  - cbn [dec_fuel digits_value].
    assert (Hm : (0 <= n mod 10 < 10)%Z) by (apply Z.mod_pos_bound; lia).
    destruct (Z.ltb_spec n 10) as [Hlt|Hge].
    + rewrite parse_digit_step by exact Hm.
      rewrite Z.mod_small by lia. reflexivity.
    + rewrite parse_digit_step by exact Hm. now destruct o.
  - change (dec_fuel (S (S f)) n acc)
      with (if (n <? 10)%Z then String (digit_char (n mod 10)) acc
            else dec_fuel (S f) (n / 10) (String (digit_char (n mod 10)) acc)).
    change (digits_value (S (S f)) o n)
      with (if (n <? 10)%Z then match o with Some a => (a * 10 + n)%Z | None => n end
            else (digits_value (S f) o (n / 10) * 10 + n mod 10)%Z).
    assert (Hm : (0 <= n mod 10 < 10)%Z) by (apply Z.mod_pos_bound; lia).
    destruct (Z.ltb_spec n 10) as [Hlt|Hge].
    + rewrite parse_digit_step by exact Hm.
      rewrite Z.mod_small by lia. reflexivity.
    + rewrite IH by (apply Z.div_pos; lia).
      now rewrite parse_digit_step by exact Hm.
Qed.

Lemma digits_value_exact f : forall n,
  (0 <= n < 10 ^ Z.of_nat f)%Z -> digits_value f None n = n.
Proof.
  induction f as [|f IH]; intros n Hn.
  - simpl in *. lia.
  - cbn [digits_value]. destruct (Z.ltb_spec n 10) as [Hlt|Hge]; [reflexivity|].
    rewrite IH.
    + pose proof (Z.div_mod n 10). lia.
    + split; [apply Z.div_pos; lia|].
      apply Z.div_lt_upper_bound; [lia|].
      rewrite Nat2Z.inj_succ, Z.pow_succ_r in Hn by lia. lia.
Qed.

Lemma decZ_fuel n :
  (0 <= n)%Z -> (n < 10 ^ Z.of_nat (S (Z.to_nat (Z.log2 n))))%Z.
Proof.
  intros Hn. rewrite Nat2Z.inj_succ, Z2Nat.id by apply Z.log2_nonneg.
  destruct (Z.eq_dec n 0%Z) as [->|Hne]; [reflexivity|].
  pose proof (Z.log2_spec n ltac:(lia)) as [_ Hlt].
  eapply Z.lt_le_trans; [exact Hlt|].
  apply Z.pow_le_mono_l. pose proof (Z.log2_nonneg n). lia.
Qed.

Lemma dec_fuel_decimal f : forall n acc,
  (0 <= n)%Z -> all_decimal acc = true -> all_decimal (dec_fuel f n acc) = true.
Proof.
  induction f as [|f IH]; intros n acc Hn Hacc; [exact Hacc|].
  cbn [dec_fuel].
  assert (Hm : (0 <= n mod 10 < 10)%Z) by (apply Z.mod_pos_bound; lia).
  assert (Hacc' : all_decimal (String (digit_char (n mod 10)) acc) = true).
  { unfold all_decimal in *.
    change (is_decimal (digit_char (n mod 10))
            && forallb is_decimal (list_ascii_of_string acc) = true).
    rewrite Hacc. now destruct (digit_char_val _ Hm) as [_ ->]. }
  destruct (n <? 10)%Z; [exact Hacc'|].
  apply IH; [apply Z.div_pos; lia | exact Hacc'].
Qed.

Lemma dec_fuel_nonempty f : forall n acc, dec_fuel (S f) n acc <> "".
Proof.
  induction f as [|f IH]; intros n acc.
  - cbn [dec_fuel]. now destruct (n <? 10)%Z.
  - change (dec_fuel (S (S f)) n acc)
      with (if (n <? 10)%Z then String (digit_char (n mod 10)) acc
            else dec_fuel (S f) (n / 10) (String (digit_char (n mod 10)) acc)).
    destruct (n <? 10)%Z; [discriminate | apply IH].
Qed.

(** On a non-empty string of decimal digits [parseInt] reads in base ten
    from the first character: no white space, sign or [0x] to skip. *)
Lemma parseInt_decimal s :
  s <> "" -> all_decimal s = true -> parseInt s = parse_digits 10 s None.
Proof.
  intros Hne Hall. destruct s as [|c s]; [contradiction|].
  unfold all_decimal in Hall. simpl in Hall. apply andb_true_iff in Hall as [Hc Hs].
  unfold parseInt.
  assert (Hws : trimStart (String c s) = String c s).
  { simpl. replace (is_ws c) with false; [reflexivity|].
    destruct c as [[] [] [] [] [] [] [] []]; try discriminate Hc; reflexivity. }
  rewrite Hws. clear Hws Hne.
  assert (Hid : forall o : option Z,
            match o with Some v => Some v | None => None end = o)
    by (intros [v|]; reflexivity).
  destruct s as [|c2 s].
  - destruct c as [[] [] [] [] [] [] [] []]; try discriminate Hc; reflexivity.
  - simpl in Hs. apply andb_true_iff in Hs as [Hc2 _].
    destruct c as [[] [] [] [] [] [] [] []]; try discriminate Hc;
      try (lazy -[parse_digits]; apply Hid).
    destruct c2 as [[] [] [] [] [] [] [] []]; try discriminate Hc2;
      lazy -[parse_digits]; apply Hid.
Qed.

(** Reading back what [toString] wrote gives the number. *)
Theorem parseInt_decZ (n : Z) : (0 <= n)%Z -> parseInt (decZ n) = Some n.
Proof.
  intros Hn. unfold decZ.
  rewrite parseInt_decimal.
  - rewrite parse_dec_fuel by exact Hn. cbn [parse_digits].
    rewrite digits_value_exact; [reflexivity|].
    split; [exact Hn | now apply decZ_fuel].
  - apply dec_fuel_nonempty.
  - now apply dec_fuel_decimal.
Qed.

Lemma parseInt_decZ_witness : parseInt (decZ 1704110400000) = Some 1704110400000%Z.
Proof. apply parseInt_decZ. lia. Defined.

End Decimal.

Section ExplicitLimit.
Import JS Model Mongo Samples.

Lemma limit_length_exact {A} (n : Z) (l : list A) :
  (0 < n)%Z -> List.length (limit n l) = Nat.min (Z.to_nat n) (List.length l).
Proof.
  intros Hn. unfold limit. destruct (Z.eqb_spec n 0); [lia|].
  rewrite length_firstn, Z.abs_eq by lia. reflexivity.
Qed.

Lemma recent_query_length (n : Z) (docs : list VisitorRecord) :
  (0 < n)%Z ->
  List.length (recent_query n docs) = Nat.min (Z.to_nat n) (List.length docs).
Proof.
  intros Hn. unfold recent_query. rewrite limit_length_exact by exact Hn.
  now rewrite (Permutation_length (sort_by_perm _ docs)).
Qed.

(** [?limit=N] with [N] a positive decimal number below 2^31 (where the
    number [parseInt] returns is the integer itself): both servers answer
    with the [N] newest records, all of them if there are fewer.  The
    answer has [min N (number of records)] entries, newest first; together
    with the records left out it makes up the collection, and no record
    left out is newer than a record of the answer. *)
Theorem explicit_limit (w : World) (req : Request) (docs : list VisitorRecord) (n : Z) :
  (0 < n < 2 ^ 31)%Z ->
  req_query req !! "limit" = Some (decZ n) ->
  mongo_connect_ok w = true -> mongo_read_ok w = true ->
  (forall st, Server.visitors st = docs ->
     fst (Server.admin_recent_visitors w req st) = json (Items (recent_query n docs))) /\
  (forall st, Vercel.visitors st = docs ->
     fst (Vercel.admin_recent_visitors w req st) = json (Items (recent_query n docs))) /\
  List.length (recent_query n docs) = Nat.min (Z.to_nat n) (List.length docs) /\
  StronglySorted newer_first (recent_query n docs) /\
  exists rest, Permutation (recent_query n docs ++ rest) docs /\
               forall x y, In x (recent_query n docs) -> In y rest -> newer_first x y.
Proof.
  intros [Hn _] Hq Hc Hr.
  assert (Hd : num_or_default (parseInt_value (req_query req !! "limit")) 50 = n).
  { rewrite Hq. cbn [parseInt_value]. rewrite parseInt_decZ by lia.
    cbn [num_or_default]. destruct (Z.eqb_spec n 0); [lia | reflexivity]. }
  split; [|split; [|split]].
  - intros st <-. unfold Server.admin_recent_visitors, Server.connectToDatabase.
    rewrite Hc, Hr, Hd.
    destruct (Server.cachedClient st && Server.db st) eqn:Hcache; simpl.
    + apply andb_true_iff in Hcache as [_ ->]. reflexivity.
    + reflexivity.
  - intros st <-. unfold Vercel.admin_recent_visitors, Vercel.connectToDatabase.
    rewrite Hc, Hr, Hd.
    destruct (Vercel.isConnected st && Vercel.db st); reflexivity.
  - now apply recent_query_length.
  - destruct (recent_query_spec n docs ltac:(lia)) as (_ & Hs & Hrest).
    now split.
Qed.

Lemma explicit_limit_witness :
  recent_query 2 [visit 10 "US" "Boston" false; visit 30 "IN" "Pune" false;
                  visit 20 "US" "Austin" false]
  = [visit 30 "IN" "Pune" false; visit 20 "US" "Austin" false] /\
  List.length (recent_query 2
                 [visit 10 "US" "Boston" false; visit 30 "IN" "Pune" false;
                  visit 20 "US" "Austin" false]) = Nat.min 2 3.
Proof.
  split; [reflexivity|].
  apply (explicit_limit online
           {| req_ip := None; req_headers := ∅;
              connection_remoteAddress := None; socket_remoteAddress := None;
              connection_socket_remoteAddress := None;
              body_sessionId := None; body_password := None;
              req_query := {[ "limit" := "2" ]} |}
           [visit 10 "US" "Boston" false; visit 30 "IN" "Pune" false;
            visit 20 "US" "Austin" false] 2); reflexivity || lia.
Defined.

End ExplicitLimit.

(** ** Locations *)

Section Locations.
Import JS Model Samples.

Lemma or_default_nonempty v d : d <> "" -> or_default v d <> "".
Proof.
  intros Hd. unfold or_default. destruct (truthy v) as [s|] eqn:Ht; [|exact Hd].
  now apply truthy_some in Ht as [_ Hs].
Qed.

Lemma num_truthy_zero a : num_truthy a = false <-> (a == 0)%Q.
Proof.
  unfold num_truthy. rewrite negb_false_iff. apply Qeq_bool_iff.
Qed.

Lemma or_default_reads v : reads_or_unknown v (or_default v "Unknown").
Proof.
  unfold reads_or_unknown, or_default, truthy. split.
  - intros s -> Hs. now destruct (String.eqb_spec s "").
  - intros [-> | ->]; reflexivity.
Qed.

(** Every text field of a location has a value: a lookup that finds nothing
    gives the all-"Unknown" record; when the lookup finds a record, each of
    country, region, city, timezone and isp (from [org]), and on the Express
    server asn (from [as]), is the field of that record when it is there
    and not empty and reads "Unknown" when it is missing or empty; the
    coordinates are those of the record, and 0 when it has none.  On the
    Express server the map link is missing exactly when the latitude or
    the longitude is zero. *)
Theorem location_defaults (w : World) (ip : string) :
  (forall loc, Server.getLocationInfo w ip = Ok loc \/ Vercel.getLocationInfo w ip = Ok loc ->
     country loc <> "" /\ region loc <> "" /\ city loc <> "" /\
     timezone loc <> "" /\ isp loc <> "") /\
  (geoip_lookup w ip = Ok None ->
     Server.getLocationInfo w ip = Ok Server.unknownLocation /\
     Vercel.getLocationInfo w ip = Ok Vercel.unknownLocation) /\
  (forall g loc,
     geoip_lookup w ip = Ok (Some g) ->
     Server.getLocationInfo w ip = Ok loc \/ Vercel.getLocationInfo w ip = Ok loc ->
     reads_or_unknown (geo_country g) (country loc) /\
     reads_or_unknown (geo_region g) (region loc) /\
     reads_or_unknown (geo_city g) (city loc) /\
     reads_or_unknown (geo_timezone g) (timezone loc) /\
     reads_or_unknown (geo_org g) (isp loc) /\
     (geo_ll g = None -> lat loc = 0%Q /\ lng loc = 0%Q) /\
     (forall a b, geo_ll g = Some (a, b) -> (lat loc == a)%Q /\ (lng loc == b)%Q)) /\
  (forall g loc,
     geoip_lookup w ip = Ok (Some g) -> Server.getLocationInfo w ip = Ok loc ->
     exists s, asn loc = Some s /\ reads_or_unknown (geo_as g) s) /\
  (forall loc, Server.getLocationInfo w ip = Ok loc ->
     (mapUrl loc = None <-> (lat loc == 0)%Q \/ (lng loc == 0)%Q)).
Proof.
  unfold Server.getLocationInfo, Vercel.getLocationInfo.
  split; [|split; [|split; [|split]]].
  - intros loc. destruct (geoip_lookup w ip) as [[g|]|e]; cbn [bind].
    + intros [[= <-]|[= <-]]; cbn; repeat split; apply or_default_nonempty; discriminate.
    + intros [[= <-]|[= <-]]; cbn; repeat split; discriminate.
    + intros [H|H]; discriminate.
  - intros ->. split; reflexivity.
  - intros g loc ->. cbn [bind].
    assert (Hz : forall a : Q, ((if num_truthy a then a else 0%Q) == a)%Q).
    { intros a. destruct (num_truthy a) eqn:Ha; [reflexivity|].
      apply num_truthy_zero in Ha. now symmetry. }
    intros [[= <-]|[= <-]]; cbn [country region city timezone isp lat lng];
      (repeat (split; [apply or_default_reads|])); split.
    + intros ->. split; reflexivity.
    + intros a b ->. split; apply Hz.
    + intros ->. split; reflexivity.
    + intros a b ->. split; reflexivity.
  - intros g loc ->. cbn [bind]. intros [= <-]. cbn [asn].
    eexists. split; [reflexivity | apply or_default_reads].
  - intros loc. destruct (geoip_lookup w ip) as [[g|]|e]; cbn [bind]; [| |discriminate].
    + intros [= <-]. cbn [mapUrl lat lng].
      set (la := match geo_ll g with Some (a, _) => if num_truthy a then a else 0%Q
                                   | None => 0%Q end).
      set (lo := match geo_ll g with Some (_, b) => if num_truthy b then b else 0%Q
                                   | None => 0%Q end).
      rewrite <- !num_truthy_zero.
      destruct (num_truthy la), (num_truthy lo); cbn; split; auto;
        try discriminate; intros [H|H]; discriminate.
    + intros [= <-]. cbn. split; [intros _; left; reflexivity | reflexivity].
Qed.

End Locations.

(** ** Witnesses on concrete inputs *)

Section Witnesses.
Import JS Regex Model Addr Samples.

Lemma vercel_validator_on_quads_witness :
  Vercel.isValidPublicIP (quad 8 8 8 8) = true /\
  Vercel.isValidPublicIP (quad 172 30 0 1) = false.
Proof.
  split.
  - apply (vercel_validator_on_quads 8 8 8 8); lia.
  - apply (vercel_validator_on_quads 172 30 0 1); lia.
Defined.

Lemma server_validator_on_quads_witness :
  Server.isValidPublicIP (quad 192 168 1 1) = false /\
  Server.isValidPublicIP (quad 172 30 0 1) = true.
Proof.
  split.
  - apply (server_validator_on_quads 192 168 1 1); lia.
  - apply (server_validator_on_quads 172 30 0 1); lia.
Defined.

Lemma cleanup_only_removes_witness :
  In ("visitors", 3%nat) [("visitors", 3%nat); ("sessions", 0%nat)].
Proof.
  apply (cleanup_only_removes ["node"; "cleandb.js"]
           {| CleanDb.cw_connect := Ok tt; CleanDb.cw_list := fun _ => Ok tt;
              CleanDb.cw_count := fun _ => Ok tt; CleanDb.cw_drop := fun _ => Ok true;
              CleanDb.cw_close := Ok tt |}).
  simpl. left. reflexivity.
Defined.

(** With [db] and [cachedClient] set, [connectToDatabase] of the Express
    server returns at its first test: it leaves the state as it is whatever
    a connection attempt would give, and the tracking handler answers and
    stores the same whether or not the store could be connected to.  A
    tracking request whose insert fails is then answered with status 500
    and stores nothing. *)
Theorem server_cached_handle (w : World) (req : Request) (st : Server.State) :
  Server.db st = true -> Server.cachedClient st = true ->
  (forall ok, Server.connectToDatabase (with_connect ok w) st = st) /\
  (forall ok, Server.track_visitor (with_connect ok w) req st =
              Server.track_visitor w req st) /\
  (mongo_insert_ok w = false ->
   status (fst (Server.track_visitor w req st)) = 500%nat /\
   snd (Server.track_visitor w req st) = st).
Proof.
  intros Hd Hc.
  assert (Hcon : forall w', Server.connectToDatabase w' st = st).
  { intros w'. unfold Server.connectToDatabase. now rewrite Hd, Hc. }
  split; [intros ok; apply Hcon|]. split.
  - intros ok. unfold Server.track_visitor. rewrite !Hcon. reflexivity.
  - intros Hi.
    unfold Server.track_visitor, Server.track_visitor_try. rewrite Hcon.
    destruct (Server.getRealIP req) as [ip0|e]; cbn [bind try_catch]; [|split; reflexivity].
    destruct (Server.getLocationInfo w _) as [loc|e]; cbn [bind try_catch]; [|split; reflexivity].
    rewrite Hd, Hi. split; reflexivity.
Qed.

Lemma server_cached_handle_witness :
  status (fst (Server.track_visitor (offline ∅ no_geo) (request (Some "8.8.8.8") ∅)
                 {| Server.db := true; Server.cachedClient := true;
                    Server.visitors := [] |})) = 500%nat.
Proof.
  destruct (server_cached_handle (offline ∅ no_geo) (request (Some "8.8.8.8") ∅)
              {| Server.db := true; Server.cachedClient := true; Server.visitors := [] |}
              eq_refl eq_refl) as (_ & _ & H).
  now destruct (H eq_refl) as [-> _].
Defined.

End Witnesses.
